(** * The order-event pipeline of the shop backend

    A shallow embedding of the in-memory FIFO queue ([OrderSQSService]),
    the cache and order services it drives ([CacheService],
    [OrderService]) and the background consumer ([OrderHandlerService]),
    followed by the properties of the pipeline.

    Conventions of the embedding:
    - a JavaScript [number] that holds a time or a count is a [Z]; a price
      or a quantity is a binary64 [float], as in JavaScript;
    - a string is a sequence of characters, one [ascii] each; the NUL
      character, which no PostgreSQL text value can hold, is taken not to
      occur;
    - every [async] method is a computation in the monad [M]: it threads the
      process state [World] and either returns or throws;
    - [Date.now()] and [Math.random()] are inputs of the operation that
      reads them;
    - Redis and PostgreSQL are modelled by their contents and by a fault
      oracle: one boolean is consumed per command, [true] makes the command
      reject; a value sent to PostgreSQL is converted to the type of its
      column as the schema declares it, and a DECIMAL or INTEGER column is
      kept as the binary64 value that reads back from it;
    - a route is its body schema followed by its handler, and its [Reply]
      is what it hands to [reply.send];
    - [setTimeout] callbacks are kept in [timers] and run by [runTimers];
    - a method runs to its end before another callback runs: the
      interleavings at its [await] points are not modelled;
    - log lines are kept without their emoji prefix. *)

From Stdlib Require Import ZArith String Ascii List DecimalString DecimalZ.
From Stdlib Require Import PrimFloat Uint63 SpecFloat FloatOps.
From stdpp Require Import gmap strings list.

Open Scope Z_scope.

(** ** Data model *)

(** [CreateOrderItemRequest] and [CreateOrderRequest] of [types/order.ts]. *)
Record CreateOrderItemRequest := {
  product_id : string;
  product_name : string;
  quantity : float;
  unit_price : float
}.

Record CreateOrderRequest := {
  customer_name : string;
  customer_email : string;
  items : list CreateOrderItemRequest
}.

(** A JSON scalar, as the items of an order arrive from the database. *)
Inductive Json :=
  | JNull
  | JNum (x : float)
  | JStr (s : string).

(** [OrderItem] and [Order]; [created_at] and [updated_at] are filled in by
    the database and are left out. The items of an [Order] are the objects
    that the database builds with [json_build_object]: whatever the
    interface [OrderItem] declares, each field holds the JSON value of its
    column. *)
Record OrderItem := {
  oi_product_id : Json;
  oi_product_name : Json;
  oi_quantity : Json;
  oi_unit_price : Json;
  oi_total_price : Json
}.

Record Order := {
  o_id : string;
  o_customer_name : string;
  o_customer_email : string;
  o_items : list OrderItem;
  o_total_amount : float;
  o_status : string
}.

(** The [data?: any] field of an event, as the routes fill it: the request
    body for CREATE, [{ status }] for UPDATE, [{}] for DELETE. *)
Inductive Payload :=
  | PCreate (req : CreateOrderRequest)
  | PStatus (status : string)
  | PEmpty.

(** [OrderEvent]. The field [type] is kept a string: the consumer has a
    [default] branch for values outside CREATE, UPDATE and DELETE. *)
Record OrderEvent := {
  ev_id : string;
  ev_type : string;
  orderId : option string;
  data : option Payload;
  timestamp : Z;
  groupId : string;
  deduplicationId : string
}.

(** [Omit<OrderEvent, 'id' | 'timestamp'>], the argument of [sendMessage]. *)
Record NewEvent := {
  ne_type : string;
  ne_orderId : option string;
  ne_data : option Payload;
  ne_groupId : string;
  ne_deduplicationId : string
}.

Record MessageAttributes := {
  SentTimestamp : Z;
  GroupId : string;
  DeduplicationId : string
}.

Record OrderEventMessage := {
  MessageId : string;
  ReceiptHandle : string;
  Body : OrderEvent;
  Attributes : MessageAttributes
}.

(** The fields of [OrderSQSService], with the pending [setTimeout]
    callbacks of [returnMessage]: the time at which each one is due, the
    message it pushes and the attempt number it logs. *)
Record SqsState := {
  queue : list OrderEventMessage;
  processingQueue : list OrderEventMessage;
  processedMessages : gset string;
  deduplicationCache : gmap string Z;
  timers : list (Z * OrderEventMessage * Z)
}.

(** A value stored in Redis: a cached order or a cached list of orders. *)
Inductive CacheVal :=
  | COrder (o : Order)
  | CList (l : list Order).

Record RedisState := {
  rkeys : list (string * CacheVal);
  redis_faults : list bool
}.

(** The two tables of the database, the rows of the open transaction of
    the checked-out client, and the fault oracle. *)
Record OrderRow := {
  row_id : string;
  row_customer_name : string;
  row_customer_email : string;
  row_total_amount : float;
  row_status : string
}.

Record ItemRow := {
  ir_order_id : string;
  ir_product_id : string;
  ir_product_name : string;
  ir_quantity : float;
  ir_unit_price : float;
  ir_total_price : float
}.

Record PgState := {
  orders : list OrderRow;
  order_items : list ItemRow;
  txn : option (list OrderRow * list ItemRow);
  pg_faults : list bool
}.

Record World := {
  sqs : SqsState;
  redis : RedisState;
  pg : PgState;
  isRunning : bool;
  console : list string
}.

(** ** The monad of asynchronous methods *)

Inductive Res (A : Type) :=
  | Ok (a : A)
  | Throw (e : string).
Arguments Ok {A} a.
Arguments Throw {A} e.

Definition M (A : Type) : Type := World -> Res A * World.

Definition ret {A} (a : A) : M A := fun w => (Ok a, w).

Definition bind {A B} (c : M A) (k : A -> M B) : M B :=
  fun w => match c w with
           | (Ok a, w') => k a w'
           | (Throw e, w') => (Throw e, w')
           end.

Definition throw {A} (e : string) : M A := fun w => (Throw e, w).

(** [try { c } catch (error) { h error }] *)
Definition try_catch {A} (c : M A) (h : string -> M A) : M A :=
  fun w => match c w with
           | (Ok a, w') => (Ok a, w')
           | (Throw e, w') => h e w'
           end.

(** A value that is computed without the process state, or an error. *)
Definition res_bind {A B} (r : Res A) (k : A -> Res B) : Res B :=
  match r with
  | Ok a => k a
  | Throw e => Throw e
  end.

Declare Scope js_scope.
Delimit Scope js_scope with js.
Notation "'let!' x ':=' c 'in' k" := (bind c (fun x => k))
  (at level 10, x name, c at level 100, k at level 200) : js_scope.
Notation "'let?' x ':=' r 'in' k" := (res_bind r (fun x => k))
  (at level 10, x name, r at level 100, k at level 200) : js_scope.
Notation "c ';;;' k" := (bind c (fun _ => k))
  (at level 100, k at level 200, right associativity) : js_scope.
Open Scope js_scope.

Definition gets {A} (f : World -> A) : M A := fun w => (Ok (f w), w).
Definition modify (f : World -> World) : M unit := fun w => (Ok tt, f w).

Definition with_sqs (f : SqsState -> SqsState) (w : World) : World :=
  {| sqs := f (sqs w); redis := redis w; pg := pg w;
     isRunning := isRunning w; console := console w |}.
Definition with_redis (f : RedisState -> RedisState) (w : World) : World :=
  {| sqs := sqs w; redis := f (redis w); pg := pg w;
     isRunning := isRunning w; console := console w |}.
Definition with_pg (f : PgState -> PgState) (w : World) : World :=
  {| sqs := sqs w; redis := redis w; pg := f (pg w);
     isRunning := isRunning w; console := console w |}.
Definition with_isRunning (b : bool) (w : World) : World :=
  {| sqs := sqs w; redis := redis w; pg := pg w;
     isRunning := b; console := console w |}.

(** [console.log], [console.warn] and [console.error]. *)
Definition log (line : string) : M unit :=
  modify (fun w => {| sqs := sqs w; redis := redis w; pg := pg w;
                      isRunning := isRunning w; console := console w ++ [line] |}).

(** A number inside a template literal. *)
Definition string_of_Z (z : Z) : string := NilZero.string_of_int (Z.to_int z).

(** [Array.prototype.slice(0, n)]: a negative [n] counts from the end. *)
Definition slice0 {A} (n : Z) (l : list A) : list A :=
  if n <? 0 then take (Z.to_nat (Z.of_nat (length l) + n)) l
  else take (Z.to_nat n) l.

(** [Array.prototype.findIndex]. *)
Fixpoint findIndex {A} (p : A -> bool) (l : list A) : option nat :=
  match l with
  | [] => None
  | x :: l' => if p x then Some 0%nat else S <$> findIndex p l'
  end.

(** ** [OrderSQSService] *)

Module OrderSQSService.

Definition deduplicationWindowMs : Z := 5 * 60 * 1000.
Definition maxRetries : Z := 3.
Definition retryDelays : list Z := [1000; 5000; 15000].

Definition set_queue (q : list OrderEventMessage) (s : SqsState) : SqsState :=
  {| queue := q; processingQueue := processingQueue s;
     processedMessages := processedMessages s;
     deduplicationCache := deduplicationCache s; timers := timers s |}.
Definition set_processingQueue (q : list OrderEventMessage) (s : SqsState) : SqsState :=
  {| queue := queue s; processingQueue := q;
     processedMessages := processedMessages s;
     deduplicationCache := deduplicationCache s; timers := timers s |}.
Definition set_processedMessages (p : gset string) (s : SqsState) : SqsState :=
  {| queue := queue s; processingQueue := processingQueue s;
     processedMessages := p;
     deduplicationCache := deduplicationCache s; timers := timers s |}.
Definition set_deduplicationCache (d : gmap string Z) (s : SqsState) : SqsState :=
  {| queue := queue s; processingQueue := processingQueue s;
     processedMessages := processedMessages s;
     deduplicationCache := d; timers := timers s |}.
Definition set_timers (t : list (Z * OrderEventMessage * Z)) (s : SqsState) : SqsState :=
  {| queue := queue s; processingQueue := processingQueue s;
     processedMessages := processedMessages s;
     deduplicationCache := deduplicationCache s; timers := t |}.

(** What one call of [sendMessage] reads from the clock and from
    [Math.random]: for the message id, for [new Date()] and for the
    receipt handle. The random part is the result of
    [Math.random().toString(36).substr(2, 9)]. *)
Record Entropy := {
  id_now : Z;
  id_rnd : string;
  date_now : Z;
  rh_now : Z;
  rh_rnd : string
}.

Definition generateMessageId (now : Z) (rnd : string) : string :=
  "msg_" +:+ string_of_Z now +:+ "_" +:+ rnd.

Definition generateReceiptHandle (now : Z) (rnd : string) : string :=
  "receipt_" +:+ string_of_Z now +:+ "_" +:+ rnd.

(** [if (!lastSeen) return false]: an absent entry and a recorded 0 are
    both falsy. *)
Definition isDuplicate (deduplicationId : string) (timestamp : Z) (s : SqsState) : bool :=
  match deduplicationCache s !! deduplicationId with
  | None => false
  | Some lastSeen =>
      if lastSeen =? 0 then false
      else timestamp - lastSeen <? deduplicationWindowMs
  end.

(** Simple retry tracking: always 0. *)
Definition getRetryCount (messageId : string) : Z := 0.

Record SendResult := { sr_MessageId : string }.

Definition mkMessage (event : NewEvent) (e : Entropy) : OrderEventMessage :=
  let messageId := generateMessageId (id_now e) (id_rnd e) in
  {| MessageId := messageId;
     ReceiptHandle := generateReceiptHandle (rh_now e) (rh_rnd e);
     Body := {| ev_id := messageId;
                ev_type := ne_type event;
                orderId := ne_orderId event;
                data := ne_data event;
                timestamp := date_now e;
                groupId := ne_groupId event;
                deduplicationId := ne_deduplicationId event |};
     Attributes := {| SentTimestamp := date_now e;
                      GroupId := ne_groupId event;
                      DeduplicationId := ne_deduplicationId event |} |}.

(** [this.emit('messageReceived', message)]: the one listener is the one
    the consumer registers in its constructor, which starts the consumer
    when it is not running. *)
Definition emit_messageReceived (message : OrderEventMessage) : M unit :=
  let! running := gets isRunning in
  if running then ret tt
  else modify (with_isRunning true) ;;;
       log "Starting OrderHandler service...".

Definition sendMessage (event : NewEvent) (e : Entropy) : M SendResult :=
  let messageId := generateMessageId (id_now e) (id_rnd e) in
  let timestamp := date_now e in
  let! dup := gets (fun w => isDuplicate (ne_deduplicationId event) timestamp (sqs w)) in
  if dup then
    log ("Duplicate message detected: " +:+ ne_deduplicationId event) ;;;
    ret {| sr_MessageId := messageId |}
  else
    let message := mkMessage event e in
    modify (with_sqs (fun s => set_queue (queue s ++ [message]) s)) ;;;
    modify (with_sqs (fun s =>
      set_deduplicationCache
        (<[ne_deduplicationId event := timestamp]> (deduplicationCache s)) s)) ;;;
    log ("Message sent to SQS: " +:+ messageId +:+ " (" +:+ ne_type event +:+ ")") ;;;
    emit_messageReceived message ;;;
    ret {| sr_MessageId := messageId |}.

(** The filter of [receiveMessage]. *)
Definition available (s : SqsState) (msg : OrderEventMessage) : bool :=
  negb (existsb (fun processing => String.eqb (MessageId processing) (MessageId msg))
                (processingQueue s))
  && negb (bool_decide (MessageId msg ∈ processedMessages s)).

Definition receiveMessage (maxNumberOfMessages : Z) : M (list OrderEventMessage) :=
  let! s := gets sqs in
  let availableMessages := List.filter (available s) (queue s) in
  let messagesToReceive := slice0 maxNumberOfMessages availableMessages in
  if (length messagesToReceive =? 0)%nat then ret []
  else
    modify (with_sqs (fun s =>
      set_processingQueue (processingQueue s ++ messagesToReceive) s)) ;;;
    log ("Received " +:+ string_of_Z (Z.of_nat (length messagesToReceive))
         +:+ " messages from SQS") ;;;
    ret messagesToReceive.

Definition hasHandle (receiptHandle : string) (msg : OrderEventMessage) : bool :=
  String.eqb (ReceiptHandle msg) receiptHandle.

(** [findIndex] followed by [this.processingQueue[messageIndex]]; the
    index that [findIndex] returns is always in range. *)
Definition deleteMessage (receiptHandle : string) : M unit :=
  let! s := gets sqs in
  match findIndex (hasHandle receiptHandle) (processingQueue s) with
  | None => throw "Message not found in processing queue"
  | Some messageIndex =>
      match processingQueue s !! messageIndex with
      | None => throw "TypeError: message is undefined"
      | Some message =>
          modify (with_sqs (fun s =>
            set_processingQueue (delete messageIndex (processingQueue s)) s)) ;;;
          modify (with_sqs (fun s =>
            set_processedMessages ({[MessageId message]} ∪ processedMessages s) s)) ;;;
          log ("Message deleted from SQS: " +:+ MessageId message)
      end
  end.

(** [this.retryDelays[retryCount] || this.retryDelays[this.retryDelays.length - 1]] *)
Definition retryDelay (retryCount : Z) : Z :=
  let lastDelay := List.last retryDelays 0 in
  if retryCount <? 0 then lastDelay
  else match retryDelays !! Z.to_nat retryCount with
       | Some d => if d =? 0 then lastDelay else d
       | None => lastDelay
       end.

(** [now] is the time at which [setTimeout] is called. *)
Definition returnMessage (receiptHandle : string) (now : Z) : M unit :=
  let! s := gets sqs in
  match findIndex (hasHandle receiptHandle) (processingQueue s) with
  | None => throw "Message not found in processing queue"
  | Some messageIndex =>
      match processingQueue s !! messageIndex with
      | None => throw "TypeError: message is undefined"
      | Some message =>
          modify (with_sqs (fun s =>
            set_processingQueue (delete messageIndex (processingQueue s)) s)) ;;;
          let retryCount := getRetryCount (MessageId message) in
          if retryCount <? maxRetries then
            let delay := retryDelay retryCount in
            modify (with_sqs (fun s =>
              set_timers (timers s ++ [(now + delay, message, retryCount + 1)]) s))
          else
            modify (with_sqs (fun s =>
              set_processedMessages ({[MessageId message]} ∪ processedMessages s) s)) ;;;
            log ("Message max retries exceeded: " +:+ MessageId message)
      end
  end.

(** The callback of one timer. *)
Definition fireTimer (t : Z * OrderEventMessage * Z) : M unit :=
  let '(_, message, attempt) := t in
  modify (with_sqs (fun s => set_queue (queue s ++ [message]) s)) ;;;
  log ("Message returned to queue for retry: " +:+ MessageId message
       +:+ " (attempt " +:+ string_of_Z attempt +:+ ")").

Fixpoint fireAll (ts : list (Z * OrderEventMessage * Z)) : M unit :=
  match ts with
  | [] => ret tt
  | t :: ts' => fireTimer t ;;; fireAll ts'
  end.

Definition isDue (now : Z) (t : Z * OrderEventMessage * Z) : bool :=
  fst (fst t) <=? now.

(** The event loop at time [now]: the timers that are due run, in the
    order in which they were set. *)
Definition runTimers (now : Z) : M unit :=
  let! ts := gets (fun w => timers (sqs w)) in
  modify (with_sqs (set_timers (List.filter (fun t => negb (isDue now t)) ts))) ;;;
  fireAll (List.filter (isDue now) ts).

Record QueueAttributes := {
  ApproximateNumberOfMessages : Z;
  ApproximateNumberOfMessagesNotVisible : Z;
  ApproximateNumberOfMessagesDelayed : Z
}.

Definition getQueueAttributes : M QueueAttributes :=
  let! s := gets sqs in
  ret {| ApproximateNumberOfMessages := Z.of_nat (length (queue s));
         ApproximateNumberOfMessagesNotVisible := Z.of_nat (length (processingQueue s));
         ApproximateNumberOfMessagesDelayed := 0 |}.

Definition purgeQueue : M unit :=
  modify (with_sqs (fun s =>
    {| queue := []; processingQueue := []; processedMessages := ∅;
       deduplicationCache := ∅; timers := timers s |})) ;;;
  log "Queue purged".

(** One run of the callback of [startCleanupInterval]. *)
Definition cleanup (now : Z) : M unit :=
  modify (with_sqs (fun s =>
    set_deduplicationCache
      (filter (fun kv => negb (now - snd kv >? deduplicationWindowMs))
              (deduplicationCache s)) s)).

End OrderSQSService.

(** ** [CacheService] *)

Module CacheService.

Definition set_rkeys (k : list (string * CacheVal)) (r : RedisState) : RedisState :=
  {| rkeys := k; redis_faults := redis_faults r |}.
Definition set_redis_faults (f : list bool) (r : RedisState) : RedisState :=
  {| rkeys := rkeys r; redis_faults := f |}.

(** One Redis command: the next entry of the fault oracle decides whether
    it rejects; an exhausted oracle means no more faults. *)
Definition command {A} (run : RedisState -> A * RedisState) : M A :=
  fun w =>
    match redis_faults (redis w) with
    | true :: fs => (Throw "Redis command failed", with_redis (set_redis_faults fs) w)
    | false :: fs =>
        let (a, r) := run (set_redis_faults fs (redis w)) in
        (Ok a, with_redis (fun _ => r) w)
    | [] =>
        let (a, r) := run (redis w) in
        (Ok a, with_redis (fun _ => r) w)
    end.

Definition hasKey (key : string) (kv : string * CacheVal) : bool :=
  String.eqb (fst kv) key.

Definition redis_get (key : string) : M (option CacheVal) :=
  command (fun r => (snd <$> List.find (hasKey key) (rkeys r), r)).

(** [setex]; the expiry of keys is not modelled. *)
Definition redis_setex (key : string) (value : CacheVal) : M unit :=
  command (fun r =>
    (tt, set_rkeys ((key, value) :: List.filter (fun kv => negb (hasKey key kv)) (rkeys r)) r)).

Definition redis_exists (key : string) : M bool :=
  command (fun r => (existsb (hasKey key) (rkeys r), r)).

(** [keys(prefix + '*')] *)
Definition redis_keys (pre : string) : M (list string) :=
  command (fun r => (List.filter (String.prefix pre) (fst <$> rkeys r), r)).

(** [del(...keys)] returns the number of keys removed. *)
Definition redis_del (keys : list string) : M Z :=
  command (fun r =>
    let hit kv := existsb (String.eqb (fst kv)) keys in
    (Z.of_nat (length (List.filter hit (rkeys r))),
     set_rkeys (List.filter (fun kv => negb (hit kv)) (rkeys r)) r)).

Definition generateOrderKey (id : string) : M string :=
  let key := "order:" +:+ id in
  log ("Generated order cache key: " +:+ key) ;;;
  ret key.

Definition get (key : string) : M (option CacheVal) :=
  try_catch (redis_get key)
            (fun error => log ("Redis get error: " +:+ error) ;;; ret None).

Definition set (key : string) (value : CacheVal) (ttl : Z) : M unit :=
  try_catch (redis_setex key value ;;;
             log ("Stored in cache: " +:+ key +:+ " (TTL: " +:+ string_of_Z ttl +:+ "s)"))
            (fun error => log ("Redis set error: " +:+ error)).

(** [flushdb] *)
Definition redis_flushdb : M unit :=
  command (fun r => (tt, set_rkeys [] r)).

Definition del (key : string) : M unit :=
  try_catch (redis_del [key] ;;; ret tt)
            (fun error => log ("Redis del error: " +:+ error)).

Definition delMultiple (keys : list string) : M unit :=
  try_catch (if (0 <? length keys)%nat then redis_del keys ;;; ret tt else ret tt)
            (fun error => log ("Redis delMultiple error: " +:+ error)).

Definition clearAll : M unit :=
  try_catch (redis_flushdb ;;; log "All cache cleared")
            (fun error => log ("Redis clearAll error: " +:+ error)).

(** [if (orderId)]: [undefined] and the empty string are falsy. *)
Definition truthy (s : option string) : option string :=
  match s with
  | Some "" => None
  | Some id => Some id
  | None => None
  end.

(** The body of the [try] block of [invalidateOrderCache]. *)
Definition invalidateOrderCache_try (orderId : option string) : M unit :=
  let! keys :=
    match truthy orderId with
    | Some id =>
        let orderKey := "order:" +:+ id in
        let! orderExists := redis_exists orderKey in
        let keys := if orderExists then [orderKey] else [] in
        let! ordersListKeys := redis_keys "orders:list:" in
        log ("Invalidating cache for specific order " +:+ id) ;;;
        ret (keys ++ ordersListKeys)
    | None =>
        let! orderKeys := redis_keys "order:" in
        let! ordersListKeys := redis_keys "orders:list:" in
        log "Invalidating ALL order-related cache" ;;;
        ret (orderKeys ++ ordersListKeys)
    end in
  if (0 <? length keys)%nat then
    let! delResult := redis_del keys in
    log ("Invalidated " +:+ string_of_Z delResult +:+ " cache keys out of "
         +:+ string_of_Z (Z.of_nat (length keys)) +:+ " found keys")
  else
    log "No cache keys found to invalidate".

Definition invalidateOrderCache (orderId : option string) : M unit :=
  try_catch (invalidateOrderCache_try orderId)
            (fun error => log ("Redis invalidateOrderCache error: " +:+ error)).

End CacheService.

(** ** The column types of the schema *)

(** What PostgreSQL stores when a JavaScript value is the parameter of an
    INSERT or an UPDATE: node-postgres sends the text of the value
    ([toString]), and PostgreSQL converts the text to the type that the
    schema declares for the column, or rejects it. *)
Module Column.

Definition float_of_Z (z : Z) : float :=
  if z <? 0 then (- of_uint63 (Uint63.of_Z (- z)))%float
  else of_uint63 (Uint63.of_Z z).

Definition allSpaces (s : string) : bool :=
  forallb (Ascii.eqb " ") (list_ascii_of_string s).

(** VARCHAR(n): a longer string is rejected, unless the characters in
    excess are all spaces; then it is cut to [n] characters. *)
Definition varchar (n : nat) (s : string) : Res string :=
  if (String.length s <=? n)%nat then Ok s
  else if allSpaces (String.substring n (String.length s - n) s)
       then Ok (String.substring 0 n s)
       else Throw "value too long for type character varying".

(** VARCHAR(n) for the id of an order. The id that [createOrder] inserts
    is the result of [generateId], digits and lower-case letters: it is
    never too long by spaces only, so it is stored as it is or rejected. *)
Definition varchar_id (n : nat) (id : string) : Res string :=
  if (String.length id <=? n)%nat then Ok id
  else Throw "value too long for type character varying".

(** The integer that a number is, when it is one. A finite number other
    than zero is [m * 2 ^ e], with the sign [s]. *)
Definition integerValue (x : float) : option Z :=
  match Prim2SF x with
  | S754_zero _ => Some 0
  | S754_finite s m e =>
      let magnitude :=
        if 0 <=? e then Some (Z.pos m * 2 ^ e)
        else if Z.pos m mod 2 ^ (- e) =? 0 then Some (Z.pos m / 2 ^ (- e))
        else None in
      (fun z => if s then - z else z) <$> magnitude
  | S754_infinity _ => None
  | S754_nan => None
  end.

(** INTEGER: the text of the number must be that of an integer (from
    10 ^ 21 on the text has an exponent), within 32 bits. *)
Definition integer (x : float) : Res float :=
  match integerValue x with
  | Some z =>
      if 10 ^ 21 <=? Z.abs z then Throw "invalid input syntax for type integer"
      else if (- 2147483648 <=? z) && (z <=? 2147483647) then Ok (float_of_Z z)
      else Throw "integer out of range"
  | None => Throw "invalid input syntax for type integer"
  end.

(** The whole hundredths in [m * 2 ^ e], and whether what is left of it
    is half a hundredth or more. *)
Definition hundredths (m : positive) (e : Z) : Z :=
  if 0 <=? e then Z.pos m * 2 ^ e * 100
  else (Z.pos m * 100) / 2 ^ (- e).

Definition upperHalf (m : positive) (e : Z) : bool :=
  if 0 <=? e then false
  else 2 ^ (- e) <=? 2 * ((Z.pos m * 100) mod 2 ^ (- e)).

(** DECIMAL(10,2). PostgreSQL rounds the text of the number to two
    decimal places, half away from zero, and rejects what then needs more
    than eight digits before the point; NaN is a value of the type, an
    infinity is not. The text of a number is the shortest decimal that
    reads back as the number. It rounds as the number itself does, except
    when the tie [k + 0.5] hundredths reads back as the number: then the
    tie is the text, and it is rounded up whichever side of it the number
    lies on. The result is the number that the column reads back as. *)
Definition numeric_10_2 (x : float) : Res float :=
  match Prim2SF x with
  | S754_nan => Ok nan
  | S754_infinity _ => Throw "numeric field overflow"
  | S754_zero _ => Ok 0%float
  | S754_finite s m e =>
      let k := hundredths m e in
      if 10 ^ 10 <=? k then Throw "numeric field overflow"
      else
        let tie := (float_of_Z (2 * k + 1) / 200)%float in
        let c := if upperHalf m e || (abs x =? tie)%float then k + 1 else k in
        if 10 ^ 10 <=? c then Throw "numeric field overflow"
        else Ok (float_of_Z (if s then - c else c) / 100)%float
  end.

(** A DECIMAL column inside [json_build_object]: a JSON number, but NaN,
    which JSON does not have, is the string [NaN]. *)
Definition json_numeric (x : float) : Json :=
  if is_nan x then JStr "NaN" else JNum x.

End Column.

(** ** [OrderService] *)

Module OrderService.

Definition CACHE_TTL_ORDER_DETAILS : Z := 600.

Definition set_orders (o : list OrderRow) (p : PgState) : PgState :=
  {| orders := o; order_items := order_items p; txn := txn p; pg_faults := pg_faults p |}.
Definition set_order_items (i : list ItemRow) (p : PgState) : PgState :=
  {| orders := orders p; order_items := i; txn := txn p; pg_faults := pg_faults p |}.
Definition set_txn (t : option (list OrderRow * list ItemRow)) (p : PgState) : PgState :=
  {| orders := orders p; order_items := order_items p; txn := t; pg_faults := pg_faults p |}.
Definition set_pg_faults (f : list bool) (p : PgState) : PgState :=
  {| orders := orders p; order_items := order_items p; txn := txn p; pg_faults := f |}.

(** One statement sent to PostgreSQL (or [pool.connect]): the fault oracle
    decides whether it rejects; otherwise the statement itself succeeds or
    fails on a constraint. *)
Definition query {A} (run : PgState -> Res A * PgState) : M A :=
  fun w =>
    match pg_faults (pg w) with
    | true :: fs => (Throw "database error", with_pg (set_pg_faults fs) w)
    | false :: fs =>
        let (a, p) := run (set_pg_faults fs (pg w)) in
        (a, with_pg (fun _ => p) w)
    | [] =>
        let (a, p) := run (pg w) in
        (a, with_pg (fun _ => p) w)
    end.

Definition connect : M unit := query (fun p => (Ok tt, p)).

Definition BEGIN : M unit := query (fun p => (Ok tt, set_txn (Some ([], [])) p)).

Definition hasId (id : string) (r : OrderRow) : bool := String.eqb (row_id r) id.

(** The row of [orders] that the values make: each value converted to
    the type of its column, VARCHAR(50), VARCHAR(255), VARCHAR(255),
    DECIMAL(10,2) and VARCHAR(50). *)
Definition order_row (id customer_name customer_email : string) (total_amount : float)
    (status : string) : Res OrderRow :=
  let? id := Column.varchar_id 50 id in
  let? customer_name := Column.varchar 255 customer_name in
  let? customer_email := Column.varchar 255 customer_email in
  let? total_amount := Column.numeric_10_2 total_amount in
  let? status := Column.varchar 50 status in
  Ok {| row_id := id; row_customer_name := customer_name;
        row_customer_email := customer_email;
        row_total_amount := total_amount; row_status := status |}.

(** The row of [order_items]: VARCHAR(50), VARCHAR(100), VARCHAR(255),
    INTEGER, DECIMAL(10,2) and DECIMAL(10,2). *)
Definition item_row (order_id product_id product_name : string)
    (quantity unit_price total_price : float) : Res ItemRow :=
  let? order_id := Column.varchar_id 50 order_id in
  let? product_id := Column.varchar 100 product_id in
  let? product_name := Column.varchar 255 product_name in
  let? quantity := Column.integer quantity in
  let? unit_price := Column.numeric_10_2 unit_price in
  let? total_price := Column.numeric_10_2 total_price in
  Ok {| ir_order_id := order_id; ir_product_id := product_id;
        ir_product_name := product_name; ir_quantity := quantity;
        ir_unit_price := unit_price; ir_total_price := total_price |}.

(** [INSERT INTO orders ... VALUES ($1, $2, $3, $4, $5) RETURNING *] inside
    the open transaction; [id] is the primary key. *)
Definition INSERT_order (id customer_name customer_email : string) (total_amount : float)
    (status : string) : M OrderRow :=
  query (fun p =>
    match order_row id customer_name customer_email total_amount status with
    | Throw e => (Throw e, p)
    | Ok r =>
        let pending := match txn p with Some t => t | None => ([], []) end in
        if existsb (hasId (row_id r)) (orders p ++ fst pending)
        then (Throw "duplicate key value violates unique constraint", p)
        else match txn p with
             | Some (os, its) => (Ok r, set_txn (Some (os ++ [r], its)) p)
             | None => (Ok r, set_orders (orders p ++ [r]) p)
             end
    end).

(** [INSERT INTO order_items ... VALUES ($1, $2, $3, $4, $5, $6)];
    [order_id] is a foreign key into [orders]. *)
Definition INSERT_item (order_id product_id product_name : string)
    (quantity unit_price total_price : float) : M unit :=
  query (fun p =>
    match item_row order_id product_id product_name quantity unit_price total_price with
    | Throw e => (Throw e, p)
    | Ok i =>
        let pending := match txn p with Some t => t | None => ([], []) end in
        if negb (existsb (hasId (ir_order_id i)) (orders p ++ fst pending))
        then (Throw "insert on table order_items violates foreign key constraint", p)
        else match txn p with
             | Some (os, its) => (Ok tt, set_txn (Some (os, its ++ [i])) p)
             | None => (Ok tt, set_order_items (order_items p ++ [i]) p)
             end
    end).

Definition COMMIT : M unit :=
  query (fun p =>
    match txn p with
    | Some (os, its) =>
        (Ok tt, {| orders := orders p ++ os; order_items := order_items p ++ its;
                   txn := None; pg_faults := pg_faults p |})
    | None => (Ok tt, p)
    end).

Definition ROLLBACK : M unit := query (fun p => (Ok tt, set_txn None p)).

(** [json_build_object] on an item row of the join. *)
Definition json_build_object (i : ItemRow) : OrderItem :=
  {| oi_product_id := JStr (ir_product_id i);
     oi_product_name := JStr (ir_product_name i);
     oi_quantity := JNum (ir_quantity i);
     oi_unit_price := Column.json_numeric (ir_unit_price i);
     oi_total_price := Column.json_numeric (ir_total_price i) |}.

(** The same on the row that the LEFT JOIN makes for an order without
    items: every column of the item is NULL. *)
Definition nullItem : OrderItem :=
  {| oi_product_id := JNull; oi_product_name := JNull; oi_quantity := JNull;
     oi_unit_price := JNull; oi_total_price := JNull |}.

(** [json_agg] over the rows that the LEFT JOIN gives for one order, in
    the order of the item rows: an order without items still has one
    row. *)
Definition json_agg (its : list ItemRow) : list OrderItem :=
  match its with
  | [] => [nullItem]
  | _ => json_build_object <$> its
  end.

(** [mapDbRowToOrder] on the row of the SELECT, with its aggregated items
    (never [null], so [dbRow.items || []] is [dbRow.items]);
    [parseFloat(dbRow.total_amount)] is the number that the column reads
    back as. *)
Definition mapDbRowToOrder (r : OrderRow) (items : list OrderItem) : Order :=
  {| o_id := row_id r; o_customer_name := row_customer_name r;
     o_customer_email := row_customer_email r;
     o_items := items;
     o_total_amount := row_total_amount r; o_status := row_status r |}.

(** The item rows of an order. *)
Definition itemsOf (id : string) (p : PgState) : list ItemRow :=
  List.filter (fun i => String.eqb (ir_order_id i) id) (order_items p).

(** [SELECT ... LEFT JOIN ... WHERE o.id = $1 GROUP BY ...] through the
    pool: it sees the committed rows. *)
Definition SELECT_order (id : string) : M (option Order) :=
  query (fun p =>
    (Ok (match List.find (hasId id) (orders p) with
         | Some r => Some (mapDbRowToOrder r (json_agg (itemsOf id p)))
         | None => None
         end), p)).

(** [UPDATE orders SET status = $1 WHERE id = $2 RETURNING *]. The status
    is converted to VARCHAR(50) before any row is looked at; an
    [undefined] status is sent as NULL, which the NOT NULL column refuses
    when a row matches. Returns whether a row was updated. *)
Definition UPDATE_status (status : option string) (id : string) : M bool :=
  query (fun p =>
    match status with
    | None =>
        if existsb (hasId id) (orders p)
        then (Throw "null value in column status violates not-null constraint", p)
        else (Ok false, p)
    | Some status =>
        match Column.varchar 50 status with
        | Throw e => (Throw e, p)
        | Ok st =>
            if existsb (hasId id) (orders p) then
              (Ok true,
               set_orders ((fun r => if hasId id r
                                     then {| row_id := row_id r;
                                             row_customer_name := row_customer_name r;
                                             row_customer_email := row_customer_email r;
                                             row_total_amount := row_total_amount r;
                                             row_status := st |}
                                     else r) <$> orders p) p)
            else (Ok false, p)
        end
    end).

(** [DELETE FROM orders WHERE id = $1], with ON DELETE CASCADE on the
    items. Returns [rowCount]. *)
Definition DELETE_order (id : string) : M Z :=
  query (fun p =>
    (Ok (Z.of_nat (length (List.filter (hasId id) (orders p)))),
     {| orders := List.filter (fun r => negb (hasId id r)) (orders p);
        order_items :=
          if existsb (hasId id) (orders p)
          then List.filter (fun i => negb (String.eqb (ir_order_id i) id)) (order_items p)
          else order_items p;
        txn := txn p; pg_faults := pg_faults p |})).

Definition calculateTotalAmount (items : list CreateOrderItemRequest) : float :=
  fold_left (fun total item => (total + quantity item * unit_price item)%float) items 0%float.

Definition getOrderById (id : string) : M (option CacheVal) :=
  let! cacheKey := CacheService.generateOrderKey id in
  let! cachedOrder := CacheService.get cacheKey in
  match cachedOrder with
  | Some cached =>
      log ("Order " +:+ id +:+ " retrieved from cache") ;;;
      ret (Some cached)
  | None =>
      log ("Order " +:+ id +:+ " retrieved from database") ;;;
      let! result := SELECT_order id in
      match result with
      | None => ret None
      | Some order =>
          CacheService.set cacheKey (COrder order) CACHE_TTL_ORDER_DETAILS ;;;
          ret (Some (COrder order))
      end
  end.

Fixpoint insertItems (orderId : string) (items : list CreateOrderItemRequest) : M unit :=
  match items with
  | [] => ret tt
  | item :: rest =>
      let totalPrice := (quantity item * unit_price item)%float in
      INSERT_item orderId (product_id item) (product_name item)
                  (quantity item) (unit_price item) totalPrice ;;;
      insertItems orderId rest
  end.

(** [createOrder]; [newId] is the result of [generateId()]. The handler
    passes [event.data], of type [any]: a payload without [items] makes
    [calculateTotalAmount] throw a TypeError inside the [try]. *)
Definition createOrder (orderData : Payload) (newId : string) : M CacheVal :=
  connect ;;;
  try_catch
    (BEGIN ;;;
     let orderId := newId in
     match orderData with
     | PCreate req =>
         let totalAmount := calculateTotalAmount (items req) in
         let! order := INSERT_order orderId (customer_name req) (customer_email req)
                                    totalAmount "pending" in
         insertItems orderId (items req) ;;;
         COMMIT ;;;
         let! createdOrder := getOrderById orderId in
         match createdOrder with
         | None => throw "Failed to create order"
         | Some created =>
             log "Invalidating cache after creating new order..." ;;;
             CacheService.invalidateOrderCache (Some orderId) ;;;
             log "Cache invalidation completed" ;;;
             ret created
         end
     | _ => throw "TypeError: Cannot read properties of undefined (reading 'reduce')"
     end)
    (fun error => ROLLBACK ;;; throw error).

Definition updateOrderStatus (id : string) (status : option string) : M (option CacheVal) :=
  let! updated := UPDATE_status status id in
  if updated then
    log ("Invalidating cache after updating order " +:+ id +:+ "...") ;;;
    CacheService.invalidateOrderCache (Some id) ;;;
    log "Cache invalidation completed" ;;;
    getOrderById id
  else ret None.

Definition deleteOrder (id : string) : M bool :=
  let! rowCount := DELETE_order id in
  if 0 <? rowCount then
    log ("Invalidating cache after deleting order " +:+ id +:+ "...") ;;;
    CacheService.invalidateOrderCache (Some id) ;;;
    log "Cache invalidation completed" ;;;
    ret true
  else ret false.

End OrderService.

(** ** [OrderHandlerService] *)

Module OrderHandlerService.

Definition processingIntervalMs : Z := 1000.

(** What the processing of one message reads from its environment: the
    clock when [returnMessage] sets its timer, and the result of
    [generateId()] in [createOrder]. *)
Record Env := {
  now : Z;
  newId : string
}.

Definition start : M unit :=
  let! running := gets isRunning in
  if running then log "OrderHandler is already running"
  else modify (with_isRunning true) ;;;
       log "Starting OrderHandler service...".

Definition stop : M unit :=
  let! running := gets isRunning in
  if negb running then log "OrderHandler is not running"
  else modify (with_isRunning false) ;;;
       log "OrderHandler service stopped".

(** [event.data.customer_name] inside a template literal. *)
Definition customer_name_of (d : Payload) : string :=
  match d with
  | PCreate req => customer_name req
  | _ => "undefined"
  end.

(** [event.data.status] *)
Definition status_of (d : Payload) : option string :=
  match d with
  | PStatus st => Some st
  | _ => None
  end.

Definition id_of (v : CacheVal) : string :=
  match v with
  | COrder o => o_id o
  | CList _ => "undefined"
  end.

Definition handleCreateOrder (event : OrderEvent) (env : Env) : M unit :=
  match data event with
  | None => throw "CREATE event missing order data"
  | Some d =>
      log ("Creating order for customer: " +:+ customer_name_of d) ;;;
      let! createdOrder := OrderService.createOrder d (newId env) in
      log ("Order created successfully: " +:+ id_of createdOrder) ;;;
      CacheService.invalidateOrderCache None
  end.

Definition handleUpdateOrder (event : OrderEvent) : M unit :=
  match CacheService.truthy (orderId event) with
  | None => throw "UPDATE event missing orderId"
  | Some id =>
      match data event with
      | None => throw "UPDATE event missing update data"
      | Some d =>
          log ("Updating order: " +:+ id) ;;;
          let! success := OrderService.updateOrderStatus id (status_of d) in
          match success with
          | None => throw ("Failed to update order " +:+ id)
          | Some _ =>
              log ("Order updated successfully: " +:+ id) ;;;
              CacheService.invalidateOrderCache (Some id)
          end
      end
  end.

Definition handleDeleteOrder (event : OrderEvent) : M unit :=
  match CacheService.truthy (orderId event) with
  | None => throw "DELETE event missing orderId"
  | Some id =>
      log ("Deleting order: " +:+ id) ;;;
      let! success := OrderService.deleteOrder id in
      if success then
        log ("Order deleted successfully: " +:+ id) ;;;
        CacheService.invalidateOrderCache None
      else throw ("Failed to delete order " +:+ id)
  end.

(** The [switch] of [processMessage]. *)
Definition dispatch (event : OrderEvent) (env : Env) : M unit :=
  if String.eqb (ev_type event) "CREATE" then handleCreateOrder event env
  else if String.eqb (ev_type event) "UPDATE" then handleUpdateOrder event
  else if String.eqb (ev_type event) "DELETE" then handleDeleteOrder event
  else log ("Unknown event type: " +:+ ev_type event).

Definition processMessage (message : OrderEventMessage) (env : Env) : M unit :=
  let event := Body message in
  let receiptHandle := ReceiptHandle message in
  try_catch
    (log ("Processing event: " +:+ ev_type event +:+ " (ID: " +:+ ev_id event +:+ ")") ;;;
     dispatch event env ;;;
     OrderSQSService.deleteMessage receiptHandle ;;;
     log ("Successfully processed event: " +:+ ev_type event
          +:+ " (ID: " +:+ ev_id event +:+ ")"))
    (fun error =>
       log ("Error processing event " +:+ ev_type event +:+ " (ID: " +:+ ev_id event
            +:+ "): " +:+ error) ;;;
       OrderSQSService.returnMessage receiptHandle (now env)).

(** The [for ... of] loop of [processMessages]; the n-th message is
    processed in the n-th environment. *)
Fixpoint forEachMessage (messages : list OrderEventMessage) (envs : list Env) : M unit :=
  match messages with
  | [] => ret tt
  | message :: rest =>
      processMessage message (hd {| now := 0; newId := "" |} envs) ;;;
      forEachMessage rest (tl envs)
  end.

(** One tick of the consumer. *)
Definition processMessages (envs : list Env) : M unit :=
  try_catch
    (let! messages := OrderSQSService.receiveMessage 5 in
     if (length messages =? 0)%nat then ret tt
     else
       log ("Processing " +:+ string_of_Z (Z.of_nat (length messages)) +:+ " messages...") ;;;
       forEachMessage messages envs)
    (fun error => log ("Error processing messages: " +:+ error)).

Record Status := {
  st_isRunning : bool;
  st_processingIntervalMs : Z
}.

Definition getStatus : M Status :=
  let! running := gets isRunning in
  ret {| st_isRunning := running; st_processingIntervalMs := processingIntervalMs |}.

Definition getQueueStats : M (Status * OrderSQSService.QueueAttributes) :=
  let! queueAttributes := OrderSQSService.getQueueAttributes in
  let! status := getStatus in
  ret (status, queueAttributes).

End OrderHandlerService.

(** ** The order routes *)

Module OrderRoutes.

(** What a route hands to [reply.send]: the answer of the routes that
    enqueue an event, an order, or an error. [BadRequest] is the answer
    400 that Fastify gives by itself, without running the handler, to a
    request whose body does not pass the schema of the route. *)
Inductive Reply :=
  | Queued (statusCode : Z) (message messageId orderId : string)
  | Found (order : CacheVal)
  | Error (statusCode : Z) (error : string)
  | BadRequest.

(** [type: 'integer'] and [type: 'number'] of the validator: a finite
    number, without a fractional part for an integer. *)
Definition isNumber (x : float) : bool := negb (is_nan x || is_infinity x).
Definition isInteger (x : float) : bool :=
  match Column.integerValue x with
  | Some _ => true
  | None => false
  end.

(** The schema of an item of the body of POST /orders: [quantity] an
    integer, at least 1; [unit_price] a number, at least 0. *)
Definition itemSchema (item : CreateOrderItemRequest) : bool :=
  isInteger (quantity item) && (1 <=? quantity item)%float
  && isNumber (unit_price item) && (0 <=? unit_price item)%float.

(** The body schema of POST /orders, on a body that has its required
    fields with their types: [customer_name] of length 1 at least,
    [customer_email] of the format [email], one item at least.
    [emailFormat] is the test that the validator's format library makes,
    which is not part of the repository. *)
Definition createSchema (emailFormat : string -> bool) (body : CreateOrderRequest) : bool :=
  (1 <=? String.length (customer_name body))%nat
  && emailFormat (customer_email body)
  && (1 <=? length (items body))%nat
  && forallb itemSchema (items body).

(** The handler of POST /orders. [idNow] and [idRnd] are the clock reading
    and the random string behind the order id, [dedupNow] the clock
    reading in the deduplication id, [e] what [sendMessage] reads. *)
Definition postOrderHandler (orderData : CreateOrderRequest) (idNow : Z) (idRnd : string)
    (dedupNow : Z) (e : OrderSQSService.Entropy) : M Reply :=
  try_catch
    (let orderId := "order_" +:+ string_of_Z idNow +:+ "_" +:+ idRnd in
     let! result := OrderSQSService.sendMessage
       {| ne_type := "CREATE"; ne_orderId := Some orderId;
          ne_data := Some (PCreate orderData); ne_groupId := "orders";
          ne_deduplicationId := "create_" +:+ orderId +:+ "_" +:+ string_of_Z dedupNow |} e in
     ret (Queued 201 "Order creation event queued successfully"
                 (OrderSQSService.sr_MessageId result) orderId))
    (fun error =>
       log ("Error queuing order creation: " +:+ error) ;;;
       ret (Error 500 "Failed to queue order creation")).

(** POST /orders *)
Definition postOrder (emailFormat : string -> bool) (body : CreateOrderRequest)
    (idNow : Z) (idRnd : string) (dedupNow : Z) (e : OrderSQSService.Entropy) : M Reply :=
  if createSchema emailFormat body then postOrderHandler body idNow idRnd dedupNow e
  else ret BadRequest.

(** The body schema of PUT /orders/:id/status: [status] is one of the
    four strings of the [enum]. *)
Definition statusEnum : list string := ["PENDING"; "PROCESSING"; "COMPLETED"; "CANCELLED"].

Definition statusSchema (status : string) : bool :=
  existsb (String.eqb status) statusEnum.

(** The handler of PUT /orders/:id/status. *)
Definition putOrderStatusHandler (id status : string) (dedupNow : Z)
    (e : OrderSQSService.Entropy) : M Reply :=
  try_catch
    (let! result := OrderSQSService.sendMessage
       {| ne_type := "UPDATE"; ne_orderId := Some id;
          ne_data := Some (PStatus status); ne_groupId := "orders";
          ne_deduplicationId :=
            "update_" +:+ id +:+ "_" +:+ status +:+ "_" +:+ string_of_Z dedupNow |} e in
     ret (Queued 200 "Order status update event queued successfully"
                 (OrderSQSService.sr_MessageId result) id))
    (fun error =>
       log ("Error queuing order status update: " +:+ error) ;;;
       ret (Error 500 "Failed to queue order status update")).

(** PUT /orders/:id/status *)
Definition putOrderStatus (id status : string) (dedupNow : Z)
    (e : OrderSQSService.Entropy) : M Reply :=
  if statusSchema status then putOrderStatusHandler id status dedupNow e
  else ret BadRequest.

(** DELETE /orders/:id; the route has no body schema. *)
Definition deleteOrder (id : string) (dedupNow : Z) (e : OrderSQSService.Entropy) : M Reply :=
  try_catch
    (let! result := OrderSQSService.sendMessage
       {| ne_type := "DELETE"; ne_orderId := Some id;
          ne_data := Some PEmpty; ne_groupId := "orders";
          ne_deduplicationId := "delete_" +:+ id +:+ "_" +:+ string_of_Z dedupNow |} e in
     ret (Queued 200 "Order deletion event queued successfully"
                 (OrderSQSService.sr_MessageId result) id))
    (fun error =>
       log ("Error queuing order deletion: " +:+ error) ;;;
       ret (Error 500 "Failed to queue order deletion")).

(** GET /orders/:id. The [Reply] is the order handed to [reply.send],
    before Fastify writes it out. *)
Definition getOrder (id : string) : M Reply :=
  try_catch
    (let! cacheKey := CacheService.generateOrderKey id in
     let! order := CacheService.get cacheKey in
     match order with
     | Some cached =>
         log ("Cache hit for order: " +:+ id) ;;;
         ret (Found cached)
     | None =>
         log ("Cache miss for order: " +:+ id +:+ " fetching from database") ;;;
         let! order := OrderService.getOrderById id in
         match order with
         | None => ret (Error 404 "Order not found")
         | Some stored =>
             CacheService.set cacheKey stored 600 ;;;
             ret (Found stored)
         end
     end)
    (fun error =>
       log ("Error getting order: " +:+ error) ;;;
       ret (Error 500 "Failed to get order")).

End OrderRoutes.

(** The state of the process when it starts. *)
Definition init : World :=
  {| sqs := {| queue := []; processingQueue := []; processedMessages := ∅;
               deduplicationCache := ∅; timers := [] |};
     redis := {| rkeys := []; redis_faults := [] |};
     pg := {| orders := []; order_items := []; txn := None; pg_faults := [] |};
     isRunning := false;
     console := [] |}.

(** ** Sequences of queue operations *)

(** The operations of the queue as its callers and the event loop invoke
    them. *)
Inductive Op :=
  | OpSend (event : NewEvent) (e : OrderSQSService.Entropy)
  | OpReceive (maxNumberOfMessages : Z)
  | OpDelete (receiptHandle : string)
  | OpReturn (receiptHandle : string) (now : Z)
  | OpTimers (now : Z)
  | OpCleanup (now : Z)
  | OpPurge.

(** One operation: the world after it and the messages it leased (none
    unless it is a successful [receiveMessage]). A call that throws leaves
    the world as the throwing method left it. *)
Definition step (op : Op) (w : World) : World * list OrderEventMessage :=
  match op with
  | OpSend event e => (snd (OrderSQSService.sendMessage event e w), [])
  | OpReceive n =>
      match OrderSQSService.receiveMessage n w with
      | (Ok batch, w') => (w', batch)
      | (Throw _, w') => (w', [])
      end
  | OpDelete h => (snd (OrderSQSService.deleteMessage h w), [])
  | OpReturn h now => (snd (OrderSQSService.returnMessage h now w), [])
  | OpTimers now => (snd (OrderSQSService.runTimers now w), [])
  | OpCleanup now => (snd (OrderSQSService.cleanup now w), [])
  | OpPurge => (snd (OrderSQSService.purgeQueue w), [])
  end.

(** A sequence of operations, with the log of every message leased so
    far, in lease order. *)
Fixpoint run (ops : list Op) (w : World) (leased : list OrderEventMessage)
  : World * list OrderEventMessage :=
  match ops with
  | [] => (w, leased)
  | op :: rest =>
      let (w', batch) := step op w in
      run rest w' (leased ++ batch)
  end.

(** ** Vocabulary of the properties *)

Import OrderSQSService.

(** No message that is being processed bears the handle. *)
Definition unknownHandle (h : string) (w : World) : Prop :=
  Forall (fun m => ReceiptHandle m <> h) (processingQueue (sqs w)).

(** The world after the message [m], found at index [i] of the processing
    queue, has been acknowledged. *)
Definition acknowledged (i : nat) (m : OrderEventMessage) (w : World) : World :=
  {| sqs := {| queue := queue (sqs w);
               processingQueue := delete i (processingQueue (sqs w));
               processedMessages := {[MessageId m]} ∪ processedMessages (sqs w);
               deduplicationCache := deduplicationCache (sqs w);
               timers := timers (sqs w) |};
     redis := redis w; pg := pg w; isRunning := isRunning w;
     console := console w ++ ["Message deleted from SQS: " +:+ MessageId m] |}.

(** The world after the message [m], found at index [i] of the processing
    queue, has been returned at time [now]. *)
Definition rescheduled (i : nat) (m : OrderEventMessage) (now : Z) (w : World) : World :=
  {| sqs := {| queue := queue (sqs w);
               processingQueue := delete i (processingQueue (sqs w));
               processedMessages := processedMessages (sqs w);
               deduplicationCache := deduplicationCache (sqs w);
               timers := timers (sqs w) ++ [(now + 1000, m, 1)] |};
     redis := redis w; pg := pg w; isRunning := isRunning w;
     console := console w |}.

(** The messages that a list of timers pushes. *)
Definition timerMessages (ts : list (Z * OrderEventMessage * Z)) : list OrderEventMessage :=
  (fun t => snd (fst t)) <$> ts.

(** ** Concrete inputs *)

(** An UPDATE for an order that does not exist. *)
Definition updateMissing : NewEvent :=
  {| ne_type := "UPDATE"; ne_orderId := Some "missing";
     ne_data := Some (PStatus "completed"); ne_groupId := "orders";
     ne_deduplicationId := "update_missing_completed_1" |}.

Definition entropy1 : Entropy :=
  {| id_now := 1; id_rnd := "a"; date_now := 1; rh_now := 1; rh_rnd := "b" |}.

Definition message1 : OrderEventMessage := mkMessage updateMissing entropy1.

Definition handle1 : string := "receipt_1_b".

(** Enqueue, then lease and return three times, each retry timer running
    before the next lease; then lease and return once more. *)
Definition fourFailures : list Op :=
  [ OpSend updateMissing entropy1;
    OpReceive 1; OpReturn handle1 10; OpTimers 1010;
    OpReceive 1; OpReturn handle1 1020; OpTimers 2020;
    OpReceive 1; OpReturn handle1 2030; OpTimers 3030;
    OpReceive 1; OpReturn handle1 3040 ].

(** Enqueue, lease, acknowledge. *)
Definition leasedAndAcknowledged : list Op :=
  [ OpSend updateMissing entropy1; OpReceive 1; OpDelete handle1 ].

(** Enqueue, lease, return at time 10. *)
Definition leasedAndReturned : list Op :=
  [ OpSend updateMissing entropy1; OpReceive 1; OpReturn handle1 10 ].

(** The happy path: a CREATE for customer Ada with one item, quantity 2 at
    unit price 10.00, as the POST route builds it. *)
Definition createAda : NewEvent :=
  {| ne_type := "CREATE"; ne_orderId := Some "order_1000_k3x9";
     ne_data := Some (PCreate
       {| customer_name := "Ada"; customer_email := "ada@example.com";
          items := [ {| product_id := "p1"; product_name := "Widget";
                        quantity := 2; unit_price := 10 |} ] |});
     ne_groupId := "orders";
     ne_deduplicationId := "create_order_1000_k3x9_1000" |}.

Definition entropyAda : Entropy :=
  {| id_now := 1000; id_rnd := "q7w8e9r0t"; date_now := 1000;
     rh_now := 1000; rh_rnd := "z1x2c3v4b" |}.

Definition envAda : OrderHandlerService.Env :=
  {| OrderHandlerService.now := 2000; OrderHandlerService.newId := "lx1abc9k2" |}.

(** Enqueue, one tick of the consumer, then read the attributes. *)
Definition happyPath : M QueueAttributes :=
  sendMessage createAda entropyAda ;;;
  OrderHandlerService.processMessages [envAda] ;;;
  getQueueAttributes.

(** Enqueue, lease, return; the retry timer runs; lease again. *)
Definition leaseAfterRetry : list Op :=
  [ OpSend updateMissing entropy1; OpReceive 5; OpReturn handle1 10;
    OpTimers 1010; OpReceive 5 ].

(** ** Vocabulary of the consumer properties *)

(** The world with more lines on the console. *)
Definition logged (lines : list string) (w : World) : World :=
  {| sqs := sqs w; redis := redis w; pg := pg w;
     isRunning := isRunning w; console := console w ++ lines |}.

(** The computation [c] leaves the component [f] of the world as it is,
    whether it returns or throws. *)
Definition keeps {A B} (f : World -> B) (c : M A) : Prop :=
  forall w, f (snd (c w)) = f w.

(** The first line that [processMessage] logs. *)
Definition processingLine (m : OrderEventMessage) : string :=
  "Processing event: " +:+ ev_type (Body m) +:+ " (ID: " +:+ ev_id (Body m) +:+ ")".

(** [StoreSucceeded event env wa scope wb]: started in the world [wa], the
    handler of [event] passed its validation and its call of the order
    service returned a truthy result; [wb] is the world in which the
    handler then calls [invalidateOrderCache scope]. *)
Inductive StoreSucceeded (event : OrderEvent) (env : OrderHandlerService.Env) (wa : World)
  : option string -> World -> Prop :=
  | CreateSucceeded d created wb :
      ev_type event = "CREATE" ->
      data event = Some d ->
      OrderService.createOrder d (OrderHandlerService.newId env)
        (logged ["Creating order for customer: "
                 +:+ OrderHandlerService.customer_name_of d] wa) = (Ok created, wb) ->
      StoreSucceeded event env wa None
        (logged ["Order created successfully: " +:+ OrderHandlerService.id_of created] wb)
  | UpdateSucceeded id d updated wb :
      ev_type event = "UPDATE" ->
      CacheService.truthy (orderId event) = Some id ->
      data event = Some d ->
      OrderService.updateOrderStatus id (OrderHandlerService.status_of d)
        (logged ["Updating order: " +:+ id] wa) = (Ok (Some updated), wb) ->
      StoreSucceeded event env wa (Some id)
        (logged ["Order updated successfully: " +:+ id] wb)
  | DeleteSucceeded id wb :
      ev_type event = "DELETE" ->
      CacheService.truthy (orderId event) = Some id ->
      OrderService.deleteOrder id (logged ["Deleting order: " +:+ id] wa) = (Ok true, wb) ->
      StoreSucceeded event env wa None
        (logged ["Order deleted successfully: " +:+ id] wb).

(** A CREATE that the consumer has leased, with Redis rejecting every command. *)
Definition redisDown : World :=
  let w := fst (run [OpSend createAda entropyAda; OpReceive 5] init []) in
  with_redis (CacheService.set_redis_faults (replicate 8 true)) w.

Definition messageAda : OrderEventMessage := mkMessage createAda entropyAda.

(** A leased message whose type is none of the three. *)
Definition archiveEvent : NewEvent :=
  {| ne_type := "ARCHIVE"; ne_orderId := Some "o1"; ne_data := None;
     ne_groupId := "orders"; ne_deduplicationId := "archive_o1_1" |}.

Definition messageArchive : OrderEventMessage := mkMessage archiveEvent entropy1.

Definition archiveLeased : World :=
  fst (run [OpSend archiveEvent entropy1; OpReceive 5] init []).

Definition payloadAda : Payload :=
  PCreate {| customer_name := "Ada"; customer_email := "ada@example.com";
             items := [ {| product_id := "p1"; product_name := "Widget";
                           quantity := 2; unit_price := 10 |} ] |}.

Definition createdAda : CacheVal :=
  COrder {| o_id := "lx1abc9k2"; o_customer_name := "Ada";
            o_customer_email := "ada@example.com";
            o_items := [ {| oi_product_id := JStr "p1"; oi_product_name := JStr "Widget";
                            oi_quantity := JNum 2; oi_unit_price := JNum 10;
                            oi_total_price := JNum 20 |} ];
            o_total_amount := 20; o_status := "pending" |}.

(** The world after the store call of the handler, with Redis down. *)
Definition storeDoneAda : World :=
  snd (OrderService.createOrder payloadAda "lx1abc9k2"
         (logged ["Creating order for customer: Ada"]
            (logged [processingLine messageAda] redisDown))).

Definition beforeInvalidationAda : World :=
  logged ["Order created successfully: lx1abc9k2"] storeDoneAda.

Definition afterInvalidationAda : World :=
  snd (CacheService.invalidateOrderCache_try None beforeInvalidationAda).

(** ** Vocabulary of the queue properties *)

(** A sequence of enqueues, with the result of each. *)
Fixpoint sendAll (l : list (NewEvent * Entropy)) : M (list SendResult) :=
  match l with
  | [] => ret []
  | (event, e) :: rest =>
      let! r := sendMessage event e in
      let! rs := sendAll rest in
      ret (r :: rs)
  end.

(** The result of an enqueue that reads [e]: the shape is the same whether
    the enqueue is suppressed or not. *)
Definition resultOf (e : Entropy) : SendResult :=
  {| sr_MessageId := generateMessageId (id_now e) (id_rnd e) |}.

(** An enqueue with the token [tok], made within the window of the
    recording [t]. *)
Definition withinWindow (tok : string) (t : Z) (x : NewEvent * Entropy) : Prop :=
  ne_deduplicationId (fst x) = tok /\
  date_now (snd x) - t < deduplicationWindowMs.

Definition entropy2 : Entropy :=
  {| id_now := 2; id_rnd := "c"; date_now := 2; rh_now := 2; rh_rnd := "d" |}.

Definition entropy3 : Entropy :=
  {| id_now := 299999; id_rnd := "e"; date_now := 300000; rh_now := 300000; rh_rnd := "f" |}.


(** The messages of a lease: the result of [receiveMessage]. *)
Definition leaseBatch (n : Z) (s : SqsState) : list OrderEventMessage :=
  slice0 n (List.filter (available s) (queue s)).

(** The message is held by the queue service: in [queue], in the
    processing queue, or in a pending retry timer. *)
Definition held (m : OrderEventMessage) (w : World) : Prop :=
  In m (queue (sqs w)) \/ In m (processingQueue (sqs w)) \/
  In m (timerMessages (timers (sqs w))).

(** The message ids of the enqueues identify their messages: two enqueues
    that generate the same id build the same message. *)
Definition idsIdentify (ops : list Op) : Prop :=
  forall event e event' e',
    In (OpSend event e) ops -> In (OpSend event' e') ops ->
    MessageId (mkMessage event e) = MessageId (mkMessage event' e') ->
    mkMessage event e = mkMessage event' e'.



(** Every message that is being processed and every processed id appears
    in the log of leased messages. *)
Definition leaseLogged (w : World) (leased : list OrderEventMessage) : Prop :=
  (forall m, In m (processingQueue (sqs w)) -> In (MessageId m) (MessageId <$> leased)) /\
  (forall x, x ∈ processedMessages (sqs w) -> In x (MessageId <$> leased)).

(** Two enqueues in one group, then one lease. *)
Definition deleteO1 : NewEvent :=
  {| ne_type := "DELETE"; ne_orderId := Some "o1"; ne_data := Some PEmpty;
     ne_groupId := "orders"; ne_deduplicationId := "delete_o1_2" |}.

Definition message2 : OrderEventMessage := mkMessage deleteO1 entropy2.

Definition twoSends : list Op :=
  [ OpSend updateMissing entropy1; OpSend deleteO1 entropy2 ].

(** ** Vocabulary of the further queue properties *)

(** The available messages of [queue], in queue order. *)
Definition availableMessages (s : SqsState) : list OrderEventMessage :=
  List.filter (available s) (queue s).

(** An operation other than [purgeQueue]. *)
Definition notPurge (op : Op) : Prop :=
  match op with
  | OpPurge => False
  | _ => True
  end.

(** The message bears the handle. *)
Definition bears (h : string) (m : OrderEventMessage) : Prop := ReceiptHandle m = h.

(** A state with one recorded token, and a state with one leased message. *)
Definition oneRecorded : World := fst (run [OpSend updateMissing entropy1] init []).

Definition oneLeased : World :=
  fst (run [OpSend updateMissing entropy1; OpReceive 5] init []).

Definition oneAcknowledged : World :=
  fst (run [OpSend updateMissing entropy1; OpReceive 5; OpDelete handle1] init []).

Definition entropyLate : Entropy :=
  {| id_now := 300001; id_rnd := "g"; date_now := 300001; rh_now := 300001; rh_rnd := "h" |}.

(** ** Vocabulary of the consumer and service properties *)

(** The event does not pass the validation of its handler: a CREATE
    without data, an UPDATE without order id or without data, a DELETE
    without order id. A missing and an empty order id are both falsy. *)
Inductive FailsValidation (event : OrderEvent) : Prop :=
  | CreateWithoutData :
      ev_type event = "CREATE" -> data event = None -> FailsValidation event
  | UpdateWithoutOrderId :
      ev_type event = "UPDATE" -> CacheService.truthy (orderId event) = None ->
      FailsValidation event
  | UpdateWithoutData :
      ev_type event = "UPDATE" -> data event = None -> FailsValidation event
  | DeleteWithoutOrderId :
      ev_type event = "DELETE" -> CacheService.truthy (orderId event) = None ->
      FailsValidation event.

(** An UPDATE or a DELETE that passes validation and names the order [id]. *)
Definition targetsOrder (event : OrderEvent) (id : string) : Prop :=
  CacheService.truthy (orderId event) = Some id /\
  ((ev_type event = "UPDATE" /\ exists d, data event = Some d) \/
   ev_type event = "DELETE").

(** No row of the orders table has the id. *)
Definition orderMissing (id : string) (w : World) : Prop :=
  existsb (OrderService.hasId id) (orders (pg w)) = false.

(** PostgreSQL and Redis answer every further command. *)
Definition pgHealthy (w : World) : Prop := pg_faults (pg w) = [].
Definition redisHealthy (w : World) : Prop := redis_faults (redis w) = [].

(** The line that [processMessage] logs when it catches [error]. *)
Definition errorLine (m : OrderEventMessage) (error : string) : string :=
  "Error processing event " +:+ ev_type (Body m) +:+ " (ID: " +:+ ev_id (Body m)
  +:+ "): " +:+ error.

(** A leased CREATE without data. *)
Definition createNoData : NewEvent :=
  {| ne_type := "CREATE"; ne_orderId := None; ne_data := None;
     ne_groupId := "orders"; ne_deduplicationId := "create_x_1" |}.

Definition messageNoData : OrderEventMessage := mkMessage createNoData entropy1.

Definition noDataLeased : World :=
  fst (run [OpSend createNoData entropy1; OpReceive 5] init []).

Definition envRetry : OrderHandlerService.Env :=
  {| OrderHandlerService.now := 1000; OrderHandlerService.newId := "lx2" |}.

(** The keys that [invalidateOrderCache] collects for deletion from a
    Redis with the contents [r]. *)
Definition invalidationKeys (orderId : option string) (r : RedisState) : list string :=
  match CacheService.truthy orderId with
  | Some id =>
      (if existsb (CacheService.hasKey ("order:" +:+ id)) (rkeys r)
       then ["order:" +:+ id] else [])
      ++ List.filter (String.prefix "orders:list:") (fst <$> rkeys r)
  | None =>
      List.filter (String.prefix "order:") (fst <$> rkeys r)
      ++ List.filter (String.prefix "orders:list:") (fst <$> rkeys r)
  end.

(** The value that Redis holds under the key. *)
Definition cached (key : string) (w : World) : option CacheVal :=
  snd <$> List.find (CacheService.hasKey key) (rkeys (redis w)).

(** A Redis with two cached orders and one cached list, and a Redis that
    rejects its next command. *)
Definition orderA : Order :=
  {| o_id := "a"; o_customer_name := "Ada"; o_customer_email := "ada@example.com";
     o_items := []; o_total_amount := 20; o_status := "pending" |}.

Definition cachedWorld : World :=
  with_redis (CacheService.set_rkeys
                [("order:a", COrder orderA); ("order:b", COrder orderA);
                 ("orders:list:all", CList [orderA]); ("session:1", CList [])]) init.

Definition redisRejecting : World :=
  with_redis (CacheService.set_redis_faults [true]) cachedWorld.

(** The row and the item rows that [createOrder] sends for insertion, as
    the columns hold them, or the error of the first value that does not
    fit its column. *)
Definition orderRow (id : string) (req : CreateOrderRequest) : Res OrderRow :=
  OrderService.order_row id (customer_name req) (customer_email req)
    (OrderService.calculateTotalAmount (items req)) "pending".

Definition itemRow (id : string) (item : CreateOrderItemRequest) : Res ItemRow :=
  OrderService.item_row id (product_id item) (product_name item)
    (quantity item) (unit_price item) (quantity item * unit_price item)%float.

Fixpoint itemRows (id : string) (items : list CreateOrderItemRequest) : Res (list ItemRow) :=
  match items with
  | [] => Ok []
  | item :: rest =>
      let? row := itemRow id item in
      let? rows := itemRows id rest in
      Ok (row :: rows)
  end.

(** The row with its status replaced, as the UPDATE statement writes it. *)
Definition withStatus (st : string) (r : OrderRow) : OrderRow :=
  {| row_id := row_id r; row_customer_name := row_customer_name r;
     row_customer_email := row_customer_email r;
     row_total_amount := row_total_amount r; row_status := st |}.

Definition requestAda : CreateOrderRequest :=
  {| customer_name := "Ada"; customer_email := "ada@example.com";
     items := [ {| product_id := "p1"; product_name := "Widget";
                   quantity := 2; unit_price := 10 |} ] |}.

(** Three items at a tenth each: the sum of the three products is not
    three tenths. *)
Definition requestCents : CreateOrderRequest :=
  {| customer_name := "Cy"; customer_email := "cy@example.com";
     items := replicate 3 {| product_id := "p2"; product_name := "Washer";
                             quantity := 1; unit_price := 1 / 10 |} |}.

(** A database that holds the order of Ada, with healthy services. *)
Definition adaStored : World :=
  snd (OrderService.createOrder (PCreate requestAda) "lx1abc9k2" init).

(** The row of the order of Ada. *)
Definition rowAda : OrderRow :=
  {| row_id := "lx1abc9k2"; row_customer_name := "Ada";
     row_customer_email := "ada@example.com";
     row_total_amount := 20; row_status := "pending" |}.

(** An order without items next to the order of Ada: its row, and the
    database that holds both. *)
Definition bareRow : OrderRow :=
  {| row_id := "bare"; row_customer_name := "Bob";
     row_customer_email := "bob@example.com";
     row_total_amount := 0; row_status := "pending" |}.

Definition bareStored : World :=
  with_pg (fun p => OrderService.set_orders (orders p ++ [bareRow]) p) adaStored.

(** What applying an event to the tables should give, when the event can
    be applied: a CREATE with a request whose values fit their columns and
    an unused new id appends the order and its items; an UPDATE with a
    status that fits its column, for an existing order, rewrites the
    status; a DELETE of an existing order removes it and its items. [None]
    when the event cannot be applied. *)
Definition applied (event : OrderEvent) (newId : string) (p : PgState)
  : option (list OrderRow * list ItemRow) :=
  if String.eqb (ev_type event) "CREATE" then
    match data event with
    | Some (PCreate req) =>
        match orderRow newId req, itemRows newId (items req) with
        | Ok row, Ok rows =>
            if existsb (OrderService.hasId newId) (orders p) then None
            else Some (orders p ++ [row], order_items p ++ rows)
        | _, _ => None
        end
    | _ => None
    end
  else if String.eqb (ev_type event) "UPDATE" then
    match CacheService.truthy (orderId event), data event with
    | Some id, Some (PStatus status) =>
        match Column.varchar 50 status with
        | Ok st =>
            if existsb (OrderService.hasId id) (orders p)
            then Some ((fun r => if OrderService.hasId id r then withStatus st r else r)
                         <$> orders p, order_items p)
            else None
        | Throw _ => None
        end
    | _, _ => None
    end
  else if String.eqb (ev_type event) "DELETE" then
    match CacheService.truthy (orderId event) with
    | Some id =>
        if existsb (OrderService.hasId id) (orders p)
        then Some (List.filter (fun r => negb (OrderService.hasId id r)) (orders p),
                   List.filter (fun i => negb (String.eqb (ir_order_id i) id))
                               (order_items p))
        else None
    | None => None
    end
  else None.

(** The event is of one of the three types that the consumer handles. *)
Definition handled (event : OrderEvent) : Prop :=
  ev_type event = "CREATE" \/ ev_type event = "UPDATE" \/ ev_type event = "DELETE".

(** A CREATE of the three items at a tenth each, leased, next to the
    stored order of Ada. *)
Definition createCents : NewEvent :=
  {| ne_type := "CREATE"; ne_orderId := Some "order_3_c";
     ne_data := Some (PCreate requestCents); ne_groupId := "orders";
     ne_deduplicationId := "create_order_3_c_3" |}.

Definition messageCents : OrderEventMessage := mkMessage createCents entropy1.

Definition centsLeased : World :=
  fst (run [OpSend createCents entropy1; OpReceive 5] adaStored []).

(** ** Vocabulary of the route properties *)

(** A body of POST /orders without items. *)
Definition requestNoItems : CreateOrderRequest :=
  {| customer_name := "Ada"; customer_email := "ada@example.com"; items := [] |}.

(** The deduplication id that PUT /orders/:id/status builds. *)
Definition updateToken (id status : string) (now : Z) : string :=
  "update_" +:+ id +:+ "_" +:+ status +:+ "_" +:+ string_of_Z now.

(** The event that PUT /orders/:id/status enqueues. *)
Definition updateEvent (id status : string) (now : Z) : NewEvent :=
  {| ne_type := "UPDATE"; ne_orderId := Some id;
     ne_data := Some (PStatus status); ne_groupId := "orders";
     ne_deduplicationId := updateToken id status now |}.

(** The order that the database holds under the id, with its items, as
    [getOrderById] reads it: an order without item rows is read with one
    item whose fields are all null. *)
Definition storedOrder (id : string) (p : PgState) : option CacheVal :=
  match List.find (OrderService.hasId id) (orders p) with
  | Some r =>
      Some (COrder (OrderService.mapDbRowToOrder r
                      (OrderService.json_agg (OrderService.itemsOf id p))))
  | None => None
  end.

(** The answer of GET /orders/:id on healthy services. *)
Definition expectedReply (id : string) (w : World) : OrderRoutes.Reply :=
  match cached ("order:" +:+ id) w with
  | Some v => OrderRoutes.Found v
  | None =>
      match storedOrder id (pg w) with
      | Some v => OrderRoutes.Found v
      | None => OrderRoutes.Error 404 "Order not found"
      end
  end.

(** A status update of the stored order of Ada, leased. *)
Definition completeAda : NewEvent := updateEvent "lx1abc9k2" "COMPLETED" 9.

Definition messageCompleteAda : OrderEventMessage := mkMessage completeAda entropy1.

Definition completeAdaLeased : World :=
  fst (run [OpSend completeAda entropy1; OpReceive 5] adaStored []).

(** * Properties *)

(** ** Lists and handles *)

Lemma findIndex_None {A} (p : A -> bool) (l : list A) :
  Forall (fun x => p x = false) l -> findIndex p l = None.
Proof.
  induction 1 as [|x l Hx _ IH]; simpl; [reflexivity|].
  rewrite Hx, IH. reflexivity.
Qed.

Lemma findIndex_Some {A} (p : A -> bool) (l : list A) (i : nat) :
  findIndex p l = Some i -> exists x, l !! i = Some x /\ p x = true.
Proof.
  revert i. induction l as [|y l IH]; intros i; simpl; [discriminate|].
  destruct (p y) eqn:Hy.
  - intros [= <-]. exists y. split; [reflexivity | exact Hy].
  - destruct (findIndex p l) as [j|]; simpl; [|discriminate].
    intros [= <-]. apply (IH j). reflexivity.
Qed.

Lemma findIndex_In {A} (p : A -> bool) (l : list A) (x : A) :
  In x l -> p x = true -> exists i, findIndex p l = Some i.
Proof.
  induction l as [|y l IH]; simpl; [intros []|].
  intros [-> | Hin] Hp.
  - rewrite Hp. eauto.
  - destruct (p y); [eauto|]. destruct (IH Hin Hp) as [i ->]. simpl. eauto.
Qed.

Lemma unknownHandle_findIndex h w :
  unknownHandle h w -> findIndex (hasHandle h) (processingQueue (sqs w)) = None.
Proof.
  intros H. apply findIndex_None. eapply Forall_impl; [exact H|].
  intros m Hm. unfold hasHandle. apply String.eqb_neq. exact Hm.
Qed.

Lemma deleteMessage_found h w i m :
  findIndex (hasHandle h) (processingQueue (sqs w)) = Some i ->
  processingQueue (sqs w) !! i = Some m ->
  deleteMessage h w = (Ok tt, acknowledged i m w).
Proof.
  intros Hi Hm. unfold deleteMessage, bind, gets. rewrite Hi, Hm. reflexivity.
Qed.

Lemma returnMessage_found h now w i m :
  findIndex (hasHandle h) (processingQueue (sqs w)) = Some i ->
  processingQueue (sqs w) !! i = Some m ->
  returnMessage h now w = (Ok tt, rescheduled i m now w).
Proof.
  intros Hi Hm. unfold returnMessage, bind, gets. rewrite Hi, Hm. reflexivity.
Qed.

Lemma deleteMessage_unknown h w :
  unknownHandle h w ->
  deleteMessage h w = (Throw "Message not found in processing queue", w).
Proof.
  intros H. unfold deleteMessage, bind, gets.
  rewrite (unknownHandle_findIndex _ _ H). reflexivity.
Qed.

Lemma returnMessage_unknown h now w :
  unknownHandle h w ->
  returnMessage h now w = (Throw "Message not found in processing queue", w).
Proof.
  intros H. unfold returnMessage, bind, gets.
  rewrite (unknownHandle_findIndex _ _ H). reflexivity.
Qed.


(** ** Timers *)

Lemma fireAll_ok ts w : fst (fireAll ts w) = Ok tt.
Proof.
  revert w. induction ts as [|[[d m] a] ts IH]; intros w; [reflexivity|].
  simpl. unfold bind, modify, log. simpl. apply IH.
Qed.

Lemma fireAll_sqs ts w :
  sqs (snd (fireAll ts w)) = set_queue (queue (sqs w) ++ timerMessages ts) (sqs w).
Proof.
  revert w. induction ts as [|[[d m] a] ts IH]; intros w.
  - simpl. unfold set_queue. rewrite app_nil_r. destruct (sqs w); reflexivity.
  - simpl. unfold bind, modify, log. simpl. rewrite IH. simpl.
    unfold set_queue. simpl. rewrite <- app_assoc. reflexivity.
Qed.

Lemma runTimers_ok now w : fst (runTimers now w) = Ok tt.
Proof. unfold runTimers, bind, gets, modify. simpl. apply fireAll_ok. Qed.

Lemma runTimers_sqs now w :
  sqs (snd (runTimers now w)) =
  {| queue := queue (sqs w) ++ timerMessages (List.filter (isDue now) (timers (sqs w)));
     processingQueue := processingQueue (sqs w);
     processedMessages := processedMessages (sqs w);
     deduplicationCache := deduplicationCache (sqs w);
     timers := List.filter (fun t => negb (isDue now t)) (timers (sqs w)) |}.
Proof. unfold runTimers, bind, gets, modify. simpl. rewrite fireAll_sqs. reflexivity. Qed.

(** ** Leases that the queue does not know (C3) *)

(** C3, as stated, fails: after a message has been leased and
    acknowledged, acknowledging or returning it again with the same handle
    throws, and nothing is logged. *)
Lemma resolved_handle_throws :
  let w := fst (run leasedAndAcknowledged init []) in
  unknownHandle handle1 w /\
  deleteMessage handle1 w = (Throw "Message not found in processing queue", w) /\
  returnMessage handle1 20 w = (Throw "Message not found in processing queue", w).
Proof. vm_compute. repeat split; constructor. Qed.

(** C3, amended: with a handle that no message in the processing queue
    bears, [deleteMessage] and [returnMessage] throw the error "Message not
    found in processing queue" and leave the whole state, console
    included, unchanged. *)
Theorem unknown_handle_throws (h : string) (now : Z) (w : World) :
  unknownHandle h w ->
  deleteMessage h w = (Throw "Message not found in processing queue", w) /\
  returnMessage h now w = (Throw "Message not found in processing queue", w).
Proof.
  intros H. split; [apply deleteMessage_unknown | apply returnMessage_unknown]; exact H.
Qed.

Lemma unknown_handle_throws_witness :
  unknownHandle "receipt_0_never" init /\
  deleteMessage "receipt_0_never" init =
    (Throw "Message not found in processing queue", init) /\
  returnMessage "receipt_0_never" 5 init =
    (Throw "Message not found in processing queue", init).
Proof.
  split; [constructor|].
  apply (unknown_handle_throws "receipt_0_never" 5 init). constructor.
Defined.

(** ** Retry exhaustion (C1) *)

(** C1, as stated, fails: after three returns and a fourth one the message
    is not marked done, a further retry is scheduled, and the message is
    leased again by the next [receiveMessage]. *)
Lemma fourth_return_still_retries :
  let w := fst (run fourFailures init []) in
  processedMessages (sqs w) = ∅ /\
  timers (sqs w) = [(4040, message1, 1)] /\
  fst (receiveMessage 1 w) = Ok [message1].
Proof. vm_compute. repeat split. Qed.

(** C1, amended: [returnMessage] with the handle of a leased message
    never marks the message done, however often it was returned before:
    the retry count it reads is always 0, so the call removes the message
    from the processing queue, leaves [queue] and [processedMessages] as
    they are, and schedules one more push of the message 1000 ms later. *)
Theorem returnMessage_always_reschedules (w : World) (m : OrderEventMessage) (now : Z) :
  In m (processingQueue (sqs w)) ->
  exists i m' w',
    returnMessage (ReceiptHandle m) now w = (Ok tt, w') /\
    processingQueue (sqs w) !! i = Some m' /\
    ReceiptHandle m' = ReceiptHandle m /\
    getRetryCount (MessageId m') = 0 /\
    processingQueue (sqs w') = delete i (processingQueue (sqs w)) /\
    processedMessages (sqs w') = processedMessages (sqs w) /\
    queue (sqs w') = queue (sqs w) /\
    timers (sqs w') = timers (sqs w) ++ [(now + retryDelay 0, m', 1)] /\
    retryDelay 0 = 1000.
Proof.
  intros Hin.
  destruct (findIndex_In (hasHandle (ReceiptHandle m)) _ m Hin) as [i Hi].
  { unfold hasHandle. apply String.eqb_refl. }
  destruct (findIndex_Some _ _ _ Hi) as (m' & Hm' & Hh).
  exists i, m', (rescheduled i m' now w).
  split; [apply returnMessage_found; assumption|].
  split; [exact Hm'|].
  split; [apply String.eqb_eq; exact Hh|].
  repeat split.
Qed.

Lemma returnMessage_always_reschedules_witness :
  let w := fst (run fourFailures init []) in
  let w1 := snd (receiveMessage 1 w) in
  In message1 (processingQueue (sqs w1)) /\
  exists i m' w',
    returnMessage (ReceiptHandle message1) 5000 w1 = (Ok tt, w') /\
    processingQueue (sqs w1) !! i = Some m' /\
    ReceiptHandle m' = ReceiptHandle message1 /\
    getRetryCount (MessageId m') = 0 /\
    processingQueue (sqs w') = delete i (processingQueue (sqs w1)) /\
    processedMessages (sqs w') = processedMessages (sqs w1) /\
    queue (sqs w') = queue (sqs w1) /\
    timers (sqs w') = timers (sqs w1) ++ [(5000 + retryDelay 0, m', 1)] /\
    retryDelay 0 = 1000.
Proof.
  split; [vm_compute; left; reflexivity|].
  apply (returnMessage_always_reschedules
           (snd (receiveMessage 1 (fst (run fourFailures init [])))) message1 5000).
  vm_compute. left. reflexivity.
Defined.

(** ** Retry after a return (C4) *)

(** C4, as stated, fails: a message that was leased and returned is leased
    again at once, before any time has passed and with the retry timer
    still pending, and it bears the receipt handle of its first lease. *)
Lemma returned_message_leased_at_once :
  let w := fst (run leasedAndReturned init []) in
  timers (sqs w) = [(1010, message1, 1)] /\
  fst (receiveMessage 1 w) = Ok [message1] /\
  ReceiptHandle message1 = handle1.
Proof. vm_compute. repeat split. Qed.

Lemma filter_isDue_last now t ts :
  isDue now t = true ->
  List.filter (isDue now) (ts ++ [t]) = List.filter (isDue now) ts ++ [t].
Proof. intros H. rewrite List.filter_app. simpl. rewrite H. reflexivity. Qed.

(** ** The happy path (C2) *)

(** C2 at the scenario: the order store holds exactly one order, created
    with total amount 20; the consumer asked the cache for exactly one
    invalidation of all order-related keys; no message is in flight and
    none is left to lease; but the attributes report one message, not
    zero: the acknowledged message is never taken out of [queue], whose
    length [getQueueAttributes] reports. *)
Theorem happy_path_create :
  let (r, w) := happyPath init in
  orders (pg w) =
    [ {| row_id := "lx1abc9k2"; row_customer_name := "Ada";
         row_customer_email := "ada@example.com";
         row_total_amount := 20; row_status := "pending" |} ] /\
  OrderService.calculateTotalAmount
    [ {| product_id := "p1"; product_name := "Widget";
         quantity := 2; unit_price := 10 |} ] = 20%float /\
  length (List.filter (String.eqb "Invalidating ALL order-related cache") (console w)) = 1%nat /\
  processingQueue (sqs w) = [] /\
  fst (receiveMessage 5 w) = Ok [] /\
  length (queue (sqs w)) = 1%nat /\
  r = Ok {| ApproximateNumberOfMessages := 1;
            ApproximateNumberOfMessagesNotVisible := 0;
            ApproximateNumberOfMessagesDelayed := 0 |}.
Proof. vm_compute. repeat split. Qed.

(** ** At most one lease (C6) *)

(** C6 at a failing input: after a message was leased and returned and its
    retry timer has run, [queue] holds the message twice; one
    [receiveMessage] then leases both copies, so that two copies of one
    message id are in flight at once. *)
Theorem lease_after_retry_is_double :
  let (w, leased) := run leaseAfterRetry init [] in
  queue (sqs w) = [message1; message1] /\
  processingQueue (sqs w) = [message1; message1] /\
  leased = [message1; message1; message1].
Proof. vm_compute. repeat split. Qed.

(** ** What the services leave untouched *)

Section Keeps.
Context {B : Type} (f : World -> B).

Lemma keeps_ret {A} (a : A) : keeps f (ret a).
Proof. intros w. reflexivity. Qed.

Lemma keeps_throw {A} (e : string) : keeps f (@throw A e).
Proof. intros w. reflexivity. Qed.

Lemma keeps_gets {A} (g : World -> A) : keeps f (gets g).
Proof. intros w. reflexivity. Qed.

Lemma keeps_bind {A C} (c : M A) (k : A -> M C) :
  keeps f c -> (forall a, keeps f (k a)) -> keeps f (bind c k).
Proof.
  intros Hc Hk w. unfold bind. specialize (Hc w).
  destruct (c w) as [[a|e] w']; simpl in *; [|exact Hc].
  rewrite (Hk a w'). exact Hc.
Qed.

Lemma keeps_try_catch {A} (c : M A) (h : string -> M A) :
  keeps f c -> (forall e, keeps f (h e)) -> keeps f (try_catch c h).
Proof.
  intros Hc Hh w. unfold try_catch. specialize (Hc w).
  destruct (c w) as [[a|e] w']; simpl in *; [exact Hc|].
  rewrite (Hh e w'). exact Hc.
Qed.

End Keeps.

Lemma keeps_sqs_log l : keeps sqs (log l).
Proof. intros w. reflexivity. Qed.

Lemma keeps_pg_log l : keeps pg (log l).
Proof. intros w. reflexivity. Qed.

Lemma keeps_sqs_command {A} (run : RedisState -> A * RedisState) :
  keeps sqs (CacheService.command run).
Proof.
  intros w. unfold CacheService.command.
  destruct (redis_faults (redis w)) as [|[] fs]; try reflexivity;
    match goal with |- context [let (_, _) := ?x in _] => destruct x end; reflexivity.
Qed.

Lemma keeps_pg_command {A} (run : RedisState -> A * RedisState) :
  keeps pg (CacheService.command run).
Proof.
  intros w. unfold CacheService.command.
  destruct (redis_faults (redis w)) as [|[] fs]; try reflexivity;
    match goal with |- context [let (_, _) := ?x in _] => destruct x end; reflexivity.
Qed.

Lemma keeps_sqs_query {A} (run : PgState -> Res A * PgState) :
  keeps sqs (OrderService.query run).
Proof.
  intros w. unfold OrderService.query.
  destruct (pg_faults (pg w)) as [|[] fs]; try reflexivity;
    match goal with |- context [let (_, _) := ?x in _] => destruct x end; reflexivity.
Qed.

(** Goals [keeps f c] for a method body [c], by the structure of [c]. *)
Ltac keeps_step :=
  first
    [ apply keeps_bind; [|intros ?]
    | apply keeps_try_catch; [|intros ?]
    | apply keeps_ret
    | apply keeps_throw
    | apply keeps_gets
    | apply keeps_sqs_log
    | apply keeps_pg_log
    | apply keeps_sqs_command
    | apply keeps_pg_command
    | apply keeps_sqs_query
    | match goal with
      | |- keeps _ (match ?x with _ => _ end) => destruct x
      end ].

Ltac keeps_auto := repeat keeps_step.

Lemma keeps_sqs_invalidateOrderCache oid : keeps sqs (CacheService.invalidateOrderCache oid).
Proof.
  unfold CacheService.invalidateOrderCache, CacheService.invalidateOrderCache_try,
    CacheService.redis_exists, CacheService.redis_keys, CacheService.redis_del.
  keeps_auto.
Qed.

Lemma keeps_pg_invalidateOrderCache oid : keeps pg (CacheService.invalidateOrderCache oid).
Proof.
  unfold CacheService.invalidateOrderCache, CacheService.invalidateOrderCache_try,
    CacheService.redis_exists, CacheService.redis_keys, CacheService.redis_del.
  keeps_auto.
Qed.

Lemma keeps_sqs_getOrderById id : keeps sqs (OrderService.getOrderById id).
Proof.
  unfold OrderService.getOrderById, CacheService.generateOrderKey, CacheService.get,
    CacheService.set, CacheService.redis_get, CacheService.redis_setex,
    OrderService.SELECT_order.
  keeps_auto.
Qed.

Lemma keeps_sqs_insertItems id its : keeps sqs (OrderService.insertItems id its).
Proof.
  induction its as [|item rest IH]; simpl; [apply keeps_ret|].
  apply keeps_bind; [apply keeps_sqs_query | intros _; exact IH].
Qed.

Lemma keeps_sqs_createOrder d id : keeps sqs (OrderService.createOrder d id).
Proof.
  unfold OrderService.createOrder, OrderService.connect, OrderService.BEGIN,
    OrderService.INSERT_order, OrderService.COMMIT, OrderService.ROLLBACK.
  repeat first [ apply keeps_sqs_insertItems | apply keeps_sqs_getOrderById
               | apply keeps_sqs_invalidateOrderCache | keeps_step ].
Qed.

Lemma keeps_sqs_updateOrderStatus id st : keeps sqs (OrderService.updateOrderStatus id st).
Proof.
  unfold OrderService.updateOrderStatus, OrderService.UPDATE_status.
  repeat first [ apply keeps_sqs_getOrderById
               | apply keeps_sqs_invalidateOrderCache | keeps_step ].
Qed.

Lemma keeps_sqs_deleteOrder id : keeps sqs (OrderService.deleteOrder id).
Proof.
  unfold OrderService.deleteOrder, OrderService.DELETE_order.
  repeat first [ apply keeps_sqs_invalidateOrderCache | keeps_step ].
Qed.

(** ** The consumer: one message *)

Lemma bind_ok {A C} (c : M A) (k : A -> M C) w a w' r :
  c w = (Ok a, w') -> k a w' = r -> bind c k w = r.
Proof. intros Hc Hk. unfold bind. rewrite Hc. exact Hk. Qed.

Lemma try_catch_ok {A} (c : M A) (h : string -> M A) w a w' :
  c w = (Ok a, w') -> try_catch c h w = (Ok a, w').
Proof. intros Hc. unfold try_catch. rewrite Hc. reflexivity. Qed.

Lemma invalidateOrderCache_ok oid w : fst (CacheService.invalidateOrderCache oid w) = Ok tt.
Proof.
  unfold CacheService.invalidateOrderCache, try_catch.
  destruct (CacheService.invalidateOrderCache_try oid w) as [[[]|e] w']; reflexivity.
Qed.

Lemma invalidateOrderCache_caught oid w e wc :
  CacheService.invalidateOrderCache_try oid w = (Throw e, wc) ->
  CacheService.invalidateOrderCache oid w =
    (Ok tt, logged ["Redis invalidateOrderCache error: " +:+ e] wc).
Proof.
  intros H. unfold CacheService.invalidateOrderCache, try_catch. rewrite H. reflexivity.
Qed.

(** When the [switch] returns without touching the queue, the message is
    acknowledged. *)
Lemma processMessage_dispatched m env w wb :
  In m (processingQueue (sqs w)) ->
  OrderHandlerService.dispatch (Body m) env (logged [processingLine m] w) = (Ok tt, wb) ->
  sqs wb = sqs w ->
  exists i m',
    processingQueue (sqs w) !! i = Some m' /\
    ReceiptHandle m' = ReceiptHandle m /\
    OrderHandlerService.processMessage m env w =
      (Ok tt, logged ["Successfully processed event: " +:+ ev_type (Body m)
                      +:+ " (ID: " +:+ ev_id (Body m) +:+ ")"]
                     (acknowledged i m' wb)).
Proof.
  intros Hin Hd Hs.
  destruct (findIndex_In (hasHandle (ReceiptHandle m)) _ m Hin) as [i Hi].
  { unfold hasHandle. apply String.eqb_refl. }
  destruct (findIndex_Some _ _ _ Hi) as (m' & Hm' & Hh).
  exists i, m'. split; [exact Hm'|]. split; [apply String.eqb_eq; exact Hh|].
  unfold OrderHandlerService.processMessage. cbv zeta.
  apply try_catch_ok.
  eapply bind_ok; [reflexivity|].
  eapply bind_ok; [exact Hd|].
  eapply bind_ok; [apply (deleteMessage_found _ wb i m'); rewrite Hs; assumption|].
  reflexivity.
Qed.

Lemma StoreSucceeded_sqs event env wa scope wb :
  StoreSucceeded event env wa scope wb -> sqs wb = sqs wa.
Proof.
  intros [d created w1 _ _ H | id d updated w1 _ _ _ H | id w1 _ _ H]; simpl.
  - change w1 with (snd (Ok created, w1)). rewrite <- H.
    apply (keeps_sqs_createOrder d _ (logged _ wa)).
  - change w1 with (snd (Ok (Some updated), w1)). rewrite <- H.
    apply (keeps_sqs_updateOrderStatus id _ (logged _ wa)).
  - change w1 with (snd (Ok true, w1)). rewrite <- H.
    apply (keeps_sqs_deleteOrder id (logged _ wa)).
Qed.

Lemma StoreSucceeded_dispatch event env wa scope wb :
  StoreSucceeded event env wa scope wb ->
  OrderHandlerService.dispatch event env wa = CacheService.invalidateOrderCache scope wb.
Proof.
  intros [d created w1 Ht Hd H | id d updated w1 Ht Hid Hd H | id w1 Ht Hid H];
    unfold OrderHandlerService.dispatch; rewrite Ht; simpl.
  - unfold OrderHandlerService.handleCreateOrder. rewrite Hd.
    eapply bind_ok; [reflexivity|]. eapply bind_ok; [exact H|]. reflexivity.
  - unfold OrderHandlerService.handleUpdateOrder. rewrite Hid, Hd.
    eapply bind_ok; [reflexivity|]. eapply bind_ok; [exact H|]. reflexivity.
  - unfold OrderHandlerService.handleDeleteOrder. rewrite Hid.
    eapply bind_ok; [reflexivity|]. eapply bind_ok; [exact H|]. reflexivity.
Qed.

(** ** Events of an unknown type (C9) *)

(** C9: a leased message whose event type is none of CREATE, UPDATE and
    DELETE is acknowledged by [processMessage]: the call returns, the
    database and Redis are untouched, the message found under its receipt
    handle leaves the processing queue and its id joins
    [processedMessages], and no retry timer is set. *)
Theorem unknown_type_is_acknowledged (m : OrderEventMessage)
    (env : OrderHandlerService.Env) (w : World) :
  ev_type (Body m) <> "CREATE" ->
  ev_type (Body m) <> "UPDATE" ->
  ev_type (Body m) <> "DELETE" ->
  In m (processingQueue (sqs w)) ->
  exists i m' w',
    OrderHandlerService.processMessage m env w = (Ok tt, w') /\
    pg w' = pg w /\
    redis w' = redis w /\
    processingQueue (sqs w) !! i = Some m' /\
    ReceiptHandle m' = ReceiptHandle m /\
    processingQueue (sqs w') = delete i (processingQueue (sqs w)) /\
    MessageId m' ∈ processedMessages (sqs w') /\
    queue (sqs w') = queue (sqs w) /\
    timers (sqs w') = timers (sqs w).
Proof.
  intros Hc Hu Hd Hin.
  destruct (processMessage_dispatched m env w
              (logged ["Unknown event type: " +:+ ev_type (Body m)]
                 (logged [processingLine m] w)) Hin)
    as (i & m' & Hm' & Hh & Hp).
  - unfold OrderHandlerService.dispatch.
    apply String.eqb_neq in Hc, Hu, Hd. rewrite Hc, Hu, Hd. reflexivity.
  - reflexivity.
  - exists i, m'. eexists. split; [exact Hp|].
    simpl. repeat split; try assumption. set_solver.
Qed.

Lemma unknown_type_is_acknowledged_witness :
  exists i m' w',
    OrderHandlerService.processMessage messageArchive envAda archiveLeased = (Ok tt, w') /\
    pg w' = pg archiveLeased /\
    redis w' = redis archiveLeased /\
    processingQueue (sqs archiveLeased) !! i = Some m' /\
    ReceiptHandle m' = ReceiptHandle messageArchive /\
    processingQueue (sqs w') = delete i (processingQueue (sqs archiveLeased)) /\
    MessageId m' ∈ processedMessages (sqs w') /\
    queue (sqs w') = queue (sqs archiveLeased) /\
    timers (sqs w') = timers (sqs archiveLeased).
Proof.
  apply (unknown_type_is_acknowledged messageArchive envAda archiveLeased).
  - vm_compute. discriminate.
  - vm_compute. discriminate.
  - vm_compute. discriminate.
  - left. reflexivity.
Defined.

(** ** A cache failure after a store success (C8) *)

(** C8: when the order-service call of the handler has succeeded and the
    body of the following [invalidateOrderCache] throws, [processMessage]
    still returns normally: the error is logged on the console, the
    database is as the store call left it, the message is acknowledged
    (out of the processing queue, its id in [processedMessages]) and no
    retry timer is set, so neither the event nor the invalidation is
    retried. *)
Theorem cache_failure_does_not_undo_or_retry (m : OrderEventMessage)
    (env : OrderHandlerService.Env) (w wb wc : World)
    (scope : option string) (e : string) :
  In m (processingQueue (sqs w)) ->
  StoreSucceeded (Body m) env (logged [processingLine m] w) scope wb ->
  CacheService.invalidateOrderCache_try scope wb = (Throw e, wc) ->
  exists i m' w',
    OrderHandlerService.processMessage m env w = (Ok tt, w') /\
    pg w' = pg wb /\
    In ("Redis invalidateOrderCache error: " +:+ e) (console w') /\
    processingQueue (sqs w) !! i = Some m' /\
    ReceiptHandle m' = ReceiptHandle m /\
    processingQueue (sqs w') = delete i (processingQueue (sqs w)) /\
    MessageId m' ∈ processedMessages (sqs w') /\
    queue (sqs w') = queue (sqs w) /\
    timers (sqs w') = timers (sqs w).
Proof.
  intros Hin Hstore Hfail.
  pose proof (StoreSucceeded_sqs _ _ _ _ _ Hstore) as Hsqs. simpl in Hsqs.
  pose proof (StoreSucceeded_dispatch _ _ _ _ _ Hstore) as Hdisp.
  rewrite (invalidateOrderCache_caught _ _ _ _ Hfail) in Hdisp.
  pose proof (keeps_sqs_invalidateOrderCache scope wb) as Hk1.
  pose proof (keeps_pg_invalidateOrderCache scope wb) as Hk2.
  rewrite (invalidateOrderCache_caught _ _ _ _ Hfail) in Hk1, Hk2. simpl in Hk1, Hk2.
  destruct (processMessage_dispatched m env w _ Hin Hdisp) as (i & m' & Hm' & Hh & Hp).
  { simpl. congruence. }
  exists i, m'. eexists. split; [exact Hp|].
  simpl. rewrite Hk1, Hk2, Hsqs.
  repeat split; try assumption; try reflexivity.
  - apply List.in_or_app. left. apply List.in_or_app. left.
    apply List.in_or_app. right. left. reflexivity.
  - set_solver.
Qed.

Lemma cache_failure_does_not_undo_or_retry_witness :
  orders (pg beforeInvalidationAda) =
    [ {| row_id := "lx1abc9k2"; row_customer_name := "Ada";
         row_customer_email := "ada@example.com";
         row_total_amount := 20; row_status := "pending" |} ] /\
  exists i m' w',
    OrderHandlerService.processMessage messageAda envAda redisDown = (Ok tt, w') /\
    pg w' = pg beforeInvalidationAda /\
    In ("Redis invalidateOrderCache error: " +:+ "Redis command failed") (console w') /\
    processingQueue (sqs redisDown) !! i = Some m' /\
    ReceiptHandle m' = ReceiptHandle messageAda /\
    processingQueue (sqs w') = delete i (processingQueue (sqs redisDown)) /\
    MessageId m' ∈ processedMessages (sqs w') /\
    queue (sqs w') = queue (sqs redisDown) /\
    timers (sqs w') = timers (sqs redisDown).
Proof.
  split; [reflexivity|].
  apply (cache_failure_does_not_undo_or_retry messageAda envAda redisDown
           beforeInvalidationAda afterInvalidationAda None "Redis command failed").
  - vm_compute. left. reflexivity.
  - apply (CreateSucceeded _ _ _ payloadAda createdAda storeDoneAda);
      vm_compute; reflexivity.
  - vm_compute. reflexivity.
Defined.

(** ** Deduplication (C7) *)

Lemma sendMessage_duplicate event e w :
  isDuplicate (ne_deduplicationId event) (date_now e) (sqs w) = true ->
  sendMessage event e w =
    (Ok (resultOf e),
     logged ["Duplicate message detected: " +:+ ne_deduplicationId event] w).
Proof.
  intros H. unfold sendMessage, bind at 1, gets. rewrite H. reflexivity.
Qed.

Lemma sendMessage_fresh event e w :
  isDuplicate (ne_deduplicationId event) (date_now e) (sqs w) = false ->
  fst (sendMessage event e w) = Ok (resultOf e) /\
  sqs (snd (sendMessage event e w)) =
    {| queue := queue (sqs w) ++ [mkMessage event e];
       processingQueue := processingQueue (sqs w);
       processedMessages := processedMessages (sqs w);
       deduplicationCache :=
         <[ne_deduplicationId event := date_now e]> (deduplicationCache (sqs w));
       timers := timers (sqs w) |}.
Proof.
  intros H.
  cbv beta iota zeta delta [sendMessage emit_messageReceived bind gets modify log ret].
  rewrite H.
  cbv beta iota zeta delta [with_sqs with_isRunning isRunning].
  destruct w as [s r p [] c]; split; reflexivity.
Qed.

Lemma isDuplicate_recorded tok t ts s :
  deduplicationCache s !! tok = Some t ->
  t <> 0 ->
  ts - t < deduplicationWindowMs ->
  isDuplicate tok ts s = true.
Proof.
  intros Hl Ht Hw. unfold isDuplicate. rewrite Hl.
  destruct (t =? 0) eqn:E; [apply Z.eqb_eq in E; contradiction|].
  apply Z.ltb_lt. exact Hw.
Qed.

Lemma sendAll_suppressed tok t rest : forall w,
  deduplicationCache (sqs w) !! tok = Some t ->
  t <> 0 ->
  Forall (withinWindow tok t) rest ->
  exists w', sendAll rest w = (Ok (resultOf ∘ snd <$> rest), w') /\ sqs w' = sqs w.
Proof.
  induction rest as [|[event e] rest IH]; intros w Hl Ht Hall.
  - exists w. split; reflexivity.
  - apply Forall_cons in Hall as [[Htok Hwin] Hrest]. simpl in Htok, Hwin.
    assert (Hdup : isDuplicate (ne_deduplicationId event) (date_now e) (sqs w) = true)
      by (rewrite Htok; eapply isDuplicate_recorded; eassumption).
    destruct (IH (logged ["Duplicate message detected: " +:+ ne_deduplicationId event] w)
                Hl Ht Hrest) as (w' & Hrun & Hs).
    exists w'. split; [|exact Hs].
    simpl. eapply bind_ok; [apply sendMessage_duplicate; exact Hdup|].
    eapply bind_ok; [exact Hrun|]. reflexivity.
Qed.

(** C7: take any state and any enqueue with token [tok], and let [t] be
    the time recorded for [tok] after it (the time of this enqueue, or of an
    earlier one that suppressed it); [t] is a time that [isDuplicate]
    treats as recorded, that is, not 0. Then every further enqueue with
    [tok] made within the deduplication window of [t] is suppressed: each
    returns a result of the same shape as a successful enqueue, a freshly
    generated message id, and none adds a message or changes the
    recording. The whole sequence has added at most one message. *)
Theorem duplicates_within_window_add_nothing (tok : string) (t : Z) (w : World)
    (event : NewEvent) (e : Entropy) (rest : list (NewEvent * Entropy)) :
  ne_deduplicationId event = tok ->
  deduplicationCache (sqs (snd (sendMessage event e w))) !! tok = Some t ->
  t <> 0 ->
  Forall (withinWindow tok t) rest ->
  exists w',
    sendAll ((event, e) :: rest) w = (Ok (resultOf ∘ snd <$> (event, e) :: rest), w') /\
    (queue (sqs w') = queue (sqs w) \/
     queue (sqs w') = queue (sqs w) ++ [mkMessage event e]) /\
    deduplicationCache (sqs w') !! tok = Some t.
Proof.
  intros Htok Hl Ht Hall.
  destruct (sendAll_suppressed tok t rest _ Hl Ht Hall) as (w' & Hrun & Hs).
  exists w'. split; [|split].
  - simpl. destruct (isDuplicate (ne_deduplicationId event) (date_now e) (sqs w)) eqn:Hd.
    + rewrite (sendMessage_duplicate _ _ _ Hd) in Hrun. simpl in Hrun.
      eapply bind_ok; [apply sendMessage_duplicate; exact Hd|].
      eapply bind_ok; [exact Hrun|]. reflexivity.
    + destruct (sendMessage_fresh _ _ _ Hd) as [Hr _].
      destruct (sendMessage event e w) as [r w1] eqn:Hsend. simpl in Hr, Hrun. subst r.
      eapply bind_ok; [exact Hsend|]. eapply bind_ok; [exact Hrun|]. reflexivity.
  - rewrite Hs.
    destruct (isDuplicate (ne_deduplicationId event) (date_now e) (sqs w)) eqn:Hd.
    + left. rewrite (sendMessage_duplicate _ _ _ Hd). reflexivity.
    + right. destruct (sendMessage_fresh _ _ _ Hd) as [_ ->]. reflexivity.
  - rewrite Hs. exact Hl.
Qed.

Lemma duplicates_within_window_add_nothing_witness :
  exists w',
    sendAll [(updateMissing, entropy1); (updateMissing, entropy2); (updateMissing, entropy3)]
            init
    = (Ok [resultOf entropy1; resultOf entropy2; resultOf entropy3], w') /\
    (queue (sqs w') = queue (sqs init) \/
     queue (sqs w') = queue (sqs init) ++ [mkMessage updateMissing entropy1]) /\
    deduplicationCache (sqs w') !! "update_missing_completed_1" = Some 1.
Proof.
  apply (duplicates_within_window_add_nothing "update_missing_completed_1" 1 init
           updateMissing entropy1 [(updateMissing, entropy2); (updateMissing, entropy3)]).
  - reflexivity.
  - reflexivity.
  - discriminate.
  - repeat constructor.
Defined.

(** ** Message ids *)




Lemma string_of_Z_inj z z' : string_of_Z z = string_of_Z z' -> z = z'.
Proof.
  unfold string_of_Z. intros H. apply to_int_inj.
  assert (Hnn : forall n, Z.to_int n <> Decimal.Pos Decimal.Nil /\
                          Z.to_int n <> Decimal.Neg Decimal.Nil).
  { intros [|p|p]; simpl; split; try discriminate;
      intros [= E]; exact (DecimalPos.Unsigned.to_uint_nonnil p E). }
  destruct (Hnn z) as [H1 H2]. destruct (Hnn z') as [H1' H2'].
  pose proof (NilZero.isi _ H1 H2) as E. pose proof (NilZero.isi _ H1' H2') as E'.
  rewrite H in E. congruence.
Qed.


(** ** What each operation does to the queue state *)

Lemma slice0_take {A} n (l : list A) : exists k, slice0 n l = take k l.
Proof. unfold slice0. destruct (n <? 0); eauto. Qed.

Lemma In_take {A} k (l : list A) x : In x (take k l) -> In x l.
Proof.
  revert l. induction k as [|k IH]; intros [|y l]; simpl; try contradiction.
  intros [->|H]; [left; reflexivity | right; apply IH; exact H].
Qed.

Lemma In_delete {A} i (l : list A) x : In x (delete i l) -> In x l.
Proof.
  revert i. induction l as [|y l IH]; intros [|i]; simpl; try contradiction.
  - intros H. right. exact H.
  - intros [->|H]; [left; reflexivity | right; eapply IH; exact H].
Qed.

Lemma leaseBatch_In n s m : In m (leaseBatch n s) -> In m (queue s) /\ available s m = true.
Proof.
  unfold leaseBatch. destruct (slice0_take n (List.filter (available s) (queue s))) as [k ->].
  intros H. apply In_take in H. apply List.filter_In in H. exact H.
Qed.

Lemma sqs_eta s :
  {| queue := queue s; processingQueue := processingQueue s;
     processedMessages := processedMessages s;
     deduplicationCache := deduplicationCache s; timers := timers s |} = s.
Proof. destruct s; reflexivity. Qed.

Lemma receiveMessage_spec n w :
  exists w',
    receiveMessage n w = (Ok (leaseBatch n (sqs w)), w') /\
    sqs w' = set_processingQueue (processingQueue (sqs w) ++ leaseBatch n (sqs w)) (sqs w).
Proof.
  unfold receiveMessage, bind at 1, gets. fold (leaseBatch n (sqs w)).
  destruct (leaseBatch n (sqs w)) as [|m l] eqn:E.
  - exists w. split; [reflexivity|].
    unfold set_processingQueue. rewrite app_nil_r. symmetry. apply sqs_eta.
  - simpl. eexists. split; reflexivity.
Qed.

Lemma deleteMessage_cases h w :
  deleteMessage h w = (Throw "Message not found in processing queue", w) \/
  exists i m, processingQueue (sqs w) !! i = Some m /\
              deleteMessage h w = (Ok tt, acknowledged i m w).
Proof.
  destruct (findIndex (hasHandle h) (processingQueue (sqs w))) as [i|] eqn:Hi.
  - right. destruct (findIndex_Some _ _ _ Hi) as (m & Hm & _).
    exists i, m. split; [exact Hm | apply deleteMessage_found; assumption].
  - left. unfold deleteMessage, bind, gets. rewrite Hi. reflexivity.
Qed.

Lemma returnMessage_cases h now w :
  returnMessage h now w = (Throw "Message not found in processing queue", w) \/
  exists i m, processingQueue (sqs w) !! i = Some m /\
              returnMessage h now w = (Ok tt, rescheduled i m now w).
Proof.
  destruct (findIndex (hasHandle h) (processingQueue (sqs w))) as [i|] eqn:Hi.
  - right. destruct (findIndex_Some _ _ _ Hi) as (m & Hm & _).
    exists i, m. split; [exact Hm | apply returnMessage_found; assumption].
  - left. unfold returnMessage, bind, gets. rewrite Hi. reflexivity.
Qed.

Lemma lookup_In {A} (l : list A) i x : l !! i = Some x -> In x l.
Proof. intros H. apply list_elem_of_In. eapply list_elem_of_lookup_2. exact H. Qed.

Lemma timerMessages_app ts ts' :
  timerMessages (ts ++ ts') = timerMessages ts ++ timerMessages ts'.
Proof. unfold timerMessages. apply fmap_app. Qed.

Lemma timerMessages_filter_In p ts m :
  In m (timerMessages (List.filter p ts)) -> In m (timerMessages ts).
Proof.
  unfold timerMessages. intros H. apply List.in_map_iff in H as (t & <- & Ht).
  apply List.in_map_iff. exists t. split; [reflexivity|].
  apply List.filter_In in Ht. tauto.
Qed.

(** A message that the queue service holds after an operation was held
    before it, or has just been built by a [sendMessage]. *)
Lemma step_held op w m :
  held m (fst (step op w)) ->
  held m w \/ exists event e, op = OpSend event e /\ m = mkMessage event e.
Proof.
  unfold held. destruct op as [event e|n|h|h now|now|now|]; simpl.
  - destruct (isDuplicate (ne_deduplicationId event) (date_now e) (sqs w)) eqn:Hd.
    + rewrite (sendMessage_duplicate _ _ _ Hd). simpl. intros H. left. exact H.
    + destruct (sendMessage_fresh _ _ _ Hd) as [_ ->]. simpl.
      rewrite List.in_app_iff. simpl. intros [[H|[<-|[]]]|H]; eauto 6.
  - destruct (receiveMessage_spec n w) as (w' & Hr & Hs).
    rewrite Hr. cbn [fst]. rewrite Hs. simpl.
    rewrite List.in_app_iff. intros [H|[[H|H]|H]]; auto.
    apply leaseBatch_In in H. tauto.
  - destruct (deleteMessage_cases h w) as [-> | (i & m' & _ & ->)]; simpl; [tauto|].
    intros [H|[H|H]]; auto. apply In_delete in H. auto.
  - destruct (returnMessage_cases h now w) as [-> | (i & m' & Hm' & ->)]; simpl; [tauto|].
    rewrite timerMessages_app, List.in_app_iff. simpl.
    intros [H|[H|[H|[<-|[]]]]]; auto.
    + apply In_delete in H. auto.
    + apply lookup_In in Hm'. auto.
  - rewrite runTimers_sqs. simpl. rewrite List.in_app_iff.
    intros [[H|H]|[H|H]]; auto; apply timerMessages_filter_In in H; auto.
  - tauto.
  - simpl. intros [[]|[[]|H]]. auto.
Qed.

(** ** Where the held and the leased messages come from *)

(** Along a sequence of operations, a message that the queue service holds
    was held at the start or has been built by one of the enqueues. *)
Lemma run_held ops : forall w leased m,
  held m (fst (run ops w leased)) ->
  held m w \/ exists event e, In (OpSend event e) ops /\ m = mkMessage event e.
Proof.
  induction ops as [|op ops IH]; intros w leased m H; [left; exact H|].
  simpl in H. destruct (step op w) as [w' batch] eqn:Hs.
  apply IH in H as [H | (event & e & Hin & ->)].
  - change w' with (fst (w', batch)) in H. rewrite <- Hs in H.
    apply step_held in H as [H | (event & e & -> & ->)]; [left; exact H|].
    right. exists event, e. split; [left; reflexivity | reflexivity].
  - right. exists event, e. split; [right; exact Hin | reflexivity].
Qed.

Lemma held_rescheduled i m now w m' :
  processingQueue (sqs w) !! i = Some m ->
  held m' (rescheduled i m now w) -> held m' w.
Proof.
  unfold held. simpl. rewrite timerMessages_app, List.in_app_iff. simpl.
  intros Hm [H|[H|[H|[<-|[]]]]]; auto.
  - apply In_delete in H. auto.
  - apply lookup_In in Hm. auto.
Qed.

Lemma held_init m : ~ held m init.
Proof. unfold held. simpl. tauto. Qed.

(** The world after a sequence of operations does not depend on the log
    of leases. *)
Lemma run_fst ops : forall w l1 l2, fst (run ops w l1) = fst (run ops w l2).
Proof.
  induction ops as [|op ops IH]; intros w l1 l2; [reflexivity|].
  simpl. destruct (step op w) as [w' batch]. apply IH.
Qed.

(** A message that is held after an operation and was not held before it
    is the one that the operation, a [sendMessage] that was not
    suppressed, has appended to [queue]. *)
Lemma step_held_sent op w m :
  held m (fst (step op w)) ->
  held m w \/
  exists event e, op = OpSend event e /\ m = mkMessage event e /\
                  queue (sqs (snd (sendMessage event e w))) = queue (sqs w) ++ [m].
Proof.
  intros H. destruct (step_held _ _ _ H) as [Hw | (event & e & -> & ->)]; [left; exact Hw|].
  simpl in H.
  destruct (isDuplicate (ne_deduplicationId event) (date_now e) (sqs w)) eqn:Hd.
  - left. rewrite (sendMessage_duplicate _ _ _ Hd) in H. exact H.
  - right. exists event, e. split; [reflexivity|]. split; [reflexivity|].
    destruct (sendMessage_fresh _ _ _ Hd) as [_ ->]. reflexivity.
Qed.

Lemma run_held_sent ops : forall w m,
  held m (fst (run ops w [])) ->
  held m w \/
  exists pre event e post,
    ops = pre ++ OpSend event e :: post /\ m = mkMessage event e /\
    queue (sqs (snd (sendMessage event e (fst (run pre w []))))) =
      queue (sqs (fst (run pre w []))) ++ [m].
Proof.
  induction ops as [|op ops IH]; intros w m H; [left; exact H|].
  simpl in H. destruct (step op w) as [w' batch] eqn:Hs.
  rewrite (run_fst ops w' _ []) in H.
  apply IH in H as [H | (pre & event & e & post & -> & -> & Hq)].
  - change w' with (fst (w', batch)) in H. rewrite <- Hs in H.
    apply step_held_sent in H as [H | (event & e & -> & -> & Hq)]; [left; exact H|].
    right. exists [], event, e, ops. split; [reflexivity|]. split; [reflexivity|]. exact Hq.
  - right. exists (op :: pre), event, e, post. split; [reflexivity|]. split; [reflexivity|].
    simpl. rewrite Hs. rewrite (run_fst pre w' _ []). exact Hq.
Qed.

(** ** Retry after a return, amended (C4) *)

(** C4, amended. In a state that the queue reaches from its start, let a
    leased message [m] be returned under its handle [h] at time [now]. Then
    [m] is the record that a [sendMessage] of the run built and appended
    to [queue], and [h] is the handle generated in that call; a push of
    [m] is scheduled for [now + 1000], the timer stays pending while the
    clock is below that time, and once it has run the record appended to
    [queue] is [m] itself. Whatever operations follow, every message that
    a [receiveMessage] then leases is a record built by one of the
    enqueues, handle included: no lease gives a new handle. So, when the
    message ids of the enqueues identify their messages, every later lease
    of a message with the id of [m] carries the handle [h]. *)
Theorem returned_message_keeps_handle (ops : list Op) (h : string) (now : Z)
    (i : nat) (m : OrderEventMessage) :
  let w := fst (run ops init []) in
  findIndex (hasHandle h) (processingQueue (sqs w)) = Some i ->
  processingQueue (sqs w) !! i = Some m ->
  let w1 := snd (returnMessage h now w) in
  (exists pre event e post,
     ops = pre ++ OpSend event e :: post /\
     queue (sqs (snd (sendMessage event e (fst (run pre init []))))) =
       queue (sqs (fst (run pre init []))) ++ [m] /\
     m = mkMessage event e /\
     h = generateReceiptHandle (rh_now e) (rh_rnd e)) /\
  timers (sqs w1) = timers (sqs w) ++ [(now + 1000, m, 1)] /\
  (forall t, t < now + 1000 ->
     In (now + 1000, m, 1) (timers (sqs (snd (runTimers t w1))))) /\
  (forall t, now + 1000 <= t ->
     exists q, queue (sqs (snd (runTimers t w1))) = q ++ [m]) /\
  (forall ops' n batch w2 m',
     receiveMessage n (fst (run ops' w1 [])) = (Ok batch, w2) ->
     In m' batch ->
     (exists event e, In (OpSend event e) (ops ++ ops') /\ m' = mkMessage event e /\
                      ReceiptHandle m' = generateReceiptHandle (rh_now e) (rh_rnd e)) /\
     (idsIdentify (ops ++ ops') -> MessageId m' = MessageId m -> ReceiptHandle m' = h)).
Proof.
  intros w Hi Hm w1.
  assert (Hw1 : w1 = rescheduled i m now w).
  { unfold w1. rewrite (returnMessage_found _ _ _ _ _ Hi Hm). reflexivity. }
  destruct (findIndex_Some _ _ _ Hi) as (m0 & Hm0 & Hh).
  assert (m0 = m) as -> by congruence.
  apply String.eqb_eq in Hh.
  assert (Hheld : held m w) by (right; left; eapply lookup_In; exact Hm).
  assert (Hsent : exists pre event e post,
            ops = pre ++ OpSend event e :: post /\ m = mkMessage event e /\
            queue (sqs (snd (sendMessage event e (fst (run pre init []))))) =
              queue (sqs (fst (run pre init []))) ++ [m]).
  { apply run_held_sent in Hheld as [Hinit | Hsent];
      [destruct (held_init _ Hinit) | exact Hsent]. }
  assert (Hbuilt : exists event e, In (OpSend event e) ops /\ m = mkMessage event e).
  { destruct Hsent as (pre & event & e & post & -> & -> & _). exists event, e.
    split; [|reflexivity]. apply List.in_or_app. right. left. reflexivity. }
  assert (Horigin : forall ops' n batch w2 m',
            receiveMessage n (fst (run ops' w1 [])) = (Ok batch, w2) -> In m' batch ->
            exists event e, In (OpSend event e) (ops ++ ops') /\ m' = mkMessage event e).
  { intros ops' n batch w2 m' Hrecv Hin.
    destruct (receiveMessage_spec n (fst (run ops' w1 []))) as (w2' & Hr & _).
    rewrite Hr in Hrecv. injection Hrecv as <- _.
    apply leaseBatch_In in Hin as [Hin _].
    assert (Hheld' : held m' (fst (run ops' w1 []))) by (left; exact Hin).
    apply run_held in Hheld' as [Hheld' | (event & e & Hsend & ->)].
    - rewrite Hw1 in Hheld'. apply (held_rescheduled _ _ _ _ _ Hm) in Hheld'.
      apply run_held in Hheld' as [Hheld' | (event & e & Hsend & ->)];
        [destruct (held_init _ Hheld')|].
      exists event, e. split; [apply List.in_or_app; left; exact Hsend | reflexivity].
    - exists event, e. split; [apply List.in_or_app; right; exact Hsend | reflexivity]. }
  split.
  { destruct Hsent as (pre & event & e & post & Hops & Hmk & Hq).
    exists pre, event, e, post. split; [exact Hops|]. split; [exact Hq|].
    split; [exact Hmk|]. rewrite <- Hh, Hmk. reflexivity. }
  split; [rewrite Hw1; reflexivity|].
  split.
  { intros t Ht. rewrite runTimers_sqs, Hw1. simpl.
    apply List.filter_In. split.
    - apply List.in_or_app. right. left. reflexivity.
    - unfold isDue. simpl. apply negb_true_iff. apply Z.leb_gt. exact Ht. }
  split.
  { intros t Ht. rewrite runTimers_sqs, Hw1. simpl.
    rewrite filter_isDue_last.
    - unfold timerMessages. rewrite fmap_app. simpl.
      rewrite app_assoc. eexists. reflexivity.
    - unfold isDue. simpl. apply Z.leb_le. exact Ht. }
  intros ops' n batch w2 m' Hrecv Hin.
  destruct (Horigin ops' n batch w2 m' Hrecv Hin) as (event & e & Hsend & ->).
  split; [exists event, e; repeat split; exact Hsend|].
  intros Hids Hid. destruct Hbuilt as (event0 & e0 & Hsend0 & Hm0').
  rewrite <- Hh. f_equal. rewrite Hm0' in Hid |- *.
  apply (Hids event e event0 e0); [exact Hsend | | exact Hid].
  apply List.in_or_app. left. exact Hsend0.
Qed.

Lemma returned_message_keeps_handle_witness :
  let ops := [OpSend updateMissing entropy1; OpReceive 1] in
  let w := fst (run ops init []) in
  let w1 := snd (returnMessage handle1 10 w) in
  (exists pre event e post,
     ops = pre ++ OpSend event e :: post /\
     queue (sqs (snd (sendMessage event e (fst (run pre init []))))) =
       queue (sqs (fst (run pre init []))) ++ [message1] /\
     message1 = mkMessage event e /\
     handle1 = generateReceiptHandle (rh_now e) (rh_rnd e)) /\
  timers (sqs w1) = timers (sqs w) ++ [(10 + 1000, message1, 1)] /\
  (forall t, t < 10 + 1000 ->
     In (10 + 1000, message1, 1) (timers (sqs (snd (runTimers t w1))))) /\
  (forall t, 10 + 1000 <= t ->
     exists q, queue (sqs (snd (runTimers t w1))) = q ++ [message1]) /\
  (forall ops' n batch w2 m',
     receiveMessage n (fst (run ops' w1 [])) = (Ok batch, w2) ->
     In m' batch ->
     (exists event e, In (OpSend event e) (ops ++ ops') /\ m' = mkMessage event e /\
                      ReceiptHandle m' = generateReceiptHandle (rh_now e) (rh_rnd e)) /\
     (idsIdentify (ops ++ ops') -> MessageId m' = MessageId message1 ->
      ReceiptHandle m' = handle1)).
Proof.
  apply (returned_message_keeps_handle [OpSend updateMissing entropy1; OpReceive 1]
           handle1 10 0%nat message1); vm_compute; reflexivity.
Defined.

(** ** The id returned by a suppressed enqueue (C10) *)




(** ** FIFO order of leases (C5) *)

Lemma available_false s m :
  available s m = false ->
  (exists p, In p (processingQueue s) /\ MessageId p = MessageId m) \/
  MessageId m ∈ processedMessages s.
Proof.
  unfold available. intros H. apply andb_false_iff in H as [H|H].
  - left. apply negb_false_iff in H. apply List.existsb_exists in H as (p & Hp & He).
    exists p. split; [exact Hp | apply String.eqb_eq; exact He].
  - right. apply negb_false_iff in H. apply bool_decide_eq_true in H. exact H.
Qed.

Lemma step_leaseLogged op w leased :
  leaseLogged w leased ->
  leaseLogged (fst (step op w)) (leased ++ snd (step op w)).
Proof.
  intros [Hp Hd]. unfold leaseLogged.
  destruct op as [event e|n|h|h now|now|now|]; simpl; rewrite ?app_nil_r.
  - destruct (isDuplicate (ne_deduplicationId event) (date_now e) (sqs w)) eqn:Hdup.
    + rewrite (sendMessage_duplicate _ _ _ Hdup). split; assumption.
    + destruct (sendMessage_fresh _ _ _ Hdup) as [_ ->]. split; assumption.
  - destruct (receiveMessage_spec n w) as (w' & Hr & Hs).
    rewrite Hr. cbn [fst snd]. rewrite Hs. simpl.
    rewrite fmap_app. split.
    + intros m Hm. apply List.in_app_iff. apply List.in_app_iff in Hm as [Hm|Hm].
      * left. apply Hp. exact Hm.
      * right. apply List.in_map. exact Hm.
    + intros x Hx. apply List.in_app_iff. left. apply Hd. exact Hx.
  - destruct (deleteMessage_cases h w) as [-> | (i & m' & Hm' & ->)]; simpl;
      [split; assumption|].
    split.
    + intros m Hm. apply Hp. eapply In_delete. exact Hm.
    + intros x Hx. apply elem_of_union in Hx as [Hx|Hx].
      * apply elem_of_singleton in Hx as ->. apply Hp. eapply lookup_In. exact Hm'.
      * apply Hd. exact Hx.
  - destruct (returnMessage_cases h now w) as [-> | (i & m' & Hm' & ->)]; simpl;
      [split; assumption|].
    split; [|assumption]. intros m Hm. apply Hp. eapply In_delete. exact Hm.
  - rewrite runTimers_sqs. simpl. split; assumption.
  - split; assumption.
  - split; [intros m [] | intros x Hx; set_solver].
Qed.

Lemma run_leaseLogged ops : forall w leased,
  leaseLogged w leased ->
  leaseLogged (fst (run ops w leased)) (snd (run ops w leased)).
Proof.
  induction ops as [|op ops IH]; intros w leased H; [exact H|].
  simpl. pose proof (step_leaseLogged op w leased H) as Hs.
  destruct (step op w) as [w' batch]. apply IH. exact Hs.
Qed.

Lemma init_leaseLogged : leaseLogged init [].
Proof. split; [intros m [] | intros x Hx; set_solver]. Qed.

(** The messages of a lease are a prefix of the available messages of
    [queue]: an available message enqueued before a leased one is leased in
    the same batch, ahead of it. *)
Lemma leaseBatch_prefix n s q1 a q2 b q3 :
  queue s = q1 ++ a :: q2 ++ b :: q3 ->
  ~ In (MessageId b) (MessageId <$> (q1 ++ a :: q2)) ->
  In b (leaseBatch n s) ->
  available s a = true ->
  exists b1 b2, leaseBatch n s = b1 ++ b :: b2 /\ In a b1.
Proof.
  intros Hq Hnodup Hb Ha.
  destruct (leaseBatch_In _ _ _ Hb) as [_ Hbav].
  unfold leaseBatch in *.
  destruct (slice0_take n (List.filter (available s) (queue s))) as [k Hk].
  rewrite Hk in *. clear Hk.
  replace (q1 ++ a :: q2 ++ b :: q3) with ((q1 ++ a :: q2) ++ b :: q3) in Hq
    by (rewrite <- app_assoc; reflexivity).
  rewrite Hq in *. rewrite List.filter_app in *. simpl in *. rewrite Hbav in *.
  set (f1 := List.filter (available s) (q1 ++ a :: q2)) in *.
  assert (Hb1 : ~ In b f1).
  { intros H. apply List.filter_In in H as [H _]. apply Hnodup.
    apply List.in_map. exact H. }
  assert (Ha1 : In a f1).
  { apply List.filter_In. split; [|exact Ha].
    apply List.in_or_app. right. left. reflexivity. }
  destruct (Nat.le_gt_cases k (length f1)) as [Hle|Hgt].
  - exfalso. apply Hb1. rewrite take_app_le in Hb by exact Hle.
    eapply In_take. exact Hb.
  - rewrite take_app_ge by lia.
    destruct (k - length f1)%nat as [|j] eqn:E; [lia|]. simpl.
    exists f1, (take j (List.filter (available s) q3)). split; [reflexivity | exact Ha1].
Qed.

(** FIFO over every pair of messages of [queue], whatever their groups. *)
Lemma lease_order_is_queue_order ops n q1 a q2 b q3 :
  let w := fst (run ops init []) in
  let leased := snd (run ops init []) in
  queue (sqs w) = q1 ++ a :: q2 ++ b :: q3 ->
  ~ In (MessageId b) (MessageId <$> (q1 ++ a :: q2)) ->
  In b (leaseBatch n (sqs w)) ->
  exists l1 l2, leased ++ leaseBatch n (sqs w) = l1 ++ b :: l2 /\
                In (MessageId a) (MessageId <$> l1).
Proof.
  intros w leased Hq Hnodup Hb.
  destruct (run_leaseLogged ops init [] init_leaseLogged) as [Hp Hd].
  fold w leased in Hp, Hd.
  destruct (available (sqs w) a) eqn:Ha.
  - destruct (leaseBatch_prefix _ _ _ _ _ _ _ Hq Hnodup Hb Ha) as (b1 & b2 & -> & Hin).
    exists (leased ++ b1), b2. split; [rewrite <- app_assoc; reflexivity|].
    rewrite fmap_app. apply List.in_or_app. right. apply List.in_map. exact Hin.
  - apply List.in_split in Hb as (b1 & b2 & Hb). rewrite Hb.
    exists (leased ++ b1), b2. split; [rewrite <- app_assoc; reflexivity|].
    rewrite fmap_app. apply List.in_or_app. left.
    destruct (available_false _ _ Ha) as [(p & Hpin & <-) | Hx].
    + apply Hp. exact Hpin.
    + apply Hd. exact Hx.
Qed.

(** C5: in any state that the queue reaches from its start, let [a] stand
    before [b] in [queue] (the order of their enqueues), both in one group,
    [b] without an earlier copy in [queue] (it was not pushed again by a
    retry). When a [receiveMessage] leases [b], then in the log of all
    leases, this one included, [a] comes before [b]: either [a] was leased
    by an earlier call, or this call leases it ahead of [b]. *)
Theorem leases_follow_enqueue_order_in_group (ops : list Op) (n : Z)
    (q1 q2 q3 batch : list OrderEventMessage) (a b : OrderEventMessage) (w' : World) :
  let w := fst (run ops init []) in
  let leased := snd (run ops init []) in
  queue (sqs w) = q1 ++ a :: q2 ++ b :: q3 ->
  GroupId (Attributes a) = GroupId (Attributes b) ->
  ~ In (MessageId b) (MessageId <$> (q1 ++ a :: q2)) ->
  receiveMessage n w = (Ok batch, w') ->
  In b batch ->
  exists l1 l2, leased ++ batch = l1 ++ b :: l2 /\
                In (MessageId a) (MessageId <$> l1).
Proof.
  intros w leased Hq _ Hnodup Hrecv Hb.
  destruct (receiveMessage_spec n w) as (w1 & Hspec & _).
  rewrite Hspec in Hrecv. injection Hrecv as <- _.
  apply (lease_order_is_queue_order ops n q1 a q2 b q3); assumption.
Qed.

Lemma leases_follow_enqueue_order_in_group_witness :
  exists l1 l2, [] ++ [message1; message2] = l1 ++ message2 :: l2 /\
                In (MessageId message1) (MessageId <$> l1).
Proof.
  apply (leases_follow_enqueue_order_in_group twoSends 5 [] [] [] [message1; message2]
           message1 message2 (snd (receiveMessage 5 (fst (run twoSends init []))))).
  - reflexivity.
  - reflexivity.
  - vm_compute. intros [H|[]]. discriminate H.
  - reflexivity.
  - right. left. reflexivity.
Defined.

(** * Further properties of the queue *)

(** ** [purgeQueue] *)

Lemma purgeQueue_sqs w :
  purgeQueue w =
    (Ok tt,
     logged ["Queue purged"]
       (with_sqs (fun s => {| queue := []; processingQueue := [];
                              processedMessages := ∅; deduplicationCache := ∅;
                              timers := timers s |}) w)).
Proof. reflexivity. Qed.

(** X1: [purgeQueue] never throws; after it the attributes report no
    message and none in flight, a lease returns nothing, and no token is
    treated as a duplicate any more, whatever the time. *)
Theorem purge_resets_queue_and_tokens (w : World) :
  let w' := snd (purgeQueue w) in
  fst (purgeQueue w) = Ok tt /\
  fst (getQueueAttributes w') =
    Ok {| ApproximateNumberOfMessages := 0;
          ApproximateNumberOfMessagesNotVisible := 0;
          ApproximateNumberOfMessagesDelayed := 0 |} /\
  (forall n, receiveMessage n w' = (Ok [], w')) /\
  (forall tok ts, isDuplicate tok ts (sqs w') = false).
Proof.
  rewrite purgeQueue_sqs. cbn [fst snd].
  split; [reflexivity|]. split; [reflexivity|]. split.
  - intros n. unfold receiveMessage, bind, gets. cbn.
    unfold slice0. destruct (n <? 0); rewrite take_nil; reflexivity.
  - intros tok ts. unfold isDuplicate. cbn. rewrite lookup_empty. reflexivity.
Qed.

(** X2: [purgeQueue] does not cancel the retry timers. A message that was
    returned for retry before the purge is pushed onto the purged queue
    when its timer runs, and it is then available for lease again. *)
Theorem purge_keeps_retry_timers (w : World) (h : string) (now later : Z)
    (i : nat) (m : OrderEventMessage) :
  findIndex (hasHandle h) (processingQueue (sqs w)) = Some i ->
  processingQueue (sqs w) !! i = Some m ->
  now + 1000 <= later ->
  let w1 := snd (returnMessage h now w) in
  let w2 := snd (purgeQueue w1) in
  let w3 := snd (runTimers later w2) in
  timers (sqs w2) = timers (sqs w) ++ [(now + 1000, m, 1)] /\
  In m (queue (sqs w3)) /\
  available (sqs w3) m = true.
Proof.
  intros Hi Hm Hlater w1 w2 w3.
  assert (Hw1 : w1 = rescheduled i m now w).
  { unfold w1. rewrite (returnMessage_found _ _ _ _ _ Hi Hm). reflexivity. }
  assert (Hs3 : sqs w3 =
     {| queue := timerMessages (List.filter (isDue later)
                   (timers (sqs w) ++ [(now + 1000, m, 1)]));
        processingQueue := []; processedMessages := ∅; deduplicationCache := ∅;
        timers := List.filter (fun t => negb (isDue later t))
                    (timers (sqs w) ++ [(now + 1000, m, 1)]) |}).
  { unfold w3. rewrite runTimers_sqs. unfold w2. rewrite purgeQueue_sqs, Hw1. reflexivity. }
  split; [unfold w2; rewrite purgeQueue_sqs, Hw1; reflexivity|].
  rewrite Hs3. cbn [queue]. split.
  - rewrite filter_isDue_last by (unfold isDue; simpl; apply Z.leb_le; exact Hlater).
    rewrite timerMessages_app. apply List.in_or_app. right. left. reflexivity.
  - unfold available. cbn. rewrite bool_decide_eq_false_2 by set_solver. reflexivity.
Qed.

Lemma purge_keeps_retry_timers_witness :
  let w1 := snd (returnMessage handle1 10 oneLeased) in
  let w2 := snd (purgeQueue w1) in
  let w3 := snd (runTimers 1010 w2) in
  timers (sqs w2) = timers (sqs oneLeased) ++ [(10 + 1000, message1, 1)] /\
  In message1 (queue (sqs w3)) /\
  available (sqs w3) message1 = true.
Proof.
  apply (purge_keeps_retry_timers oneLeased handle1 10 1010 0%nat message1).
  - vm_compute. reflexivity.
  - vm_compute. reflexivity.
  - vm_compute. discriminate.
Defined.

(** ** The cleanup of the deduplication cache *)

Lemma cleanup_sqs now w :
  sqs (snd (cleanup now w)) =
    set_deduplicationCache
      (filter (fun kv => negb (now - snd kv >? deduplicationWindowMs))
              (deduplicationCache (sqs w))) (sqs w).
Proof. reflexivity. Qed.

(** X3: one run of the cleanup removes exactly the recordings older than
    the deduplication window and changes nothing else in the queue; and it
    is invisible to deduplication: for every token and every time not
    before the cleanup, [isDuplicate] answers as it did before. *)
Theorem cleanup_evicts_only_expired (w : World) (now : Z) :
  let w' := snd (cleanup now w) in
  (forall tok,
     deduplicationCache (sqs w') !! tok =
       match deduplicationCache (sqs w) !! tok with
       | Some t => if now - t >? deduplicationWindowMs then None else Some t
       | None => None
       end) /\
  queue (sqs w') = queue (sqs w) /\
  processingQueue (sqs w') = processingQueue (sqs w) /\
  processedMessages (sqs w') = processedMessages (sqs w) /\
  timers (sqs w') = timers (sqs w) /\
  (forall tok ts, now <= ts ->
     isDuplicate tok ts (sqs w') = isDuplicate tok ts (sqs w)).
Proof.
  intros w'. unfold w'. rewrite cleanup_sqs. cbn.
  assert (Hlook : forall tok,
    filter (fun kv : string * Z => negb (now - snd kv >? deduplicationWindowMs))
           (deduplicationCache (sqs w)) !! tok =
    match deduplicationCache (sqs w) !! tok with
    | Some t => if now - t >? deduplicationWindowMs then None else Some t
    | None => None
    end).
  { intros tok. destruct (deduplicationCache (sqs w) !! tok) as [t|] eqn:E.
    - destruct (now - t >? deduplicationWindowMs) eqn:G.
      + apply map_lookup_filter_None. right. intros x Hx.
        assert (x = t) as -> by congruence. simpl. rewrite G. simpl. tauto.
      + apply map_lookup_filter_Some. split; [exact E|]. simpl. rewrite G. exact I.
    - apply map_lookup_filter_None. left. exact E. }
  split; [exact Hlook|]. repeat split.
  intros tok ts Hts. unfold isDuplicate. cbn. rewrite Hlook.
  destruct (deduplicationCache (sqs w) !! tok) as [t|]; [|reflexivity].
  destruct (now - t >? deduplicationWindowMs) eqn:G; [|reflexivity].
  destruct (t =? 0); [reflexivity|].
  symmetry. apply Z.ltb_ge. apply Z.gtb_lt in G. lia.
Qed.

Lemma cleanup_evicts_only_expired_witness :
  isDuplicate "update_missing_completed_1" 400000 (sqs (snd (cleanup 400000 oneRecorded))) =
  isDuplicate "update_missing_completed_1" 400000 (sqs oneRecorded).
Proof.
  apply (cleanup_evicts_only_expired oneRecorded 400000). vm_compute. discriminate.
Defined.

(** ** Expiry of a recording *)

(** X4: once the deduplication window has passed since the recording of a
    token, an enqueue with that token is accepted again: it appends one
    message to [queue] and refreshes the recording to its own time. *)
Theorem token_accepted_after_window (w : World) (event : NewEvent) (e : Entropy) (t : Z) :
  deduplicationCache (sqs w) !! ne_deduplicationId event = Some t ->
  deduplicationWindowMs <= date_now e - t ->
  let w' := snd (sendMessage event e w) in
  fst (sendMessage event e w) = Ok (resultOf e) /\
  queue (sqs w') = queue (sqs w) ++ [mkMessage event e] /\
  deduplicationCache (sqs w') !! ne_deduplicationId event = Some (date_now e).
Proof.
  intros Hl Hw w'.
  assert (Hd : isDuplicate (ne_deduplicationId event) (date_now e) (sqs w) = false).
  { unfold isDuplicate. rewrite Hl. destruct (t =? 0); [reflexivity|].
    apply Z.ltb_ge. exact Hw. }
  destruct (sendMessage_fresh _ _ _ Hd) as [Hr Hs]. unfold w'. rewrite Hs. cbn.
  split; [exact Hr|]. split; [reflexivity|]. apply lookup_insert_eq.
Qed.

Lemma token_accepted_after_window_witness :
  let w' := snd (sendMessage updateMissing entropyLate oneRecorded) in
  fst (sendMessage updateMissing entropyLate oneRecorded) = Ok (resultOf entropyLate) /\
  queue (sqs w') = queue (sqs oneRecorded) ++ [mkMessage updateMissing entropyLate] /\
  deduplicationCache (sqs w') !! ne_deduplicationId updateMissing = Some (date_now entropyLate).
Proof.
  apply (token_accepted_after_window oneRecorded updateMissing entropyLate 1).
  - vm_compute. reflexivity.
  - vm_compute. discriminate.
Defined.

(** ** [receiveMessage] *)

(** X5: the size of a lease. With a non-negative maximum the lease holds
    at most that many messages; with a negative maximum [slice] counts from
    the end, so the lease holds all available messages but the last [-n].
    A lease that returns nothing changes nothing, the console included. *)
Theorem lease_size (n : Z) (w w' : World) (batch : list OrderEventMessage) :
  receiveMessage n w = (Ok batch, w') ->
  (0 <= n -> Z.of_nat (length batch) =
             Z.min n (Z.of_nat (length (availableMessages (sqs w))))) /\
  (n < 0 -> Z.of_nat (length batch) =
            Z.max 0 (Z.of_nat (length (availableMessages (sqs w))) + n)) /\
  (batch = [] -> w' = w).
Proof.
  intros H.
  assert (Hb : batch = slice0 n (availableMessages (sqs w))).
  { destruct (receiveMessage_spec n w) as (w1 & Hr & _). rewrite Hr in H.
    injection H as <- _. reflexivity. }
  split; [|split].
  - intros Hn. rewrite Hb. unfold slice0.
    destruct (n <? 0) eqn:E; [apply Z.ltb_lt in E; lia|].
    rewrite length_take. lia.
  - intros Hn. rewrite Hb. unfold slice0.
    destruct (n <? 0) eqn:E; [|apply Z.ltb_ge in E; lia].
    rewrite length_take. lia.
  - intros Hnil. subst batch. unfold receiveMessage, bind at 1, gets in H.
    cbv beta iota in H. fold (availableMessages (sqs w)) in H.
    rewrite Hnil in H. cbn in H. injection H as <-. reflexivity.
Qed.

Lemma lease_size_witness :
  (0 <= 5 -> Z.of_nat (length [message1]) =
             Z.min 5 (Z.of_nat (length (availableMessages (sqs oneRecorded))))) /\
  (5 < 0 -> Z.of_nat (length [message1]) =
            Z.max 0 (Z.of_nat (length (availableMessages (sqs oneRecorded))) + 5)) /\
  ([message1] = [] -> oneLeased = oneRecorded).
Proof.
  apply (lease_size 5 oneRecorded oneLeased [message1]). vm_compute. reflexivity.
Defined.

Lemma leased_messages_were_available_aux n w w' batch :
  receiveMessage n w = (Ok batch, w') ->
  forall m, In m batch ->
    In m (queue (sqs w)) /\ MessageId m ∉ processedMessages (sqs w).
Proof.
  intros H m Hm. destruct (receiveMessage_spec n w) as (w1 & Hr & _).
  rewrite Hr in H. injection H as <- _.
  apply leaseBatch_In in Hm as [Hq Hav]. split; [exact Hq|].
  unfold available in Hav. apply andb_true_iff in Hav as [_ H2].
  apply negb_true_iff in H2. apply bool_decide_eq_false in H2. exact H2.
Qed.

(** X6: every message of a lease comes from [queue] and, at the time of
    the call, no message in the processing queue has its id and its id is
    not in [processedMessages]; the lease appends its messages to the
    processing queue and changes nothing else of the queue state. *)
Theorem leased_messages_were_available (n : Z) (w w' : World)
    (batch : list OrderEventMessage) :
  receiveMessage n w = (Ok batch, w') ->
  (forall m, In m batch ->
     In m (queue (sqs w)) /\
     (forall p, In p (processingQueue (sqs w)) -> MessageId p <> MessageId m) /\
     MessageId m ∉ processedMessages (sqs w)) /\
  processingQueue (sqs w') = processingQueue (sqs w) ++ batch /\
  queue (sqs w') = queue (sqs w) /\
  processedMessages (sqs w') = processedMessages (sqs w) /\
  deduplicationCache (sqs w') = deduplicationCache (sqs w) /\
  timers (sqs w') = timers (sqs w).
Proof.
  intros H. destruct (receiveMessage_spec n w) as (w1 & Hr & Hs).
  rewrite Hr in H. injection H as <- <-. rewrite Hs. cbn.
  split; [|repeat split].
  intros m Hm. apply leaseBatch_In in Hm as [Hq Hav]. split; [exact Hq|].
  unfold available in Hav. apply andb_true_iff in Hav as [H1 H2]. split.
  - intros p Hp Heq. apply negb_true_iff in H1.
    assert (Hex : existsb (fun processing =>
                    String.eqb (MessageId processing) (MessageId m))
                    (processingQueue (sqs w)) = true).
    { apply List.existsb_exists. exists p. split; [exact Hp|].
      apply String.eqb_eq. exact Heq. }
    congruence.
  - apply negb_true_iff in H2. apply bool_decide_eq_false in H2. exact H2.
Qed.

Lemma leased_messages_were_available_witness :
  (forall m, In m [message1] ->
     In m (queue (sqs oneRecorded)) /\
     (forall p, In p (processingQueue (sqs oneRecorded)) -> MessageId p <> MessageId m) /\
     MessageId m ∉ processedMessages (sqs oneRecorded)) /\
  processingQueue (sqs oneLeased) = processingQueue (sqs oneRecorded) ++ [message1] /\
  queue (sqs oneLeased) = queue (sqs oneRecorded) /\
  processedMessages (sqs oneLeased) = processedMessages (sqs oneRecorded) /\
  deduplicationCache (sqs oneLeased) = deduplicationCache (sqs oneRecorded) /\
  timers (sqs oneLeased) = timers (sqs oneRecorded).
Proof.
  apply (leased_messages_were_available 5 oneRecorded oneLeased [message1]).
  vm_compute. reflexivity.
Defined.

(** ** Sequences without a purge *)

Lemma run_log ops : forall w leased,
  run ops w leased = (fst (run ops w []), leased ++ snd (run ops w [])).
Proof.
  induction ops as [|op ops IH]; intros w leased; simpl.
  - rewrite app_nil_r. reflexivity.
  - destruct (step op w) as [w' batch]. rewrite (IH w' (leased ++ batch)).
    rewrite (IH w' batch). cbn [fst snd]. rewrite <- app_assoc. reflexivity.
Qed.

Lemma step_monotone op w :
  notPurge op ->
  processedMessages (sqs w) ⊆ processedMessages (sqs (fst (step op w))) /\
  exists q, queue (sqs (fst (step op w))) = queue (sqs w) ++ q.
Proof.
  intros Hop. destruct op as [event e|n|h|h now|now|now|]; simpl; try contradiction.
  - destruct (isDuplicate (ne_deduplicationId event) (date_now e) (sqs w)) eqn:Hd.
    + rewrite (sendMessage_duplicate _ _ _ Hd). cbn. split; [reflexivity|].
      exists []. rewrite app_nil_r. reflexivity.
    + destruct (sendMessage_fresh _ _ _ Hd) as [_ ->]. cbn. split; [reflexivity|eauto].
  - destruct (receiveMessage_spec n w) as (w' & Hr & Hs). rewrite Hr. cbn [fst].
    rewrite Hs. cbn. split; [reflexivity|]. exists []. rewrite app_nil_r. reflexivity.
  - destruct (deleteMessage_cases h w) as [-> | (i & m' & _ & ->)]; cbn.
    + split; [reflexivity|]. exists []. rewrite app_nil_r. reflexivity.
    + split; [set_solver|]. exists []. rewrite app_nil_r. reflexivity.
  - destruct (returnMessage_cases h now w) as [-> | (i & m' & _ & ->)]; cbn;
      (split; [reflexivity|]; exists []; rewrite app_nil_r; reflexivity).
  - rewrite runTimers_sqs. cbn. split; [reflexivity|eauto].
  - split; [reflexivity|]. exists []. rewrite app_nil_r. reflexivity.
Qed.

Lemma step_batch_available op w m :
  In m (snd (step op w)) ->
  In m (queue (sqs w)) /\ MessageId m ∉ processedMessages (sqs w).
Proof.
  destruct op as [event e|n|h|h now|now|now|]; simpl; try contradiction.
  destruct (receiveMessage n w) as [[batch|err] w'] eqn:Hr; simpl; [|contradiction].
  intros Hm. destruct (leased_messages_were_available_aux n w w' batch Hr m Hm) as (H1 & H2).
  split; assumption.
Qed.

Lemma run_monotone ops : forall w leased,
  Forall notPurge ops ->
  processedMessages (sqs w) ⊆ processedMessages (sqs (fst (run ops w leased))) /\
  exists q, queue (sqs (fst (run ops w leased))) = queue (sqs w) ++ q.
Proof.
  induction ops as [|op ops IH]; intros w leased Hall.
  - simpl. split; [reflexivity|]. exists []. rewrite app_nil_r. reflexivity.
  - apply Forall_cons in Hall as [Hop Hrest]. simpl.
    destruct (step_monotone op w Hop) as (Hp & q & Hq).
    destruct (step op w) as [w' batch]. cbn [fst] in Hp, Hq.
    destruct (IH w' (leased ++ batch) Hrest) as (Hp' & q' & Hq').
    split; [etransitivity; eassumption|].
    exists (q ++ q'). rewrite Hq', Hq, app_assoc. reflexivity.
Qed.

Lemma processed_never_leased ops : forall w x,
  Forall notPurge ops ->
  x ∈ processedMessages (sqs w) ->
  forall m, In m (snd (run ops w [])) -> MessageId m <> x.
Proof.
  induction ops as [|op ops IH]; intros w x Hall Hx m Hm; [destruct Hm|].
  apply Forall_cons in Hall as [Hop Hrest]. simpl in Hm.
  destruct (step_monotone op w Hop) as (Hp & _).
  pose proof (step_batch_available op w m) as Hb.
  destruct (step op w) as [w' batch]. cbn [fst snd] in Hp, Hb.
  rewrite run_log in Hm. cbn [snd] in Hm. apply List.in_app_iff in Hm as [Hm|Hm].
  - destruct (Hb Hm) as [_ Hn]. intros Heq. subst x. contradiction.
  - apply (IH w' x Hrest); [eapply elem_of_weaken; eassumption | exact Hm].
Qed.

(** X7: once a message has been acknowledged, no later [receiveMessage]
    returns a message with its id, whatever operations follow, as long as
    the queue is not purged. *)
Theorem acknowledged_never_leased_again (w w1 : World) (h : string) (ops : list Op) :
  deleteMessage h w = (Ok tt, w1) ->
  Forall notPurge ops ->
  exists m, In m (processingQueue (sqs w)) /\ ReceiptHandle m = h /\
            MessageId m ∈ processedMessages (sqs w1) /\
            forall m', In m' (snd (run ops w1 [])) -> MessageId m' <> MessageId m.
Proof.
  intros Hdel Hops.
  destruct (findIndex (hasHandle h) (processingQueue (sqs w))) as [i|] eqn:Hi.
  - destruct (findIndex_Some _ _ _ Hi) as (m & Hm & Hh).
    rewrite (deleteMessage_found _ _ _ _ Hi Hm) in Hdel. injection Hdel as <-.
    exists m. split; [eapply lookup_In; exact Hm|].
    split; [apply String.eqb_eq; exact Hh|].
    assert (Hin : MessageId m ∈ processedMessages (sqs (acknowledged i m w)))
      by (cbn; set_solver).
    split; [exact Hin|]. apply processed_never_leased; assumption.
  - unfold deleteMessage, bind, gets in Hdel. rewrite Hi in Hdel. discriminate.
Qed.

Lemma acknowledged_never_leased_again_witness :
  exists m, In m (processingQueue (sqs oneLeased)) /\ ReceiptHandle m = handle1 /\
            MessageId m ∈ processedMessages (sqs oneAcknowledged) /\
            forall m', In m' (snd (run [OpReceive 5; OpTimers 5000; OpReceive 5]
                                       oneAcknowledged [])) ->
                       MessageId m' <> MessageId m.
Proof.
  apply (acknowledged_never_leased_again oneLeased oneAcknowledged handle1
           [OpReceive 5; OpTimers 5000; OpReceive 5]).
  - vm_compute. reflexivity.
  - repeat constructor.
Defined.

(** X8: no operation but [purgeQueue] ever removes a message from [queue]:
    after any sequence of the other operations [queue] is the old [queue]
    with messages appended, so the count that [getQueueAttributes] reports
    as ApproximateNumberOfMessages never decreases. *)
Theorem queue_only_grows_without_purge (ops : list Op) (w : World) :
  Forall notPurge ops ->
  let w' := fst (run ops w []) in
  (exists q, queue (sqs w') = queue (sqs w) ++ q) /\
  forall a a', fst (getQueueAttributes w) = Ok a ->
               fst (getQueueAttributes w') = Ok a' ->
               ApproximateNumberOfMessages a <= ApproximateNumberOfMessages a'.
Proof.
  intros Hops w'. destruct (run_monotone ops w [] Hops) as (_ & q & Hq).
  fold w' in Hq. split; [eauto|].
  intros a a' Ha Ha'. cbn in Ha, Ha'. injection Ha as <-. injection Ha' as <-.
  cbn. rewrite Hq, length_app. lia.
Qed.

Lemma queue_only_grows_without_purge_witness :
  let w' := fst (run [OpReceive 5; OpDelete handle1; OpCleanup 9] oneRecorded []) in
  (exists q, queue (sqs w') = queue (sqs oneRecorded) ++ q) /\
  forall a a', fst (getQueueAttributes oneRecorded) = Ok a ->
               fst (getQueueAttributes w') = Ok a' ->
               ApproximateNumberOfMessages a <= ApproximateNumberOfMessages a'.
Proof.
  apply (queue_only_grows_without_purge [OpReceive 5; OpDelete handle1; OpCleanup 9]
           oneRecorded).
  repeat constructor.
Defined.

(** ** Enqueue and the consumer *)

Lemma sendMessage_ok (w : World) (event : NewEvent) (e : Entropy) :
  fst (sendMessage event e w) = Ok (resultOf e).
Proof.
  destruct (isDuplicate (ne_deduplicationId event) (date_now e) (sqs w)) eqn:Hd.
  - rewrite (sendMessage_duplicate _ _ _ Hd). reflexivity.
  - apply (sendMessage_fresh _ _ _ Hd).
Qed.

(** X9: [sendMessage] never throws: suppressed or not, it returns the id
    it generated. *)
Theorem sendMessage_always_accepts (w : World) (event : NewEvent) (e : Entropy) :
  fst (sendMessage event e w) =
    Ok {| sr_MessageId := generateMessageId (id_now e) (id_rnd e) |}.
Proof. apply sendMessage_ok. Qed.

Lemma sendMessage_fresh_running event e w :
  isDuplicate (ne_deduplicationId event) (date_now e) (sqs w) = false ->
  isRunning (snd (sendMessage event e w)) = true.
Proof.
  intros H.
  cbv beta iota zeta delta [sendMessage emit_messageReceived bind gets modify log ret].
  rewrite H.
  cbv beta iota zeta delta [with_sqs with_isRunning isRunning].
  destruct w as [s r p [] c]; reflexivity.
Qed.

(** X10: stopping the consumer is not lasting: [stop] leaves it stopped,
    but the next enqueue that is not suppressed starts it again (the
    consumer listens for "messageReceived"); a suppressed enqueue leaves it
    stopped. *)
Theorem enqueue_restarts_stopped_consumer (w : World) (event : NewEvent) (e : Entropy) :
  let w1 := snd (OrderHandlerService.stop w) in
  isRunning w1 = false /\
  sqs w1 = sqs w /\
  isRunning (snd (sendMessage event e w1)) =
    negb (isDuplicate (ne_deduplicationId event) (date_now e) (sqs w)).
Proof.
  intros w1.
  assert (H1 : isRunning w1 = false /\ sqs w1 = sqs w).
  { unfold w1, OrderHandlerService.stop, bind, gets, modify, log.
    destruct w as [s r p [] c]; split; reflexivity. }
  destruct H1 as [Hr Hs]. split; [exact Hr|]. split; [exact Hs|].
  destruct (isDuplicate (ne_deduplicationId event) (date_now e) (sqs w)) eqn:Hd;
    rewrite <- Hs in Hd.
  - rewrite (sendMessage_duplicate _ _ _ Hd). exact Hr.
  - apply sendMessage_fresh_running. exact Hd.
Qed.

(** ** A handle after its acknowledgement *)

Lemma findIndex_middle {A} (p : A -> bool) l1 x l2 :
  Forall (fun y => p y = false) l1 -> p x = true ->
  findIndex p (l1 ++ x :: l2) = Some (length l1).
Proof.
  induction 1 as [|y l1 Hy _ IH]; intros Hx; simpl.
  - rewrite Hx. reflexivity.
  - rewrite Hy, (IH Hx). reflexivity.
Qed.

(** X11: a receipt handle that exactly one message in the processing
    queue bears is spent by its acknowledgement: [deleteMessage] removes
    that message and records its id as processed, and every further
    [deleteMessage] or [returnMessage] with the handle throws and changes
    nothing. *)
Theorem handle_is_spent_by_acknowledgement (w : World) (h : string)
    (p1 p2 : list OrderEventMessage) (m : OrderEventMessage) :
  processingQueue (sqs w) = p1 ++ m :: p2 ->
  ReceiptHandle m = h ->
  Forall (fun p => ReceiptHandle p <> h) (p1 ++ p2) ->
  exists w1,
    deleteMessage h w = (Ok tt, w1) /\
    processingQueue (sqs w1) = p1 ++ p2 /\
    MessageId m ∈ processedMessages (sqs w1) /\
    deleteMessage h w1 = (Throw "Message not found in processing queue", w1) /\
    forall now, returnMessage h now w1 =
                  (Throw "Message not found in processing queue", w1).
Proof.
  intros Hq Hh Hother.
  assert (Hi : findIndex (hasHandle h) (processingQueue (sqs w)) = Some (length p1)).
  { rewrite Hq. apply findIndex_middle.
    - apply Forall_app in Hother as [H1 _]. eapply Forall_impl; [exact H1|].
      intros p Hp. unfold hasHandle. apply String.eqb_neq. exact Hp.
    - unfold hasHandle. apply String.eqb_eq. exact Hh. }
  assert (Hm : processingQueue (sqs w) !! length p1 = Some m).
  { rewrite Hq. apply list_lookup_middle. reflexivity. }
  exists (acknowledged (length p1) m w).
  assert (Hp : processingQueue (sqs (acknowledged (length p1) m w)) = p1 ++ p2).
  { cbn. rewrite Hq. apply delete_middle. }
  assert (Hu : unknownHandle h (acknowledged (length p1) m w)).
  { unfold unknownHandle. rewrite Hp. exact Hother. }
  split; [apply deleteMessage_found; assumption|].
  split; [exact Hp|]. split; [cbn; set_solver|].
  split; [apply deleteMessage_unknown; exact Hu|].
  intros now. apply returnMessage_unknown. exact Hu.
Qed.

Lemma handle_is_spent_by_acknowledgement_witness :
  exists w1,
    deleteMessage handle1 oneLeased = (Ok tt, w1) /\
    processingQueue (sqs w1) = [] ++ [] /\
    MessageId message1 ∈ processedMessages (sqs w1) /\
    deleteMessage handle1 w1 = (Throw "Message not found in processing queue", w1) /\
    forall now, returnMessage handle1 now w1 =
                  (Throw "Message not found in processing queue", w1).
Proof.
  apply (handle_is_spent_by_acknowledgement oneLeased handle1 [] [] message1).
  - vm_compute. reflexivity.
  - vm_compute. reflexivity.
  - constructor.
Defined.

(** * Further properties of the consumer *)

Lemma bind_throw {A C} (c : M A) (k : A -> M C) w e w' :
  c w = (Throw e, w') -> bind c k w = (Throw e, w').
Proof. intros Hc. unfold bind. rewrite Hc. reflexivity. Qed.

Lemma try_catch_throw {A} (c : M A) (h : string -> M A) w e w' r :
  c w = (Throw e, w') -> h e w' = r -> try_catch c h w = r.
Proof. intros Hc Hh. unfold try_catch. rewrite Hc. exact Hh. Qed.

Lemma query_healthy {A} (run : PgState -> Res A * PgState) w :
  pgHealthy w ->
  OrderService.query run w = (fst (run (pg w)), with_pg (fun _ => snd (run (pg w))) w).
Proof.
  unfold pgHealthy, OrderService.query. intros ->. destruct (run (pg w)); reflexivity.
Qed.

Lemma command_healthy {A} (run : RedisState -> A * RedisState) w :
  redisHealthy w ->
  CacheService.command run w =
    (Ok (fst (run (redis w))), with_redis (fun _ => snd (run (redis w))) w).
Proof.
  unfold redisHealthy, CacheService.command. intros ->. destruct (run (redis w)); reflexivity.
Qed.

Lemma keeps_sqs_dispatch event env : keeps sqs (OrderHandlerService.dispatch event env).
Proof.
  unfold OrderHandlerService.dispatch, OrderHandlerService.handleCreateOrder,
    OrderHandlerService.handleUpdateOrder, OrderHandlerService.handleDeleteOrder.
  repeat first [ apply keeps_sqs_createOrder | apply keeps_sqs_updateOrderStatus
               | apply keeps_sqs_deleteOrder | apply keeps_sqs_invalidateOrderCache
               | keeps_step ].
Qed.

(** When the [switch] throws without touching the queue, the message is
    returned for retry. *)
Lemma processMessage_failed m env w wb err :
  In m (processingQueue (sqs w)) ->
  OrderHandlerService.dispatch (Body m) env (logged [processingLine m] w) = (Throw err, wb) ->
  sqs wb = sqs w ->
  exists i m',
    processingQueue (sqs w) !! i = Some m' /\
    ReceiptHandle m' = ReceiptHandle m /\
    OrderHandlerService.processMessage m env w =
      (Ok tt, rescheduled i m' (OrderHandlerService.now env) (logged [errorLine m err] wb)).
Proof.
  intros Hin Hd Hs.
  destruct (findIndex_In (hasHandle (ReceiptHandle m)) _ m Hin) as [i Hi].
  { unfold hasHandle. apply String.eqb_refl. }
  destruct (findIndex_Some _ _ _ Hi) as (m' & Hm' & Hh).
  exists i, m'. split; [exact Hm'|]. split; [apply String.eqb_eq; exact Hh|].
  unfold OrderHandlerService.processMessage. cbv zeta.
  eapply try_catch_throw.
  - eapply bind_ok; [reflexivity|]. apply bind_throw. exact Hd.
  - eapply bind_ok; [reflexivity|].
    apply (returnMessage_found _ _ (logged [errorLine m err] wb) i m');
      cbn; rewrite Hs; assumption.
Qed.

(** X12: processing a leased message never throws, whatever the event,
    the database and Redis do: the call returns, and the message found
    under the receipt handle has left the processing queue either
    acknowledged (its id processed, no timer set) or returned for retry
    (one timer set 1000 ms ahead, its id not added to the processed ids). *)
Theorem leased_message_is_acknowledged_or_retried (m : OrderEventMessage)
    (env : OrderHandlerService.Env) (w : World) :
  In m (processingQueue (sqs w)) ->
  exists i m' w',
    OrderHandlerService.processMessage m env w = (Ok tt, w') /\
    processingQueue (sqs w) !! i = Some m' /\
    ReceiptHandle m' = ReceiptHandle m /\
    (sqs w' = sqs (acknowledged i m' w) \/
     sqs w' = sqs (rescheduled i m' (OrderHandlerService.now env) w)).
Proof.
  intros Hin.
  pose proof (keeps_sqs_dispatch (Body m) env (logged [processingLine m] w)) as Hk.
  destruct (OrderHandlerService.dispatch (Body m) env (logged [processingLine m] w))
    as [[[]|err] wb] eqn:Hd; cbn in Hk.
  - destruct (processMessage_dispatched m env w wb Hin Hd Hk) as (i & m' & Hm' & Hh & Hp).
    exists i, m'. eexists. split; [exact Hp|]. split; [exact Hm'|]. split; [exact Hh|].
    left. cbn. rewrite Hk. reflexivity.
  - destruct (processMessage_failed m env w wb err Hin Hd Hk) as (i & m' & Hm' & Hh & Hp).
    exists i, m'. eexists. split; [exact Hp|]. split; [exact Hm'|]. split; [exact Hh|].
    right. cbn. rewrite Hk. reflexivity.
Qed.

Lemma leased_message_is_acknowledged_or_retried_witness :
  exists i m' w',
    OrderHandlerService.processMessage messageNoData envAda noDataLeased = (Ok tt, w') /\
    processingQueue (sqs noDataLeased) !! i = Some m' /\
    ReceiptHandle m' = ReceiptHandle messageNoData /\
    (sqs w' = sqs (acknowledged i m' noDataLeased) \/
     sqs w' = sqs (rescheduled i m' (OrderHandlerService.now envAda) noDataLeased)).
Proof.
  apply (leased_message_is_acknowledged_or_retried messageNoData envAda noDataLeased).
  vm_compute. left. reflexivity.
Defined.

Lemma dispatch_fails_validation event env wa :
  FailsValidation event ->
  exists err, OrderHandlerService.dispatch event env wa = (Throw err, wa).
Proof.
  intros [Ht Hd | Ht Hid | Ht Hd | Ht Hid]; unfold OrderHandlerService.dispatch;
    rewrite Ht; cbn [String.eqb Ascii.eqb Bool.eqb].
  - unfold OrderHandlerService.handleCreateOrder. rewrite Hd. eauto.
  - unfold OrderHandlerService.handleUpdateOrder. rewrite Hid. eauto.
  - unfold OrderHandlerService.handleUpdateOrder. rewrite Hd.
    destruct (CacheService.truthy (orderId event)); eauto.
  - unfold OrderHandlerService.handleDeleteOrder. rewrite Hid. eauto.
Qed.

(** X13: a leased message whose event fails the validation of its handler
    (CREATE without data, UPDATE without order id or data, DELETE without
    order id; an empty order id counts as missing) is returned for retry:
    the database and Redis are not touched, the message leaves the
    processing queue, is not marked processed, and a push is scheduled
    1000 ms ahead. *)
Theorem validation_failure_is_retried (m : OrderEventMessage)
    (env : OrderHandlerService.Env) (w : World) :
  In m (processingQueue (sqs w)) ->
  FailsValidation (Body m) ->
  exists i m' w',
    OrderHandlerService.processMessage m env w = (Ok tt, w') /\
    pg w' = pg w /\
    redis w' = redis w /\
    processingQueue (sqs w) !! i = Some m' /\
    ReceiptHandle m' = ReceiptHandle m /\
    processingQueue (sqs w') = delete i (processingQueue (sqs w)) /\
    processedMessages (sqs w') = processedMessages (sqs w) /\
    queue (sqs w') = queue (sqs w) /\
    timers (sqs w') = timers (sqs w) ++ [(OrderHandlerService.now env + 1000, m', 1)].
Proof.
  intros Hin Hfail.
  destruct (dispatch_fails_validation (Body m) env (logged [processingLine m] w) Hfail)
    as [err Hd].
  destruct (processMessage_failed m env w _ err Hin Hd eq_refl) as (i & m' & Hm' & Hh & Hp).
  exists i, m'. eexists. split; [exact Hp|]. cbn. repeat split; assumption.
Qed.

Lemma validation_failure_is_retried_witness :
  exists i m' w',
    OrderHandlerService.processMessage messageNoData envAda noDataLeased = (Ok tt, w') /\
    pg w' = pg noDataLeased /\
    redis w' = redis noDataLeased /\
    processingQueue (sqs noDataLeased) !! i = Some m' /\
    ReceiptHandle m' = ReceiptHandle messageNoData /\
    processingQueue (sqs w') = delete i (processingQueue (sqs noDataLeased)) /\
    processedMessages (sqs w') = processedMessages (sqs noDataLeased) /\
    queue (sqs w') = queue (sqs noDataLeased) /\
    timers (sqs w') =
      timers (sqs noDataLeased) ++ [(OrderHandlerService.now envAda + 1000, m', 1)].
Proof.
  apply (validation_failure_is_retried messageNoData envAda noDataLeased).
  - vm_compute. left. reflexivity.
  - apply CreateWithoutData; vm_compute; reflexivity.
Defined.

Lemma filter_all {A} (p : A -> bool) (l : list A) :
  Forall (fun x => p x = true) l -> List.filter p l = l.
Proof.
  induction 1 as [|x l Hx _ IH]; simpl; [reflexivity|]. rewrite Hx, IH. reflexivity.
Qed.

Lemma existsb_false_Forall {A} (p : A -> bool) (l : list A) :
  existsb p l = false -> Forall (fun x => p x = false) l.
Proof.
  induction l as [|x l IH]; simpl; intros H; constructor;
    apply orb_false_iff in H as [H1 H2]; auto.
Qed.

Lemma pg_eta p :
  {| orders := orders p; order_items := order_items p; txn := txn p;
     pg_faults := pg_faults p |} = p.
Proof. destruct p; reflexivity. Qed.

(** On a healthy database, an update or a deletion of an order that does
    not exist reports so, or the status does not fit its column, and
    nothing changes. *)
Lemma updateOrderStatus_missing id st w :
  pgHealthy w -> orderMissing id w ->
  exists r w', OrderService.updateOrderStatus id st w = (r, w') /\
               (r = Ok None \/ exists e, r = Throw e) /\
               sqs w' = sqs w /\ pg w' = pg w /\ redis w' = redis w /\
               console w' = console w.
Proof.
  unfold orderMissing. intros Hh Hm.
  unfold OrderService.updateOrderStatus, OrderService.UPDATE_status, bind.
  rewrite (query_healthy _ w Hh). cbv beta. rewrite Hm.
  destruct st as [status|]; [destruct (Column.varchar 50 status) as [st|e]|];
    cbn [fst snd]; do 2 eexists; (split; [reflexivity|]); cbn; rewrite ?pg_eta;
    repeat split; eauto.
Qed.

Lemma deleteOrder_missing id w :
  pgHealthy w -> orderMissing id w ->
  exists w', OrderService.deleteOrder id w = (Ok false, w') /\
             sqs w' = sqs w /\ pg w' = pg w /\ redis w' = redis w /\
             console w' = console w.
Proof.
  unfold orderMissing. intros Hh Hm.
  pose proof (existsb_false_Forall _ _ Hm) as Hall.
  assert (Hf1 : List.filter (OrderService.hasId id) (orders (pg w)) = []).
  { clear Hm. induction Hall as [|x l Hx _ IH]; simpl; [reflexivity|].
    rewrite Hx. exact IH. }
  assert (Hf2 : List.filter (fun r => negb (OrderService.hasId id r)) (orders (pg w))
                = orders (pg w)).
  { apply filter_all. eapply Forall_impl; [exact Hall|]. intros x ->. reflexivity. }
  unfold OrderService.deleteOrder, OrderService.DELETE_order, bind.
  rewrite (query_healthy _ w Hh). cbv beta. cbn [fst snd]. rewrite Hf1, Hf2, Hm.
  cbn [length Z.of_nat Z.ltb Z.compare].
  eexists. split; [reflexivity|]. cbn. rewrite ?pg_eta. repeat split.
Qed.

Lemma dispatch_missing_order event env wa id :
  targetsOrder event id -> pgHealthy wa -> orderMissing id wa ->
  exists err wb, OrderHandlerService.dispatch event env wa = (Throw err, wb) /\
                 sqs wb = sqs wa /\ pg wb = pg wa /\ redis wb = redis wa.
Proof.
  intros [Hid [[Ht [d Hd]] | Ht]] Hh Hm; unfold OrderHandlerService.dispatch;
    rewrite Ht; cbn [String.eqb Ascii.eqb Bool.eqb].
  - destruct (updateOrderStatus_missing id (OrderHandlerService.status_of d)
                (logged ["Updating order: " +:+ id] wa) Hh Hm)
      as (r & w' & Hu & [-> | [e ->]] & H1 & H2 & H3 & _);
      unfold OrderHandlerService.handleUpdateOrder; rewrite Hid, Hd;
      do 2 eexists; split.
    + eapply bind_ok; [reflexivity|]. eapply bind_ok; [exact Hu|]. reflexivity.
    + repeat split; assumption.
    + eapply bind_ok; [reflexivity|]. eapply bind_throw. exact Hu.
    + repeat split; assumption.
  - destruct (deleteOrder_missing id (logged ["Deleting order: " +:+ id] wa) Hh Hm)
      as (w' & Hu & H1 & H2 & H3 & _).
    unfold OrderHandlerService.handleDeleteOrder. rewrite Hid.
    do 2 eexists. split.
    + eapply bind_ok; [reflexivity|]. eapply bind_ok; [exact Hu|]. reflexivity.
    + repeat split; assumption.
Qed.

(** X14: on a healthy database, a leased UPDATE or DELETE that names an
    order absent from the orders table is not applied and is returned for
    retry: the database and Redis are unchanged (no cache invalidation
    happens), the message leaves the processing queue without being marked
    processed, and a push is scheduled 1000 ms ahead. *)
Theorem missing_order_is_retried (m : OrderEventMessage)
    (env : OrderHandlerService.Env) (w : World) (id : string) :
  In m (processingQueue (sqs w)) ->
  targetsOrder (Body m) id ->
  pgHealthy w ->
  orderMissing id w ->
  exists i m' w',
    OrderHandlerService.processMessage m env w = (Ok tt, w') /\
    pg w' = pg w /\
    redis w' = redis w /\
    processingQueue (sqs w) !! i = Some m' /\
    ReceiptHandle m' = ReceiptHandle m /\
    processingQueue (sqs w') = delete i (processingQueue (sqs w)) /\
    processedMessages (sqs w') = processedMessages (sqs w) /\
    queue (sqs w') = queue (sqs w) /\
    timers (sqs w') = timers (sqs w) ++ [(OrderHandlerService.now env + 1000, m', 1)].
Proof.
  intros Hin Htarget Hh Hm.
  destruct (dispatch_missing_order (Body m) env (logged [processingLine m] w) id
              Htarget Hh Hm) as (err & wb & Hd & H1 & H2 & H3).
  destruct (processMessage_failed m env w wb err Hin Hd H1) as (i & m' & Hm' & Hhd & Hp).
  exists i, m'. eexists. split; [exact Hp|]. cbn. rewrite H1, H2, H3.
  repeat split; assumption.
Qed.

Lemma missing_order_is_retried_witness :
  exists i m' w',
    OrderHandlerService.processMessage message1 envRetry oneLeased = (Ok tt, w') /\
    pg w' = pg oneLeased /\
    redis w' = redis oneLeased /\
    processingQueue (sqs oneLeased) !! i = Some m' /\
    ReceiptHandle m' = ReceiptHandle message1 /\
    processingQueue (sqs w') = delete i (processingQueue (sqs oneLeased)) /\
    processedMessages (sqs w') = processedMessages (sqs oneLeased) /\
    queue (sqs w') = queue (sqs oneLeased) /\
    timers (sqs w') =
      timers (sqs oneLeased) ++ [(OrderHandlerService.now envRetry + 1000, m', 1)].
Proof.
  apply (missing_order_is_retried message1 envRetry oneLeased "missing").
  - vm_compute. left. reflexivity.
  - split; [vm_compute; reflexivity|]. left. split; [vm_compute; reflexivity|].
    exists (PStatus "completed"). vm_compute. reflexivity.
  - vm_compute. reflexivity.
  - vm_compute. reflexivity.
Defined.

(** * Properties of the cache service *)

Lemma try_catch_log_ok (c : M unit) (f : string -> string) w :
  fst (try_catch c (fun error => log (f error)) w) = Ok tt.
Proof. unfold try_catch. destruct (c w) as [[[]|e] w']; reflexivity. Qed.

(** X16: no method of the cache service throws, whatever Redis does:
    every error is caught and logged. *)
Theorem cacheService_never_throws (w : World) (key : string) (value : CacheVal)
    (ttl : Z) (keys : list string) (orderId : option string) :
  (exists r, fst (CacheService.get key w) = Ok r) /\
  fst (CacheService.set key value ttl w) = Ok tt /\
  fst (CacheService.del key w) = Ok tt /\
  fst (CacheService.delMultiple keys w) = Ok tt /\
  fst (CacheService.clearAll w) = Ok tt /\
  fst (CacheService.invalidateOrderCache orderId w) = Ok tt.
Proof.
  split; [|repeat split; apply try_catch_log_ok].
  unfold CacheService.get, try_catch.
  destruct (CacheService.redis_get key w) as [[r|e] w']; eauto.
Qed.

Lemma command_rejected {A} (run : RedisState -> A * RedisState) w fs :
  redis_faults (redis w) = true :: fs ->
  CacheService.command run w =
    (Throw "Redis command failed", with_redis (CacheService.set_redis_faults fs) w).
Proof. unfold CacheService.command. intros ->. reflexivity. Qed.

(** X17: when Redis rejects the command, [get] answers with a miss even
    for a key that is stored, and [set], [del], [clearAll] and
    [invalidateOrderCache] leave the stored keys as they are. *)
Theorem rejected_command_is_a_miss (w : World) (fs : list bool) (key : string)
    (value : CacheVal) (ttl : Z) (orderId : option string) :
  redis_faults (redis w) = true :: fs ->
  fst (CacheService.get key w) = Ok None /\
  rkeys (redis (snd (CacheService.set key value ttl w))) = rkeys (redis w) /\
  rkeys (redis (snd (CacheService.del key w))) = rkeys (redis w) /\
  rkeys (redis (snd (CacheService.clearAll w))) = rkeys (redis w) /\
  rkeys (redis (snd (CacheService.invalidateOrderCache orderId w))) = rkeys (redis w).
Proof.
  intros Hf.
  unfold CacheService.get, CacheService.set, CacheService.del, CacheService.clearAll,
    CacheService.invalidateOrderCache, CacheService.invalidateOrderCache_try,
    CacheService.redis_get, CacheService.redis_setex, CacheService.redis_del,
    CacheService.redis_flushdb, CacheService.redis_exists, CacheService.redis_keys,
    try_catch, bind.
  destruct (CacheService.truthy orderId);
    rewrite !(command_rejected _ w fs Hf); repeat split.
Qed.

Lemma rejected_command_is_a_miss_witness :
  cached "order:a" redisRejecting = Some (COrder orderA) /\
  fst (CacheService.get "order:a" redisRejecting) = Ok None /\
  rkeys (redis (snd (CacheService.set "order:a" (CList []) 600 redisRejecting)))
    = rkeys (redis redisRejecting) /\
  rkeys (redis (snd (CacheService.del "order:a" redisRejecting)))
    = rkeys (redis redisRejecting) /\
  rkeys (redis (snd (CacheService.clearAll redisRejecting))) = rkeys (redis redisRejecting) /\
  rkeys (redis (snd (CacheService.invalidateOrderCache None redisRejecting)))
    = rkeys (redis redisRejecting).
Proof.
  split; [vm_compute; reflexivity|].
  apply (rejected_command_is_a_miss redisRejecting [] "order:a" (CList []) 600 None).
  vm_compute. reflexivity.
Defined.



Lemma get_healthy key w :
  redisHealthy w ->
  fst (CacheService.get key w) = Ok (cached key w).
Proof.
  intros Hh. unfold CacheService.get, CacheService.redis_get, try_catch.
  rewrite (command_healthy _ w Hh). reflexivity.
Qed.





Lemma find_filter_keeps_In {A} (p q : A -> bool) (l : list A) :
  (forall x, In x l -> p x = true -> q x = true) ->
  List.find p (List.filter q l) = List.find p l.
Proof.
  induction l as [|x l IH]; intros H; simpl; [reflexivity|].
  assert (IH' : List.find p (List.filter q l) = List.find p l).
  { apply IH. intros y Hy. apply H. right. exact Hy. }
  destruct (q x) eqn:Hq; simpl.
  - destruct (p x); [reflexivity | exact IH'].
  - destruct (p x) eqn:Hp; [|exact IH'].
    rewrite (H x (or_introl eq_refl) Hp) in Hq. discriminate.
Qed.

Lemma find_filter_drops_In {A} (p q : A -> bool) (l : list A) :
  (forall x, In x l -> p x = true -> q x = false) ->
  List.find p (List.filter q l) = None.
Proof.
  induction l as [|x l IH]; intros H; simpl; [reflexivity|].
  assert (IH' : List.find p (List.filter q l) = None).
  { apply IH. intros y Hy. apply H. right. exact Hy. }
  destruct (q x) eqn:Hq; simpl; [|exact IH'].
  destruct (p x) eqn:Hp; [|exact IH'].
  rewrite (H x (or_introl eq_refl) Hp) in Hq. discriminate.
Qed.

Lemma existsb_eqb_In (k : string) (keys : list string) :
  existsb (String.eqb k) keys = true <-> In k keys.
Proof.
  rewrite List.existsb_exists. split.
  - intros (x & Hx & He). apply String.eqb_eq in He. subst x. exact Hx.
  - intros H. exists k. split; [exact H | apply String.eqb_refl].
Qed.

Lemma filter_none {A} (l : list A) : List.filter (fun _ => true) l = l.
Proof. induction l as [|x l IH]; simpl; [reflexivity|]. rewrite IH. reflexivity. Qed.

Lemma invalidation_delete keys w :
  redisHealthy w ->
  exists w',
    (if (0 <? length keys)%nat
     then let! delResult := CacheService.redis_del keys in
          log ("Invalidated " +:+ string_of_Z delResult +:+ " cache keys out of "
               +:+ string_of_Z (Z.of_nat (length keys)) +:+ " found keys")
     else log "No cache keys found to invalidate") w = (Ok tt, w') /\
    rkeys (redis w') =
      List.filter (fun kv => negb (existsb (String.eqb (fst kv)) keys)) (rkeys (redis w)) /\
    redisHealthy w'.
Proof.
  intros Hh. destruct keys as [|k keys].
  - eexists. split; [reflexivity|]. split; [|exact Hh]. cbn. symmetry. apply filter_none.
  - eexists. split.
    + cbn [length Nat.ltb Nat.leb]. eapply bind_ok.
      * unfold CacheService.redis_del. apply command_healthy. exact Hh.
      * reflexivity.
    + split; [reflexivity | exact Hh].
Qed.

Lemma invalidation_collect orderId w :
  redisHealthy w ->
  exists w',
    match CacheService.truthy orderId with
    | Some id =>
        let orderKey := "order:" +:+ id in
        let! orderExists := CacheService.redis_exists orderKey in
        let keys := if orderExists then [orderKey] else [] in
        let! ordersListKeys := CacheService.redis_keys "orders:list:" in
        log ("Invalidating cache for specific order " +:+ id) ;;;
        ret (keys ++ ordersListKeys)
    | None =>
        let! orderKeys := CacheService.redis_keys "order:" in
        let! ordersListKeys := CacheService.redis_keys "orders:list:" in
        log "Invalidating ALL order-related cache" ;;;
        ret (orderKeys ++ ordersListKeys)
    end w = (Ok (invalidationKeys orderId (redis w)), w') /\
    redis w' = redis w.
Proof.
  intros Hh. unfold invalidationKeys, CacheService.redis_exists, CacheService.redis_keys.
  destruct (CacheService.truthy orderId) as [id|]; cbv zeta.
  - eexists. split.
    + eapply bind_ok; [apply command_healthy; exact Hh|].
      eapply bind_ok; [apply command_healthy; exact Hh|].
      eapply bind_ok; [reflexivity|]. reflexivity.
    + destruct w as [s [k f] p r c]. reflexivity.
  - eexists. split.
    + eapply bind_ok; [apply command_healthy; exact Hh|].
      eapply bind_ok; [apply command_healthy; exact Hh|].
      eapply bind_ok; [reflexivity|]. reflexivity.
    + destruct w as [s [k f] p r c]. reflexivity.
Qed.

(** On a healthy Redis [invalidateOrderCache] deletes exactly the keys it
    collected. *)
Lemma invalidateOrderCache_healthy_run orderId w :
  redisHealthy w ->
  exists w',
    CacheService.invalidateOrderCache orderId w = (Ok tt, w') /\
    rkeys (redis w') =
      List.filter (fun kv => negb (existsb (String.eqb (fst kv))
                                           (invalidationKeys orderId (redis w))))
                  (rkeys (redis w)) /\
    redisHealthy w'.
Proof.
  intros Hh.
  destruct (invalidation_collect orderId w Hh) as (w1 & Hc & Hr).
  assert (Hh1 : redisHealthy w1) by (unfold redisHealthy; rewrite Hr; exact Hh).
  destruct (invalidation_delete (invalidationKeys orderId (redis w)) w1 Hh1)
    as (w2 & Hd & Hk & Hh2).
  exists w2. split; [|split; [rewrite Hk, Hr; reflexivity | exact Hh2]].
  unfold CacheService.invalidateOrderCache. eapply try_catch_ok.
  unfold CacheService.invalidateOrderCache_try. eapply bind_ok; [exact Hc | exact Hd].
Qed.

Lemma invalidateOrderCache_healthy orderId w :
  redisHealthy w ->
  rkeys (redis (snd (CacheService.invalidateOrderCache orderId w))) =
    List.filter (fun kv => negb (existsb (String.eqb (fst kv))
                                         (invalidationKeys orderId (redis w))))
                (rkeys (redis w)).
Proof.
  intros Hh. destruct (invalidateOrderCache_healthy_run orderId w Hh) as (w' & -> & Hk & _).
  exact Hk.
Qed.

Lemma In_keys (kv : string * CacheVal) (l : list (string * CacheVal)) :
  In kv l -> In (fst kv) (fst <$> l).
Proof. intros H. apply List.in_map. exact H. Qed.

Lemma hit_false (k : string) (keys : list string) :
  ~ In k keys -> negb (existsb (String.eqb k) keys) = true.
Proof.
  intros H. apply negb_true_iff. destruct (existsb (String.eqb k) keys) eqn:E;
    [|reflexivity]. apply existsb_eqb_In in E. contradiction.
Qed.

Lemma hit_true (k : string) (keys : list string) :
  In k keys -> negb (existsb (String.eqb k) keys) = false.
Proof. intros H. apply negb_false_iff. apply existsb_eqb_In. exact H. Qed.

(** X19: on a healthy Redis, [invalidateOrderCache] without an order id
    (or with the empty string, which is falsy) removes every key that
    starts with "order:" or with "orders:list:" and no other key: after it
    such a key is a miss and every other key holds what it held. *)
Theorem invalidate_all_removes_order_keys (w : World) (orderId : option string)
    (key : string) :
  redisHealthy w ->
  CacheService.truthy orderId = None ->
  cached key (snd (CacheService.invalidateOrderCache orderId w)) =
    if String.prefix "order:" key || String.prefix "orders:list:" key
    then None else cached key w.
Proof.
  intros Hh Ht. unfold cached. rewrite (invalidateOrderCache_healthy _ _ Hh).
  unfold invalidationKeys. rewrite Ht.
  destruct (String.prefix "order:" key || String.prefix "orders:list:" key) eqn:Hp.
  - rewrite find_filter_drops_In; [reflexivity|].
    intros kv Hin Hk. unfold CacheService.hasKey in Hk. apply String.eqb_eq in Hk.
    apply hit_true. apply List.in_or_app. apply In_keys in Hin. rewrite Hk in *.
    apply orb_true_iff in Hp as [Hp|Hp]; [left|right]; apply List.filter_In; auto.
  - rewrite find_filter_keeps_In; [reflexivity|].
    intros kv Hin Hk. unfold CacheService.hasKey in Hk. apply String.eqb_eq in Hk.
    apply hit_false. rewrite Hk. apply orb_false_iff in Hp as [Hp1 Hp2].
    intros H. apply List.in_app_iff in H as [H|H]; apply List.filter_In in H as [_ H];
      congruence.
Qed.

Lemma invalidate_all_removes_order_keys_witness :
  cached "order:b" cachedWorld = Some (COrder orderA) /\
  cached "order:b" (snd (CacheService.invalidateOrderCache (Some "") cachedWorld)) =
    if String.prefix "order:" "order:b" || String.prefix "orders:list:" "order:b"
    then None else cached "order:b" cachedWorld.
Proof.
  split; [vm_compute; reflexivity|].
  apply (invalidate_all_removes_order_keys cachedWorld (Some "") "order:b");
    vm_compute; reflexivity.
Defined.

(** X20: on a healthy Redis, [invalidateOrderCache] with an order id
    removes the key of that order and every key that starts with
    "orders:list:", and no other key: the cached entries of other orders
    stay. *)
Theorem invalidate_one_keeps_other_orders (w : World) (orderId : option string)
    (id key : string) :
  redisHealthy w ->
  CacheService.truthy orderId = Some id ->
  cached key (snd (CacheService.invalidateOrderCache orderId w)) =
    if String.eqb key ("order:" +:+ id) || String.prefix "orders:list:" key
    then None else cached key w.
Proof.
  intros Hh Ht. unfold cached. rewrite (invalidateOrderCache_healthy _ _ Hh).
  unfold invalidationKeys. rewrite Ht.
  destruct (String.eqb key ("order:" +:+ id) || String.prefix "orders:list:" key) eqn:Hp.
  - rewrite find_filter_drops_In; [reflexivity|].
    intros kv Hin Hk. pose proof Hk as Hk'.
    unfold CacheService.hasKey in Hk. apply String.eqb_eq in Hk.
    apply hit_true. apply List.in_or_app. rewrite Hk.
    apply orb_true_iff in Hp as [Hp|Hp].
    + left. apply String.eqb_eq in Hp. subst key.
      assert (He : existsb (CacheService.hasKey ("order:" +:+ id)) (rkeys (redis w)) = true).
      { apply List.existsb_exists. exists kv. split; assumption. }
      rewrite He. left. reflexivity.
    + right. apply List.filter_In. split; [|exact Hp].
      rewrite <- Hk. apply In_keys. exact Hin.
  - rewrite find_filter_keeps_In; [reflexivity|].
    intros kv Hin Hk. unfold CacheService.hasKey in Hk. apply String.eqb_eq in Hk.
    apply hit_false. rewrite Hk. apply orb_false_iff in Hp as [Hp1 Hp2].
    apply String.eqb_neq in Hp1.
    intros H. apply List.in_app_iff in H as [H|H].
    + destruct (existsb (CacheService.hasKey ("order:" +:+ id)) (rkeys (redis w)));
        [destruct H as [H|[]]; congruence | destruct H].
    + apply List.filter_In in H as [_ H]. congruence.
Qed.

Lemma invalidate_one_keeps_other_orders_witness :
  cached "order:b" (snd (CacheService.invalidateOrderCache (Some "a") cachedWorld)) =
    if String.eqb "order:b" ("order:" +:+ "a") || String.prefix "orders:list:" "order:b"
    then None else cached "order:b" cachedWorld.
Proof.
  apply (invalidate_one_keeps_other_orders cachedWorld (Some "a") "a" "order:b");
    vm_compute; reflexivity.
Defined.

(** * Properties of the order service *)

(** ** The column types at some values *)

(** Three tenths added up are stored as 0.30; 1.005, whose binary64 value
    lies below the tie, is sent as the text 1.005 and stored as 1.01;
    99999999.99 is the largest amount, and NaN is stored. *)
Example numeric_10_2_values :
  Column.numeric_10_2 (1 / 10 + 1 / 10 + 1 / 10) = Ok (3 / 10)%float /\
  Column.numeric_10_2 (1005 / 1000) = Ok (101 / 100)%float /\
  Column.numeric_10_2 (- (1005 / 1000)) = Ok (- (101 / 100))%float /\
  Column.numeric_10_2 (1 / 8) = Ok (13 / 100)%float /\
  Column.numeric_10_2 (- (1 / 1000)) = Ok 0%float /\
  Column.numeric_10_2 (9999999999 / 100) = Ok (9999999999 / 100)%float /\
  Column.numeric_10_2 100000000 = Throw "numeric field overflow" /\
  Column.numeric_10_2 infinity = Throw "numeric field overflow" /\
  Column.numeric_10_2 nan = Ok nan.
Proof. vm_compute. repeat split. Qed.

Example integer_values :
  Column.integer 2 = Ok 2%float /\
  Column.integer (- 0) = Ok 0%float /\
  Column.integer (3 / 2) = Throw "invalid input syntax for type integer" /\
  Column.integer nan = Throw "invalid input syntax for type integer" /\
  Column.integer 2147483647 = Ok 2147483647%float /\
  Column.integer 2147483648 = Throw "integer out of range".
Proof. vm_compute. repeat split. Qed.

Example varchar_values :
  Column.varchar 3 "abc" = Ok "abc" /\
  Column.varchar 3 "abc  " = Ok "abc" /\
  Column.varchar 3 "abcd" = Throw "value too long for type character varying".
Proof. vm_compute. repeat split. Qed.

(** An order without item rows is read with one item, all null; a NaN
    price is read as a string. *)
Example json_agg_values :
  OrderService.json_agg [] = [OrderService.nullItem] /\
  OrderService.json_agg
    [ {| ir_order_id := "a"; ir_product_id := "p"; ir_product_name := "n";
         ir_quantity := 1; ir_unit_price := nan; ir_total_price := 2 |} ] =
    [ {| oi_product_id := JStr "p"; oi_product_name := JStr "n";
         oi_quantity := JNum 1; oi_unit_price := JStr "NaN";
         oi_total_price := JNum 2 |} ].
Proof. vm_compute. repeat split. Qed.

Lemma query_ok {A} (run : PgState -> Res A * PgState) w a p :
  pgHealthy w -> run (pg w) = (Ok a, p) ->
  OrderService.query run w = (Ok a, with_pg (fun _ => p) w).
Proof. intros Hh Hr. rewrite (query_healthy _ _ Hh), Hr. reflexivity. Qed.

Lemma query_throws {A} (run : PgState -> Res A * PgState) w e p :
  pgHealthy w -> run (pg w) = (Throw e, p) ->
  OrderService.query run w = (Throw e, with_pg (fun _ => p) w).
Proof. intros Hh Hr. rewrite (query_healthy _ _ Hh), Hr. reflexivity. Qed.

(** The id of a row that fits its columns is the id that was sent. *)
Lemma order_row_id id cn ce total st r :
  OrderService.order_row id cn ce total st = Ok r -> row_id r = id.
Proof.
  unfold OrderService.order_row, Column.varchar_id, res_bind.
  destruct (String.length id <=? 50)%nat; [|discriminate].
  destruct (Column.varchar 255 cn); [|discriminate].
  destruct (Column.varchar 255 ce); [|discriminate].
  destruct (Column.numeric_10_2 total); [|discriminate].
  destruct (Column.varchar 50 st); [|discriminate].
  intros [= <-]. reflexivity.
Qed.

Lemma item_row_order_id id pid pname q up tp i :
  OrderService.item_row id pid pname q up tp = Ok i -> ir_order_id i = id.
Proof.
  unfold OrderService.item_row, Column.varchar_id, res_bind.
  destruct (String.length id <=? 50)%nat; [|discriminate].
  destruct (Column.varchar 100 pid); [|discriminate].
  destruct (Column.varchar 255 pname); [|discriminate].
  destruct (Column.integer q); [|discriminate].
  destruct (Column.numeric_10_2 up); [|discriminate].
  destruct (Column.numeric_10_2 tp); [|discriminate].
  intros [= <-]. reflexivity.
Qed.

(** Inside an open transaction that holds the order, on a healthy
    database: the items are inserted one by one as long as they fit their
    columns; the first one that does not fit makes the loop throw, and the
    committed tables are as before in either case. *)
Lemma insertItems_run id its : forall w os rows0,
  pgHealthy w -> txn (pg w) = Some (os, rows0) ->
  existsb (OrderService.hasId id) (orders (pg w) ++ os) = true ->
  match itemRows id its with
  | Ok rows =>
      exists w', OrderService.insertItems id its w = (Ok tt, w') /\
                 pg w' = OrderService.set_txn (Some (os, rows0 ++ rows)) (pg w) /\
                 sqs w' = sqs w /\ redis w' = redis w
  | Throw e =>
      exists w' rows', OrderService.insertItems id its w = (Throw e, w') /\
                       pg w' = OrderService.set_txn (Some (os, rows')) (pg w) /\
                       sqs w' = sqs w /\ redis w' = redis w
  end.
Proof.
  induction its as [|item its IH]; intros w os rows0 Hh Ht Hfk.
  - exists w. split; [reflexivity|]. split; [|split; reflexivity].
    rewrite app_nil_r, <- Ht. unfold OrderService.set_txn. symmetry. apply pg_eta.
  - cbn [itemRows]. unfold res_bind at 1. destruct (itemRow id item) as [row|e] eqn:Hrow.
    + pose proof (item_row_order_id _ _ _ _ _ _ _ Hrow) as Hid.
      set (w1 := with_pg (fun _ => OrderService.set_txn
                    (Some (os, rows0 ++ [row])) (pg w)) w).
      assert (Hins : OrderService.INSERT_item id (product_id item) (product_name item)
                       (quantity item) (unit_price item)
                       (quantity item * unit_price item)%float w = (Ok tt, w1)).
      { unfold OrderService.INSERT_item. apply query_ok; [exact Hh|].
        unfold itemRow in Hrow. rewrite Hrow, Ht, Hid. cbn [fst]. rewrite Hfk. reflexivity. }
      specialize (IH w1 os (rows0 ++ [row]) Hh eq_refl Hfk).
      unfold res_bind. destruct (itemRows id its) as [rows|e].
      * destruct IH as (w' & Hrun & Hpg & Hs & Hr). exists w'.
        split; [cbn [OrderService.insertItems]; eapply bind_ok; [exact Hins | exact Hrun]|].
        split; [rewrite Hpg; cbn; rewrite <- app_assoc; reflexivity|].
        split; [rewrite Hs | rewrite Hr]; reflexivity.
      * destruct IH as (w' & rows' & Hrun & Hpg & Hs & Hr). exists w', rows'.
        split; [cbn [OrderService.insertItems]; eapply bind_ok; [exact Hins | exact Hrun]|].
        split; [rewrite Hpg; reflexivity|].
        split; [rewrite Hs | rewrite Hr]; reflexivity.
    + exists (with_pg (fun _ => pg w) w), rows0.
      split.
      * cbn [OrderService.insertItems]. apply bind_throw.
        unfold OrderService.INSERT_item. apply query_throws; [exact Hh|].
        unfold itemRow in Hrow. rewrite Hrow. reflexivity.
      * cbn. rewrite <- Ht. unfold OrderService.set_txn.
        split; [symmetry; apply pg_eta | split; reflexivity].
Qed.

Lemma keeps_pg_get key : keeps pg (CacheService.get key).
Proof. unfold CacheService.get, CacheService.redis_get. keeps_auto. Qed.

Lemma keeps_pg_set key v ttl : keeps pg (CacheService.set key v ttl).
Proof. unfold CacheService.set, CacheService.redis_setex. keeps_auto. Qed.

Lemma cacheService_get_ok key w : exists r, fst (CacheService.get key w) = Ok r.
Proof.
  unfold CacheService.get, try_catch.
  destruct (CacheService.redis_get key w) as [[r|e] w']; eauto.
Qed.

Lemma cacheService_set_ok key v ttl w : fst (CacheService.set key v ttl w) = Ok tt.
Proof. apply try_catch_log_ok. Qed.

Lemma getOrderById_found (w : World) (id : string) (r : OrderRow) :
  pgHealthy w ->
  List.find (OrderService.hasId id) (orders (pg w)) = Some r ->
  exists v w',
    OrderService.getOrderById id w = (Ok (Some v), w') /\
    pg w' = pg w /\
    sqs w' = sqs w /\
    (fst (CacheService.get ("order:" +:+ id)
            (logged ["Generated order cache key: order:" +:+ id] w)) = Ok None ->
     v = COrder (OrderService.mapDbRowToOrder r
                   (OrderService.json_agg (OrderService.itemsOf id (pg w))))).
Proof.
  intros Hh Hfind.
  pose proof (keeps_sqs_getOrderById id w) as Hks.
  pose proof (keeps_pg_get ("order:" +:+ id)
                (logged ["Generated order cache key: order:" +:+ id] w)) as Hkp.
  destruct (CacheService.get ("order:" +:+ id)
              (logged ["Generated order cache key: order:" +:+ id] w))
    as [[[v|]|e] w1] eqn:Hget; cbn [snd] in Hkp.
  - exists v. eexists.
    assert (Hrun : OrderService.getOrderById id w =
                   (Ok (Some v), logged ["Order " +:+ id +:+ " retrieved from cache"] w1)).
    { unfold OrderService.getOrderById.
      eapply bind_ok; [reflexivity|]. eapply bind_ok; [exact Hget|].
      eapply bind_ok; reflexivity. }
    rewrite Hrun in Hks. split; [exact Hrun|]. split; [exact Hkp|].
    split; [exact Hks|]. discriminate.
  - cbn in Hkp.
    set (wl := logged ["Order " +:+ id +:+ " retrieved from database"] w1).
    assert (Hh1 : pgHealthy wl) by (unfold pgHealthy; cbn; rewrite Hkp; exact Hh).
    set (order := OrderService.mapDbRowToOrder r
                    (OrderService.json_agg (OrderService.itemsOf id (pg w)))).
    assert (Hsel : OrderService.SELECT_order id wl =
                   (Ok (Some (order)), with_pg (fun _ => pg wl) wl)).
    { unfold OrderService.SELECT_order. apply query_ok; [exact Hh1|].
      cbv beta. change (pg wl) with (pg w1). rewrite Hkp, Hfind. reflexivity. }
    pose proof (keeps_pg_set ("order:" +:+ id) (COrder order)
                  OrderService.CACHE_TTL_ORDER_DETAILS
                  (with_pg (fun _ => pg wl) wl)) as Hkset.
    destruct (CacheService.set ("order:" +:+ id) (COrder order)
                OrderService.CACHE_TTL_ORDER_DETAILS (with_pg (fun _ => pg wl) wl))
      as [rset w2] eqn:Hset.
    assert (Hsetok : rset = Ok tt).
    { change rset with (fst (rset, w2)). rewrite <- Hset. apply cacheService_set_ok. }
    subst rset. cbn in Hkset.
    exists (COrder order), w2.
    assert (Hrun : OrderService.getOrderById id w = (Ok (Some (COrder order)), w2)).
    { unfold OrderService.getOrderById.
      eapply bind_ok; [reflexivity|]. eapply bind_ok; [exact Hget|].
      eapply bind_ok; [reflexivity|].
      eapply bind_ok; [exact Hsel|].
      eapply bind_ok; [exact Hset|]. reflexivity. }
    rewrite Hrun in Hks. split; [exact Hrun|]. split; [rewrite Hkset; exact Hkp|].
    split; [exact Hks|]. reflexivity.
  - exfalso. pose proof (cacheService_get_ok ("order:" +:+ id)
                           (logged ["Generated order cache key: order:" +:+ id] w)) as [r1 Hr].
    rewrite Hget in Hr. discriminate.
Qed.

(** X21: on a healthy database [getOrderById] of an order that is in the
    orders table returns a value and leaves the database as it is,
    whatever Redis holds or does; the value is the cached one when [get]
    finds one, otherwise the order read from the table: its row with the
    items that [json_agg] makes of its item rows, which for an order
    without item rows is one item whose fields are all null, and
    otherwise one item per row, a NaN price being the string NaN. *)
Theorem getOrderById_finds_stored_order (w : World) (id : string) (r : OrderRow) :
  pgHealthy w ->
  List.find (OrderService.hasId id) (orders (pg w)) = Some r ->
  exists v w',
    OrderService.getOrderById id w = (Ok (Some v), w') /\
    pg w' = pg w /\
    sqs w' = sqs w /\
    (fst (CacheService.get ("order:" +:+ id)
            (logged ["Generated order cache key: order:" +:+ id] w)) = Ok None ->
     v = COrder {| o_id := row_id r; o_customer_name := row_customer_name r;
                   o_customer_email := row_customer_email r;
                   o_items := OrderService.json_agg (OrderService.itemsOf id (pg w));
                   o_total_amount := row_total_amount r;
                   o_status := row_status r |}).
Proof. apply getOrderById_found. Qed.

Lemma getOrderById_finds_stored_order_witness :
  exists v w',
    OrderService.getOrderById "bare" bareStored = (Ok (Some v), w') /\
    pg w' = pg bareStored /\
    sqs w' = sqs bareStored /\
    (fst (CacheService.get ("order:" +:+ "bare")
            (logged ["Generated order cache key: order:" +:+ "bare"] bareStored))
       = Ok None ->
     v = COrder {| o_id := row_id bareRow; o_customer_name := row_customer_name bareRow;
                   o_customer_email := row_customer_email bareRow;
                   o_items := [OrderService.nullItem];
                   o_total_amount := row_total_amount bareRow;
                   o_status := row_status bareRow |}).
Proof.
  apply (getOrderById_finds_stored_order bareStored "bare" bareRow); vm_compute; reflexivity.
Defined.

Lemma find_app_missing {A} (p : A -> bool) (l : list A) (x : A) :
  existsb p l = false -> p x = true -> List.find p (l ++ [x]) = Some x.
Proof.
  induction l as [|y l IH]; simpl; intros Hl Hx.
  - rewrite Hx. reflexivity.
  - apply orb_false_iff in Hl as [Hy Hl]. rewrite Hy. apply IH; assumption.
Qed.

Lemma createOrder_healthy (w : World) (req : CreateOrderRequest) (id : string)
    (r : OrderRow) (rows : list ItemRow) :
  pgHealthy w ->
  orderMissing id w ->
  orderRow id req = Ok r ->
  itemRows id (items req) = Ok rows ->
  exists v w',
    OrderService.createOrder (PCreate req) id w = (Ok v, w') /\
    orders (pg w') = orders (pg w) ++ [r] /\
    order_items (pg w') = order_items (pg w) ++ rows /\
    txn (pg w') = None /\
    pgHealthy w'.
Proof.
  unfold orderMissing. intros Hh Hmiss Hrow Hrows.
  pose proof (order_row_id _ _ _ _ _ _ Hrow) as Hid.
  assert (Hhas : OrderService.hasId id r = true).
  { unfold OrderService.hasId. rewrite Hid. apply String.eqb_refl. }
  set (w0 := with_pg (fun _ => pg w) w).
  set (w1 := with_pg (fun _ => OrderService.set_txn (Some ([], [])) (pg w0)) w0).
  set (w2 := with_pg (fun _ => OrderService.set_txn (Some ([] ++ [r], [])) (pg w1)) w1).
  assert (Hh2 : pgHealthy w2) by exact Hh.
  assert (Hfk : existsb (OrderService.hasId id) (orders (pg w2) ++ ([] ++ [r])) = true).
  { rewrite List.existsb_app. cbn. rewrite Hhas. rewrite !orb_true_r. reflexivity. }
  pose proof (insertItems_run id (items req) w2 ([] ++ [r]) [] Hh2 eq_refl Hfk) as Hitems.
  rewrite Hrows in Hitems. destruct Hitems as (w3 & Hins & Hpg3 & _).
  assert (Hh3 : pgHealthy w3) by (unfold pgHealthy; rewrite Hpg3; exact Hh).
  set (committed := {| orders := orders (pg w) ++ [r];
                       order_items := order_items (pg w) ++ rows;
                       txn := None; pg_faults := pg_faults (pg w) |}).
  set (w4 := with_pg (fun _ => committed) w3).
  assert (Hcommit : OrderService.COMMIT w3 = (Ok tt, w4)).
  { unfold OrderService.COMMIT. apply query_ok; [exact Hh3|]. rewrite Hpg3. reflexivity. }
  assert (Hh4 : pgHealthy w4) by exact Hh.
  assert (Hfind : List.find (OrderService.hasId id) (orders (pg w4)) = Some r).
  { cbn. apply find_app_missing; [exact Hmiss | exact Hhas]. }
  destruct (getOrderById_found w4 id r Hh4 Hfind) as (v & w5 & Hget & Hpg5 & _).
  pose proof (invalidateOrderCache_ok (Some id)
                (logged ["Invalidating cache after creating new order..."] w5)) as Hinv.
  pose proof (keeps_pg_invalidateOrderCache (Some id)
                (logged ["Invalidating cache after creating new order..."] w5)) as Hkinv.
  destruct (CacheService.invalidateOrderCache (Some id)
              (logged ["Invalidating cache after creating new order..."] w5))
    as [rinv w6] eqn:Einv.
  cbn in Hinv, Hkinv. subst rinv.
  exists v, (logged ["Cache invalidation completed"] w6).
  split.
  - unfold OrderService.createOrder.
    eapply bind_ok; [apply (query_ok _ w tt (pg w) Hh); reflexivity|].
    eapply try_catch_ok.
    eapply bind_ok;
      [apply (query_ok _ w0 tt (OrderService.set_txn (Some ([], [])) (pg w0)) Hh);
       reflexivity|].
    eapply bind_ok.
    { unfold OrderService.INSERT_order.
      apply (query_ok _ w1 r (OrderService.set_txn (Some ([] ++ [r], [])) (pg w1)) Hh).
      unfold orderRow in Hrow. rewrite Hrow, Hid. cbn. rewrite app_nil_r, Hmiss. reflexivity. }
    eapply bind_ok; [exact Hins|].
    eapply bind_ok; [exact Hcommit|].
    eapply bind_ok; [exact Hget|].
    eapply bind_ok; [reflexivity|].
    eapply bind_ok; [exact Einv|].
    eapply bind_ok; [reflexivity|]. reflexivity.
  - cbn. rewrite Hkinv. cbn. rewrite Hpg5. cbn.
    repeat split. unfold pgHealthy. cbn. rewrite Hkinv. cbn. rewrite Hpg5. exact Hh.
Qed.

(** On a healthy database a [createOrder] that cannot insert its order or
    one of its items throws after rolling back: the payload has no items,
    an order has the id already, or a value does not fit its column. *)
Lemma createOrder_fails (w : World) (d : Payload) (id : string) :
  pgHealthy w ->
  (forall req, d = PCreate req ->
     ~ orderMissing id w \/
     (exists e, orderRow id req = Throw e) \/
     (exists e, itemRows id (items req) = Throw e)) ->
  exists e w',
    OrderService.createOrder d id w = (Throw e, w') /\
    orders (pg w') = orders (pg w) /\
    order_items (pg w') = order_items (pg w) /\
    txn (pg w') = None /\
    redis w' = redis w /\
    sqs w' = sqs w.
Proof.
  intros Hh Hd.
  set (w0 := with_pg (fun _ => pg w) w).
  set (w1 := with_pg (fun _ => OrderService.set_txn (Some ([], [])) (pg w0)) w0).
  assert (Hstart : forall body : M CacheVal,
            try_catch (bind OrderService.BEGIN (fun _ => body))
                      (fun error => bind OrderService.ROLLBACK (fun _ => throw error)) w0 =
            match body w1 with
            | (Ok a, w') => (Ok a, w')
            | (Throw e, w') => bind OrderService.ROLLBACK (fun _ => throw e) w'
            end).
  { intros body. unfold try_catch, bind at 1.
    unfold OrderService.BEGIN.
    rewrite (query_ok _ w0 tt (OrderService.set_txn (Some ([], [])) (pg w0)) Hh eq_refl).
    reflexivity. }
  assert (Hrollback : forall e wx, pgHealthy wx ->
            bind OrderService.ROLLBACK (fun _ => @throw CacheVal e) wx =
            (Throw e, with_pg (fun _ => OrderService.set_txn None (pg wx)) wx)).
  { intros e wx Hx. eapply bind_ok; [|reflexivity].
    unfold OrderService.ROLLBACK. apply query_ok; [exact Hx | reflexivity]. }
  assert (Hopen : OrderService.connect w = (Ok tt, w0))
    by (apply (query_ok _ w tt (pg w) Hh); reflexivity).
  destruct d as [req| st |].
  - assert (Hinsert : forall e,
              OrderService.INSERT_order id (customer_name req) (customer_email req)
                (OrderService.calculateTotalAmount (items req)) "pending" w1 =
                (Throw e, with_pg (fun _ => pg w1) w1) ->
              exists e' w',
                OrderService.createOrder (PCreate req) id w = (Throw e', w') /\
                orders (pg w') = orders (pg w) /\
                order_items (pg w') = order_items (pg w) /\
                txn (pg w') = None /\ redis w' = redis w /\ sqs w' = sqs w).
    { intros e Hins. do 2 eexists. split.
      - unfold OrderService.createOrder. eapply bind_ok; [exact Hopen|].
        cbv zeta. rewrite Hstart. unfold bind at 1. rewrite Hins.
        apply Hrollback. exact Hh.
      - cbn. repeat split. }
    destruct (orderRow id req) as [r|e] eqn:Hrow.
    + pose proof (order_row_id _ _ _ _ _ _ Hrow) as Hid.
      destruct (existsb (OrderService.hasId id) (orders (pg w))) eqn:Hex.
      * apply (Hinsert "duplicate key value violates unique constraint").
        unfold OrderService.INSERT_order. apply query_throws; [exact Hh|].
        unfold orderRow in Hrow. rewrite Hrow, Hid. cbn. rewrite app_nil_r, Hex.
        reflexivity.
      * destruct (Hd req eq_refl) as [Hn | [[e He] | [e He]]];
          [destruct (Hn Hex) | congruence |].
        assert (Hhas : OrderService.hasId id r = true).
        { unfold OrderService.hasId. rewrite Hid. apply String.eqb_refl. }
        set (w2 := with_pg (fun _ => OrderService.set_txn (Some ([] ++ [r], [])) (pg w1)) w1).
        assert (Hh2 : pgHealthy w2) by exact Hh.
        assert (Hfk : existsb (OrderService.hasId id) (orders (pg w2) ++ ([] ++ [r])) = true).
        { rewrite List.existsb_app. cbn. rewrite Hhas. rewrite !orb_true_r. reflexivity. }
        pose proof (insertItems_run id (items req) w2 ([] ++ [r]) [] Hh2 eq_refl Hfk)
          as Hitems.
        rewrite He in Hitems. destruct Hitems as (w3 & rows' & Hins & Hpg3 & Hs3 & Hr3).
        assert (Hh3 : pgHealthy w3) by (unfold pgHealthy; rewrite Hpg3; exact Hh).
        do 2 eexists. split.
        -- unfold OrderService.createOrder. eapply bind_ok; [exact Hopen|].
           cbv zeta. rewrite Hstart.
           assert (Hbody : forall k : unit -> M CacheVal,
                     bind (OrderService.INSERT_order id (customer_name req)
                             (customer_email req)
                             (OrderService.calculateTotalAmount (items req)) "pending")
                          (fun _ => bind (OrderService.insertItems id (items req)) k) w1 =
                     (Throw e, w3)).
           { intros k. eapply bind_ok.
             - unfold OrderService.INSERT_order.
               apply (query_ok _ w1 r (OrderService.set_txn (Some ([] ++ [r], [])) (pg w1)) Hh).
               unfold orderRow in Hrow. rewrite Hrow, Hid. cbn. rewrite app_nil_r, Hex.
               reflexivity.
             - apply bind_throw. exact Hins. }
           rewrite Hbody. apply Hrollback. exact Hh3.
        -- cbn. rewrite Hpg3, Hs3, Hr3. cbn. repeat split.
    + apply (Hinsert e).
      unfold OrderService.INSERT_order. apply query_throws; [exact Hh|].
      unfold orderRow in Hrow. rewrite Hrow. reflexivity.
  - do 2 eexists. split.
    + unfold OrderService.createOrder. eapply bind_ok; [exact Hopen|].
      cbv zeta. rewrite Hstart. cbn [throw]. apply Hrollback. exact Hh.
    + cbn. repeat split.
  - do 2 eexists. split.
    + unfold OrderService.createOrder. eapply bind_ok; [exact Hopen|].
      cbv zeta. rewrite Hstart. cbn [throw]. apply Hrollback. exact Hh.
    + cbn. repeat split.
Qed.

(** X22: [createOrder] is all or nothing. On a healthy database, with an
    id that no order has: when every value fits its column, it commits
    exactly one new order row and one item row per item, in item order,
    holding the values as the columns store them, and it returns, whatever
    Redis holds or does, without touching the queue; when a value of the
    order or of any item does not fit its column, it throws after rolling
    back, and both tables are as before, also when items before the
    offending one had been inserted. *)
Theorem createOrder_commits_order_and_items (w : World) (req : CreateOrderRequest)
    (id : string) :
  pgHealthy w ->
  orderMissing id w ->
  match orderRow id req, itemRows id (items req) with
  | Ok r, Ok rows =>
      exists v w',
        OrderService.createOrder (PCreate req) id w = (Ok v, w') /\
        orders (pg w') = orders (pg w) ++ [r] /\
        order_items (pg w') = order_items (pg w) ++ rows /\
        txn (pg w') = None /\
        sqs w' = sqs w
  | _, _ =>
      exists e w',
        OrderService.createOrder (PCreate req) id w = (Throw e, w') /\
        orders (pg w') = orders (pg w) /\
        order_items (pg w') = order_items (pg w) /\
        txn (pg w') = None /\
        sqs w' = sqs w
  end.
Proof.
  intros Hh Hmiss.
  destruct (orderRow id req) as [r|e] eqn:Hrow;
    [destruct (itemRows id (items req)) as [rows|e] eqn:Hrows|].
  - destruct (createOrder_healthy w req id r rows Hh Hmiss Hrow Hrows)
      as (v & w' & Hrun & H1 & H2 & H3 & _).
    pose proof (keeps_sqs_createOrder (PCreate req) id w) as Hs. rewrite Hrun in Hs.
    exists v, w'. repeat split; assumption.
  - destruct (createOrder_fails w (PCreate req) id Hh) as (e' & w' & Hrun & H1 & H2 & H3 & _ & H5).
    { intros req' [= <-]. right. right. exists e. exact Hrows. }
    exists e', w'. repeat split; assumption.
  - destruct (createOrder_fails w (PCreate req) id Hh) as (e' & w' & Hrun & H1 & H2 & H3 & _ & H5).
    { intros req' [= <-]. right. left. exists e. exact Hrow. }
    exists e', w'. repeat split; assumption.
Qed.

Lemma createOrder_commits_order_and_items_witness :
  exists v w',
    OrderService.createOrder (PCreate requestCents) "lx9" adaStored = (Ok v, w') /\
    orders (pg w') =
      orders (pg adaStored) ++
      [ {| row_id := "lx9"; row_customer_name := "Cy";
           row_customer_email := "cy@example.com";
           row_total_amount := 3 / 10; row_status := "pending" |} ] /\
    order_items (pg w') =
      order_items (pg adaStored) ++
      replicate 3 {| ir_order_id := "lx9"; ir_product_id := "p2";
                     ir_product_name := "Washer"; ir_quantity := 1;
                     ir_unit_price := 1 / 10; ir_total_price := 1 / 10 |} /\
    txn (pg w') = None /\
    sqs w' = sqs adaStored.
Proof.
  pose proof (createOrder_commits_order_and_items adaStored requestCents "lx9"
                ltac:(vm_compute; reflexivity) ltac:(vm_compute; reflexivity)) as H.
  assert (Hr : orderRow "lx9" requestCents =
               Ok {| row_id := "lx9"; row_customer_name := "Cy";
                     row_customer_email := "cy@example.com";
                     row_total_amount := 3 / 10; row_status := "pending" |})
    by (vm_compute; reflexivity).
  assert (Hi : itemRows "lx9" (items requestCents) =
               Ok (replicate 3 {| ir_order_id := "lx9"; ir_product_id := "p2";
                                  ir_product_name := "Washer"; ir_quantity := 1;
                                  ir_unit_price := 1 / 10; ir_total_price := 1 / 10 |}))
    by (vm_compute; reflexivity).
  rewrite Hr, Hi in H. exact H.
Defined.

(** X23: on a healthy database a [createOrder] that cannot insert its
    order throws after rolling back, and the tables are as before: this
    is so for a payload without items (the TypeError of
    [calculateTotalAmount]) and for an id that an order already has (the
    primary key); neither the queue nor Redis is touched. *)
Theorem createOrder_failure_rolls_back (w : World) (d : Payload) (id : string) :
  pgHealthy w ->
  (forall req, d = PCreate req -> ~ orderMissing id w) ->
  exists e w',
    OrderService.createOrder d id w = (Throw e, w') /\
    orders (pg w') = orders (pg w) /\
    order_items (pg w') = order_items (pg w) /\
    txn (pg w') = None /\
    redis w' = redis w /\
    sqs w' = sqs w.
Proof.
  intros Hh Hd. apply createOrder_fails; [exact Hh|].
  intros req Hreq. left. exact (Hd req Hreq).
Qed.

Lemma createOrder_failure_rolls_back_witness :
  exists e w',
    OrderService.createOrder (PCreate requestAda) "lx1abc9k2" adaStored = (Throw e, w') /\
    orders (pg w') = orders (pg adaStored) /\
    order_items (pg w') = order_items (pg adaStored) /\
    txn (pg w') = None /\
    redis w' = redis adaStored /\
    sqs w' = sqs adaStored.
Proof.
  apply (createOrder_failure_rolls_back adaStored (PCreate requestAda) "lx1abc9k2").
  - vm_compute. reflexivity.
  - intros req _. vm_compute. discriminate.
Defined.

Lemma prefix_order_key id : String.prefix "order:" ("order:" +:+ id) = true.
Proof. cbn. destruct id; reflexivity. Qed.

(** On a healthy Redis the key of the order is gone after
    [invalidateOrderCache] with its id, and Redis stays healthy. *)
Lemma invalidateOrderCache_drops_order_key id w :
  redisHealthy w ->
  exists w', CacheService.invalidateOrderCache (Some id) w = (Ok tt, w') /\
             cached ("order:" +:+ id) w' = None /\
             redisHealthy w' /\
             pg w' = pg w.
Proof.
  intros Hh.
  destruct (invalidateOrderCache_healthy_run (Some id) w Hh) as (w' & Hrun & Hk & Hh').
  pose proof (keeps_pg_invalidateOrderCache (Some id) w) as Hpg.
  rewrite Hrun in Hpg. cbn in Hpg. exists w'.
  split; [exact Hrun|]. split; [|split; assumption].
  unfold cached. rewrite Hk. rewrite find_filter_drops_In; [reflexivity|].
  intros kv Hin Hkey. pose proof Hkey as Hkey'.
  unfold CacheService.hasKey in Hkey. apply String.eqb_eq in Hkey.
  apply hit_true. rewrite Hkey. unfold invalidationKeys.
  destruct (CacheService.truthy (Some id)) as [id'|] eqn:Ht.
  - assert (id' = id) as -> by (destruct id; cbn in Ht; congruence).
    apply List.in_or_app. left.
    assert (He : existsb (CacheService.hasKey ("order:" +:+ id)) (rkeys (redis w)) = true).
    { apply List.existsb_exists. exists kv. split; assumption. }
    rewrite He. left. reflexivity.
  - apply List.in_or_app. left. apply List.filter_In. split.
    + rewrite <- Hkey. apply In_keys. exact Hin.
    + apply prefix_order_key.
Qed.

Lemma find_fmap_status id st (l : list OrderRow) :
  List.find (OrderService.hasId id)
    ((fun r => if OrderService.hasId id r then withStatus st r else r) <$> l) =
  withStatus st <$> List.find (OrderService.hasId id) l.
Proof.
  induction l as [|x l IH]; simpl; [reflexivity|].
  destruct (OrderService.hasId id x) eqn:Hx.
  - unfold OrderService.hasId in *. cbn. rewrite Hx. reflexivity.
  - rewrite Hx. exact IH.
Qed.

(** X24: on healthy services, [updateOrderStatus] of an order that is in
    the orders table, with a status that fits its column, writes the
    status as the column stores it to the row of the order, leaves every
    other row and all item rows as they are, and returns the order as the
    database now holds it, with the new status: a cached copy of the order
    is invalidated before the order is read back. *)
Theorem updateOrderStatus_returns_updated_order (w : World) (id status st : string)
    (r : OrderRow) :
  pgHealthy w ->
  redisHealthy w ->
  Column.varchar 50 status = Ok st ->
  List.find (OrderService.hasId id) (orders (pg w)) = Some r ->
  exists w',
    OrderService.updateOrderStatus id (Some status) w =
      (Ok (Some (COrder (OrderService.mapDbRowToOrder (withStatus st r)
                           (OrderService.json_agg (OrderService.itemsOf id (pg w)))))),
       w') /\
    orders (pg w') =
      ((fun r => if OrderService.hasId id r then withStatus st r else r) <$> orders (pg w)) /\
    order_items (pg w') = order_items (pg w) /\
    sqs w' = sqs w.
Proof.
  intros Hh Hrh Hst Hfind.
  pose proof (keeps_sqs_updateOrderStatus id (Some status) w) as Hks.
  assert (Hex : existsb (OrderService.hasId id) (orders (pg w)) = true).
  { apply List.existsb_exists. apply List.find_some in Hfind. exists r. exact Hfind. }
  set (updated := (fun r => if OrderService.hasId id r then withStatus st r else r)
                    <$> orders (pg w)).
  set (w1 := with_pg (fun _ => OrderService.set_orders updated (pg w)) w).
  set (w1' := logged ["Invalidating cache after updating order " +:+ id +:+ "..."] w1).
  destruct (invalidateOrderCache_drops_order_key id w1' Hrh) as (w2 & Hinv & Hc2 & Hrh2 & Hpg2).
  set (w2' := logged ["Cache invalidation completed"] w2).
  assert (Hh2 : pgHealthy w2') by (unfold pgHealthy; cbn; rewrite Hpg2; exact Hh).
  assert (Hfind2 : List.find (OrderService.hasId id) (orders (pg w2')) =
                   Some (withStatus st r)).
  { cbn. rewrite Hpg2. cbn. unfold updated. rewrite find_fmap_status, Hfind. reflexivity. }
  destruct (getOrderById_found w2' id (withStatus st r) Hh2 Hfind2)
    as (v & w3 & Hget & Hpg3 & _ & Hv).
  assert (Hmiss : fst (CacheService.get ("order:" +:+ id)
                    (logged ["Generated order cache key: order:" +:+ id] w2')) = Ok None).
  { rewrite get_healthy by exact Hrh2. unfold cached in *. cbn. rewrite Hc2. reflexivity. }
  specialize (Hv Hmiss).
  assert (Hrun : OrderService.updateOrderStatus id (Some status) w = (Ok (Some v), w3)).
  { unfold OrderService.updateOrderStatus.
    eapply bind_ok.
    - unfold OrderService.UPDATE_status.
      apply (query_ok _ w true (OrderService.set_orders updated (pg w)) Hh).
      rewrite Hst, Hex. reflexivity.
    - cbv iota. eapply bind_ok; [reflexivity|].
      eapply bind_ok; [exact Hinv|]. eapply bind_ok; [reflexivity|]. exact Hget. }
  rewrite Hrun in Hks. exists w3. rewrite Hrun, Hv. cbn. rewrite Hpg3. cbn. rewrite Hpg2.
  repeat split. exact Hks.
Qed.

Lemma updateOrderStatus_returns_updated_order_witness :
  exists w',
    OrderService.updateOrderStatus "lx1abc9k2" (Some "COMPLETED") adaStored =
      (Ok (Some (COrder (OrderService.mapDbRowToOrder
                           (withStatus "COMPLETED" rowAda)
                           (OrderService.json_agg
                              (OrderService.itemsOf "lx1abc9k2" (pg adaStored)))))), w') /\
    orders (pg w') =
      ((fun r => if OrderService.hasId "lx1abc9k2" r then withStatus "COMPLETED" r else r)
         <$> orders (pg adaStored)) /\
    order_items (pg w') = order_items (pg adaStored) /\
    sqs w' = sqs adaStored.
Proof.
  apply (updateOrderStatus_returns_updated_order adaStored "lx1abc9k2" "COMPLETED"
           "COMPLETED" rowAda); vm_compute; reflexivity.
Defined.

Lemma existsb_filter_length {A} (p : A -> bool) (l : list A) :
  existsb p l = true -> (0 <? Z.of_nat (length (List.filter p l))) = true.
Proof.
  intros H. apply List.existsb_exists in H as (x & Hin & Hp).
  assert (Hf : In x (List.filter p l)) by (apply List.filter_In; auto).
  destruct (List.filter p l); [destruct Hf|]. reflexivity.
Qed.

Lemma existsb_filter_negb {A} (p : A -> bool) (l : list A) :
  existsb p (List.filter (fun x => negb (p x)) l) = false.
Proof.
  induction l as [|x l IH]; simpl; [reflexivity|].
  destruct (p x) eqn:Hp; simpl; [exact IH|]. rewrite Hp, IH. reflexivity.
Qed.

Lemma deleteOrder_existing (w : World) (id : string) :
  pgHealthy w ->
  existsb (OrderService.hasId id) (orders (pg w)) = true ->
  exists w',
    OrderService.deleteOrder id w = (Ok true, w') /\
    orders (pg w') = List.filter (fun r => negb (OrderService.hasId id r)) (orders (pg w)) /\
    order_items (pg w') =
      List.filter (fun i => negb (String.eqb (ir_order_id i) id)) (order_items (pg w)) /\
    orderMissing id w' /\
    pgHealthy w' /\
    sqs w' = sqs w.
Proof.
  intros Hh Hex.
  pose proof (keeps_sqs_deleteOrder id w) as Hks.
  set (p1 := {| orders := List.filter (fun r => negb (OrderService.hasId id r)) (orders (pg w));
                order_items := List.filter (fun i => negb (String.eqb (ir_order_id i) id))
                                           (order_items (pg w));
                txn := txn (pg w); pg_faults := pg_faults (pg w) |}).
  set (w1 := logged ["Invalidating cache after deleting order " +:+ id +:+ "..."]
               (with_pg (fun _ => p1) w)).
  pose proof (invalidateOrderCache_ok (Some id) w1) as Hok.
  pose proof (keeps_pg_invalidateOrderCache (Some id) w1) as Hpg.
  destruct (CacheService.invalidateOrderCache (Some id) w1) as [res w2] eqn:Hinv.
  cbn in Hok, Hpg. subst res.
  assert (Hrun : OrderService.deleteOrder id w =
                 (Ok true, logged ["Cache invalidation completed"] w2)).
  { unfold OrderService.deleteOrder. eapply bind_ok.
    - unfold OrderService.DELETE_order.
      apply (query_ok _ w _ p1 Hh). unfold p1. rewrite Hex. reflexivity.
    - rewrite (existsb_filter_length _ _ Hex).
      eapply bind_ok; [reflexivity|]. eapply bind_ok; [exact Hinv|].
      eapply bind_ok; reflexivity. }
  rewrite Hrun in Hks. eexists. split; [exact Hrun|].
  unfold orderMissing, pgHealthy. cbn. rewrite Hpg. cbn.
  split; [reflexivity|]. split; [reflexivity|].
  split; [apply existsb_filter_negb|]. split; [exact Hh | exact Hks].
Qed.

(** X25: on a healthy database, [deleteOrder] of an order that is in the
    orders table returns true and removes the rows with that id and the
    item rows of that order, and nothing else; afterwards the order is
    missing, so that a second [deleteOrder] would report false. *)
Theorem deleteOrder_removes_order_and_items (w : World) (id : string) :
  pgHealthy w ->
  existsb (OrderService.hasId id) (orders (pg w)) = true ->
  exists w',
    OrderService.deleteOrder id w = (Ok true, w') /\
    orders (pg w') = List.filter (fun r => negb (OrderService.hasId id r)) (orders (pg w)) /\
    order_items (pg w') =
      List.filter (fun i => negb (String.eqb (ir_order_id i) id)) (order_items (pg w)) /\
    orderMissing id w' /\
    pgHealthy w' /\
    sqs w' = sqs w.
Proof. apply deleteOrder_existing. Qed.

Lemma deleteOrder_removes_order_and_items_witness :
  exists w',
    OrderService.deleteOrder "lx1abc9k2" adaStored = (Ok true, w') /\
    orders (pg w') =
      List.filter (fun r => negb (OrderService.hasId "lx1abc9k2" r)) (orders (pg adaStored)) /\
    order_items (pg w') =
      List.filter (fun i => negb (String.eqb (ir_order_id i) "lx1abc9k2"))
                  (order_items (pg adaStored)) /\
    orderMissing "lx1abc9k2" w' /\
    pgHealthy w' /\
    sqs w' = sqs adaStored.
Proof.
  apply (deleteOrder_removes_order_and_items adaStored "lx1abc9k2"); vm_compute; reflexivity.
Defined.

Lemma existsb_find {A} (p : A -> bool) (l : list A) :
  existsb p l = true -> exists x, List.find p l = Some x.
Proof.
  induction l as [|y l IH]; simpl; [discriminate|].
  destruct (p y); [eauto|]. exact IH.
Qed.

Lemma updateOrderStatus_existing (w : World) (id status st : string) :
  pgHealthy w ->
  Column.varchar 50 status = Ok st ->
  existsb (OrderService.hasId id) (orders (pg w)) = true ->
  exists v w',
    OrderService.updateOrderStatus id (Some status) w = (Ok (Some v), w') /\
    orders (pg w') =
      ((fun r => if OrderService.hasId id r then withStatus st r else r) <$> orders (pg w)) /\
    order_items (pg w') = order_items (pg w).
Proof.
  intros Hh Hst Hex.
  destruct (existsb_find _ _ Hex) as [r Hfind].
  set (updated := (fun r => if OrderService.hasId id r then withStatus st r else r)
                    <$> orders (pg w)).
  set (w1 := logged ["Invalidating cache after updating order " +:+ id +:+ "..."]
               (with_pg (fun _ => OrderService.set_orders updated (pg w)) w)).
  pose proof (invalidateOrderCache_ok (Some id) w1) as Hok.
  pose proof (keeps_pg_invalidateOrderCache (Some id) w1) as Hpg.
  destruct (CacheService.invalidateOrderCache (Some id) w1) as [res w2] eqn:Hinv.
  cbn in Hok, Hpg. subst res.
  set (w2' := logged ["Cache invalidation completed"] w2).
  assert (Hh2 : pgHealthy w2') by (unfold pgHealthy; cbn; rewrite Hpg; exact Hh).
  assert (Hfind2 : List.find (OrderService.hasId id) (orders (pg w2')) =
                   Some (withStatus st r)).
  { cbn. rewrite Hpg. cbn. unfold updated. rewrite find_fmap_status, Hfind. reflexivity. }
  destruct (getOrderById_found w2' id (withStatus st r) Hh2 Hfind2)
    as (v & w3 & Hget & Hpg3 & _).
  exists v, w3. split.
  - unfold OrderService.updateOrderStatus. eapply bind_ok.
    + unfold OrderService.UPDATE_status.
      apply (query_ok _ w true (OrderService.set_orders updated (pg w)) Hh).
      rewrite Hst, Hex. reflexivity.
    + cbv iota. eapply bind_ok; [reflexivity|].
      eapply bind_ok; [exact Hinv|]. eapply bind_ok; [reflexivity|]. exact Hget.
  - rewrite Hpg3. cbn. rewrite Hpg. split; reflexivity.
Qed.

Lemma dispatch_applied event env wa os its :
  pgHealthy wa ->
  applied event (OrderHandlerService.newId env) (pg wa) = Some (os, its) ->
  exists scope wb,
    StoreSucceeded event env wa scope wb /\
    orders (pg wb) = os /\ order_items (pg wb) = its.
Proof.
  intros Hh. unfold applied.
  destruct (String.eqb (ev_type event) "CREATE") eqn:Hc;
    [|destruct (String.eqb (ev_type event) "UPDATE") eqn:Hu;
      [|destruct (String.eqb (ev_type event) "DELETE") eqn:Hd; [|discriminate]]].
  - apply String.eqb_eq in Hc.
    destruct (data event) as [[req| |]|] eqn:Hdata; try discriminate.
    destruct (orderRow (OrderHandlerService.newId env) req) as [row|] eqn:Hrow;
      [|discriminate].
    destruct (itemRows (OrderHandlerService.newId env) (items req)) as [rows|] eqn:Hrows;
      [|discriminate].
    destruct (existsb (OrderService.hasId (OrderHandlerService.newId env)) (orders (pg wa)))
      eqn:Hex; [discriminate|]. intros [= <- <-].
    destruct (createOrder_healthy
                (logged ["Creating order for customer: "
                         +:+ OrderHandlerService.customer_name_of (PCreate req)] wa)
                req (OrderHandlerService.newId env) row rows Hh Hex Hrow Hrows)
      as (v & wb & Hrun & H1 & H2 & _).
    do 2 eexists. split; [eapply CreateSucceeded; eassumption|].
    cbn. split; assumption.
  - apply String.eqb_eq in Hu.
    destruct (CacheService.truthy (orderId event)) as [id|] eqn:Hid; [|discriminate].
    destruct (data event) as [[|status|]|] eqn:Hdata; try discriminate.
    destruct (Column.varchar 50 status) as [st|] eqn:Hst; [|discriminate].
    destruct (existsb (OrderService.hasId id) (orders (pg wa))) eqn:Hex; [|discriminate].
    intros [= <- <-].
    destruct (updateOrderStatus_existing (logged ["Updating order: " +:+ id] wa) id status st
                Hh Hst Hex)
      as (v & wb & Hrun & H1 & H2).
    do 2 eexists. split; [eapply UpdateSucceeded; eassumption|].
    cbn. split; assumption.
  - apply String.eqb_eq in Hd.
    destruct (CacheService.truthy (orderId event)) as [id|] eqn:Hid; [|discriminate].
    destruct (existsb (OrderService.hasId id) (orders (pg wa))) eqn:Hex; [|discriminate].
    intros [= <- <-].
    destruct (deleteOrder_existing (logged ["Deleting order: " +:+ id] wa) id Hh Hex)
      as (wb & Hrun & H1 & H2 & _).
    do 2 eexists. split; [eapply DeleteSucceeded; eassumption|].
    cbn. split; assumption.
Qed.

Lemma updateOrderStatus_rejected id st w :
  pgHealthy w ->
  existsb (OrderService.hasId id) (orders (pg w)) = true ->
  match st with
  | Some status => exists e, Column.varchar 50 status = Throw e
  | None => True
  end ->
  exists e w', OrderService.updateOrderStatus id st w = (Throw e, w') /\
               sqs w' = sqs w /\ pg w' = pg w.
Proof.
  intros Hh Hex Hst.
  unfold OrderService.updateOrderStatus, OrderService.UPDATE_status, bind.
  rewrite (query_healthy _ w Hh). cbv beta.
  destruct st as [status|]; [destruct Hst as [e ->] | rewrite Hex];
    cbn [fst snd]; do 2 eexists; (split; [reflexivity|]); cbn; rewrite ?pg_eta;
    split; reflexivity.
Qed.

(** On a healthy database, the handler of a CREATE, an UPDATE or a DELETE
    that cannot be applied throws, and the tables and the queue are as
    before. *)
Lemma dispatch_not_applied event env wa :
  handled event ->
  pgHealthy wa ->
  applied event (OrderHandlerService.newId env) (pg wa) = None ->
  exists err wb,
    OrderHandlerService.dispatch event env wa = (Throw err, wb) /\
    sqs wb = sqs wa /\
    orders (pg wb) = orders (pg wa) /\
    order_items (pg wb) = order_items (pg wa).
Proof.
  intros Hev Hh. unfold applied, OrderHandlerService.dispatch.
  destruct (String.eqb (ev_type event) "CREATE") eqn:Hc;
    [|destruct (String.eqb (ev_type event) "UPDATE") eqn:Hu;
      [|destruct (String.eqb (ev_type event) "DELETE") eqn:Hd]].
  - unfold OrderHandlerService.handleCreateOrder.
    destruct (data event) as [d|] eqn:Hdata.
    + intros Happ.
      destruct (createOrder_fails
                  (logged ["Creating order for customer: "
                           +:+ OrderHandlerService.customer_name_of d] wa)
                  d (OrderHandlerService.newId env) Hh)
        as (e & w' & Hrun & H1 & H2 & _ & _ & H5).
      { intros req ->. unfold orderMissing. cbn.
        destruct (orderRow (OrderHandlerService.newId env) req) as [row|e1];
          [|right; left; eauto].
        destruct (itemRows (OrderHandlerService.newId env) (items req)) as [rows|e2];
          [|right; right; eauto].
        destruct (existsb (OrderService.hasId (OrderHandlerService.newId env))
                          (orders (pg wa))); [|discriminate].
        left. discriminate. }
      exists e, w'. split; [|repeat split; assumption].
      eapply bind_ok; [reflexivity|]. apply bind_throw. exact Hrun.
    + intros _. do 2 eexists. split; [reflexivity|]. repeat split.
  - unfold OrderHandlerService.handleUpdateOrder.
    destruct (CacheService.truthy (orderId event)) as [id|];
      [|intros _; do 2 eexists; split; [reflexivity | repeat split]].
    destruct (data event) as [d|];
      [|intros _; do 2 eexists; split; [reflexivity | repeat split]].
    destruct (existsb (OrderService.hasId id) (orders (pg wa))) eqn:Hex.
    + intros Happ.
      destruct (updateOrderStatus_rejected id (OrderHandlerService.status_of d)
                  (logged ["Updating order: " +:+ id] wa) Hh Hex)
        as (e & w' & Hrun & H1 & H2).
      { destruct d as [req|status|]; cbn; [exact I | | exact I].
        destruct (Column.varchar 50 status) as [st|e]; [discriminate | eauto]. }
      exists e, w'. split; [|rewrite H1, H2; repeat split].
      eapply bind_ok; [reflexivity|]. apply bind_throw. exact Hrun.
    + intros _.
      destruct (updateOrderStatus_missing id (OrderHandlerService.status_of d)
                  (logged ["Updating order: " +:+ id] wa) Hh Hex)
        as (r & w' & Hrun & [-> | [e ->]] & H1 & H2 & _);
        do 2 eexists; (split; [|rewrite H1, H2; repeat split]).
      * eapply bind_ok; [reflexivity|]. eapply bind_ok; [exact Hrun|]. reflexivity.
      * eapply bind_ok; [reflexivity|]. apply bind_throw. exact Hrun.
  - unfold OrderHandlerService.handleDeleteOrder.
    destruct (CacheService.truthy (orderId event)) as [id|];
      [|intros _; do 2 eexists; split; [reflexivity | repeat split]].
    destruct (existsb (OrderService.hasId id) (orders (pg wa))) eqn:Hex; [discriminate|].
    intros _.
    destruct (deleteOrder_missing id (logged ["Deleting order: " +:+ id] wa) Hh Hex)
      as (w' & Hrun & H1 & H2 & _).
    do 2 eexists. split; [|rewrite H1, H2; repeat split].
    eapply bind_ok; [reflexivity|]. eapply bind_ok; [exact Hrun|]. reflexivity.
  - exfalso. destruct Hev as [H | [H | H]]; rewrite H in *; discriminate.
Qed.

(** X26: on a healthy database, whatever Redis does, a leased CREATE,
    UPDATE or DELETE is acknowledged exactly when it can be applied. When
    it can (a CREATE with a request whose values fit their columns and an
    unused new id, an UPDATE with a status that fits its column for an
    existing order, a DELETE of an existing order), the tables are the
    ones that [applied] gives, with the values as the columns store them,
    the id of the message is processed and no retry is scheduled. When it
    cannot, the tables are as before, the message is not marked processed
    and a push is scheduled 1000 ms ahead. In both cases the message
    leaves the processing queue. *)
Theorem applicable_event_is_applied_and_acknowledged (m : OrderEventMessage)
    (env : OrderHandlerService.Env) (w : World) :
  In m (processingQueue (sqs w)) ->
  pgHealthy w ->
  handled (Body m) ->
  exists i m' w',
    OrderHandlerService.processMessage m env w = (Ok tt, w') /\
    processingQueue (sqs w) !! i = Some m' /\
    ReceiptHandle m' = ReceiptHandle m /\
    processingQueue (sqs w') = delete i (processingQueue (sqs w)) /\
    match applied (Body m) (OrderHandlerService.newId env) (pg w) with
    | Some (os, its) =>
        orders (pg w') = os /\
        order_items (pg w') = its /\
        MessageId m' ∈ processedMessages (sqs w') /\
        timers (sqs w') = timers (sqs w)
    | None =>
        orders (pg w') = orders (pg w) /\
        order_items (pg w') = order_items (pg w) /\
        processedMessages (sqs w') = processedMessages (sqs w) /\
        timers (sqs w') = timers (sqs w) ++ [(OrderHandlerService.now env + 1000, m', 1)]
    end.
Proof.
  intros Hin Hh Hev.
  destruct (applied (Body m) (OrderHandlerService.newId env) (pg w)) as [[os its]|] eqn:Happ.
  - destruct (dispatch_applied (Body m) env (logged [processingLine m] w) os its Hh Happ)
      as (scope & wb & Hstore & Hos & Hits).
    pose proof (StoreSucceeded_sqs _ _ _ _ _ Hstore) as Hsqs. cbn in Hsqs.
    pose proof (StoreSucceeded_dispatch _ _ _ _ _ Hstore) as Hdisp.
    pose proof (invalidateOrderCache_ok scope wb) as Hok.
    pose proof (keeps_sqs_invalidateOrderCache scope wb) as Hk1.
    pose proof (keeps_pg_invalidateOrderCache scope wb) as Hk2.
    destruct (CacheService.invalidateOrderCache scope wb) as [res wc].
    cbn in Hok, Hk1, Hk2. subst res.
    destruct (processMessage_dispatched m env w wc Hin Hdisp) as (i & m' & Hm' & Hhd & Hp).
    { congruence. }
    exists i, m'. eexists. split; [exact Hp|]. cbn. rewrite Hk1, Hk2, Hsqs.
    repeat split; try assumption. set_solver.
  - destruct (dispatch_not_applied (Body m) env (logged [processingLine m] w) Hev Hh Happ)
      as (err & wb & Hd & H1 & H2 & H3).
    destruct (processMessage_failed m env w wb err Hin Hd H1) as (i & m' & Hm' & Hhd & Hp).
    exists i, m'. eexists. split; [exact Hp|]. cbn. rewrite H1, H2, H3.
    repeat split; assumption.
Qed.

Lemma applicable_event_is_applied_and_acknowledged_witness :
  exists i m' w',
    OrderHandlerService.processMessage messageCents envRetry centsLeased = (Ok tt, w') /\
    processingQueue (sqs centsLeased) !! i = Some m' /\
    ReceiptHandle m' = ReceiptHandle messageCents /\
    processingQueue (sqs w') = delete i (processingQueue (sqs centsLeased)) /\
    orders (pg w') =
      [ rowAda;
        {| row_id := "lx2"; row_customer_name := "Cy";
           row_customer_email := "cy@example.com";
           row_total_amount := 3 / 10; row_status := "pending" |} ] /\
    order_items (pg w') =
      order_items (pg adaStored) ++
      replicate 3 {| ir_order_id := "lx2"; ir_product_id := "p2";
                     ir_product_name := "Washer"; ir_quantity := 1;
                     ir_unit_price := 1 / 10; ir_total_price := 1 / 10 |} /\
    MessageId m' ∈ processedMessages (sqs w') /\
    timers (sqs w') = timers (sqs centsLeased).
Proof.
  pose proof (applicable_event_is_applied_and_acknowledged messageCents envRetry centsLeased
                ltac:(vm_compute; left; reflexivity) ltac:(vm_compute; reflexivity)
                ltac:(left; vm_compute; reflexivity)) as H.
  assert (Ha : applied (Body messageCents) (OrderHandlerService.newId envRetry)
                 (pg centsLeased) =
               Some ([ rowAda;
                       {| row_id := "lx2"; row_customer_name := "Cy";
                          row_customer_email := "cy@example.com";
                          row_total_amount := 3 / 10; row_status := "pending" |} ],
                     order_items (pg adaStored) ++
                     replicate 3 {| ir_order_id := "lx2"; ir_product_id := "p2";
                                    ir_product_name := "Washer"; ir_quantity := 1;
                                    ir_unit_price := 1 / 10; ir_total_price := 1 / 10 |}))
    by (vm_compute; reflexivity).
  rewrite Ha in H. exact H.
Defined.

(** * Properties of the routes *)

Lemma keeps_pg_sendMessage event e : keeps pg (sendMessage event e).
Proof.
  intros w. destruct (isDuplicate (ne_deduplicationId event) (date_now e) (sqs w)) eqn:Hd.
  - rewrite (sendMessage_duplicate _ _ _ Hd). reflexivity.
  - cbv beta iota zeta delta [sendMessage emit_messageReceived bind gets modify log ret].
    rewrite Hd. destruct w as [s r p [] c]; reflexivity.
Qed.

Lemma keeps_redis_sendMessage event e : keeps redis (sendMessage event e).
Proof.
  intros w. destruct (isDuplicate (ne_deduplicationId event) (date_now e) (sqs w)) eqn:Hd.
  - rewrite (sendMessage_duplicate _ _ _ Hd). reflexivity.
  - cbv beta iota zeta delta [sendMessage emit_messageReceived bind gets modify log ret].
    rewrite Hd. destruct w as [s r p [] c]; reflexivity.
Qed.

Lemma enqueue_route_reply event e w (reply : string -> OrderRoutes.Reply)
    (h : string -> M OrderRoutes.Reply) :
  let route := try_catch (bind (sendMessage event e)
                               (fun result => ret (reply (sr_MessageId result)))) h in
  route w = (Ok (reply (generateMessageId (id_now e) (id_rnd e))),
             snd (sendMessage event e w)).
Proof.
  intros route. unfold route, try_catch, bind.
  pose proof (sendMessage_ok w event e) as Hok.
  destruct (sendMessage event e w) as [r w']. cbn in Hok. subst r. reflexivity.
Qed.

Lemma putOrderStatusHandler_run id status dedupNow e w :
  OrderRoutes.putOrderStatusHandler id status dedupNow e w =
    (Ok (OrderRoutes.Queued 200 "Order status update event queued successfully"
           (generateMessageId (id_now e) (id_rnd e)) id),
     snd (sendMessage (updateEvent id status dedupNow) e w)).
Proof.
  apply (enqueue_route_reply (updateEvent id status dedupNow) e w
           (fun mid => OrderRoutes.Queued 200
                         "Order status update event queued successfully" mid id)).
Qed.

Lemma putOrderStatus_run id status dedupNow e w :
  OrderRoutes.statusSchema status = true ->
  OrderRoutes.putOrderStatus id status dedupNow e w =
    (Ok (OrderRoutes.Queued 200 "Order status update event queued successfully"
           (generateMessageId (id_now e) (id_rnd e)) id),
     snd (sendMessage (updateEvent id status dedupNow) e w)).
Proof.
  intros Hs. unfold OrderRoutes.putOrderStatus. rewrite Hs.
  apply putOrderStatusHandler_run.
Qed.

Lemma postOrderHandler_run orderData idNow idRnd dedupNow e w :
  exists event,
    OrderRoutes.postOrderHandler orderData idNow idRnd dedupNow e w =
      (Ok (OrderRoutes.Queued 201 "Order creation event queued successfully"
             (generateMessageId (id_now e) (id_rnd e))
             ("order_" +:+ string_of_Z idNow +:+ "_" +:+ idRnd)),
       snd (sendMessage event e w)).
Proof.
  eexists.
  apply (enqueue_route_reply _ e w
           (fun mid => OrderRoutes.Queued 201 "Order creation event queued successfully" mid
                         ("order_" +:+ string_of_Z idNow +:+ "_" +:+ idRnd))).
Qed.

Lemma deleteOrder_run id dedupNow e w :
  exists event,
    OrderRoutes.deleteOrder id dedupNow e w =
      (Ok (OrderRoutes.Queued 200 "Order deletion event queued successfully"
             (generateMessageId (id_now e) (id_rnd e)) id),
       snd (sendMessage event e w)).
Proof.
  eexists.
  apply (enqueue_route_reply _ e w
           (fun mid => OrderRoutes.Queued 200 "Order deletion event queued successfully"
                         mid id)).
Qed.

(** X27: the three routes that enqueue an event never answer 500 and
    never touch the database or Redis. A request whose body passes the
    schema of its route (DELETE /orders/:id has none) is always answered
    that the event is queued, with the message id that [sendMessage]
    generated: 201 for POST /orders, 200 for PUT /orders/:id/status and
    DELETE /orders/:id; whether the order exists, or the enqueue was
    suppressed, does not show in the answer. A request whose body does not
    pass the schema is answered 400, and nothing at all changes: no event
    is enqueued. *)
Theorem enqueue_routes_always_answer_queued (w : World) (emailFormat : string -> bool)
    (body : CreateOrderRequest) (id status idRnd : string) (idNow dedupNow : Z)
    (e : Entropy) :
  let messageId := generateMessageId (id_now e) (id_rnd e) in
  let post := OrderRoutes.postOrder emailFormat body idNow idRnd dedupNow e w in
  let put := OrderRoutes.putOrderStatus id status dedupNow e w in
  let del := OrderRoutes.deleteOrder id dedupNow e w in
  fst post =
    Ok (if OrderRoutes.createSchema emailFormat body
        then OrderRoutes.Queued 201 "Order creation event queued successfully" messageId
               ("order_" +:+ string_of_Z idNow +:+ "_" +:+ idRnd)
        else OrderRoutes.BadRequest) /\
  fst put =
    Ok (if OrderRoutes.statusSchema status
        then OrderRoutes.Queued 200 "Order status update event queued successfully"
               messageId id
        else OrderRoutes.BadRequest) /\
  fst del =
    Ok (OrderRoutes.Queued 200 "Order deletion event queued successfully" messageId id) /\
  (OrderRoutes.createSchema emailFormat body = false -> snd post = w) /\
  (OrderRoutes.statusSchema status = false -> snd put = w) /\
  pg (snd post) = pg w /\ pg (snd put) = pg w /\ pg (snd del) = pg w /\
  redis (snd post) = redis w /\ redis (snd put) = redis w /\ redis (snd del) = redis w.
Proof.
  intros messageId post put del. unfold post, put, del.
  unfold OrderRoutes.postOrder, OrderRoutes.putOrderStatus.
  destruct (deleteOrder_run id dedupNow e w) as [ev3 ->].
  destruct (OrderRoutes.createSchema emailFormat body);
    destruct (OrderRoutes.statusSchema status);
    try (destruct (postOrderHandler_run body idNow idRnd dedupNow e w) as [ev1 ->]);
    rewrite ?putOrderStatusHandler_run; unfold ret; cbn [fst snd];
    repeat split; try discriminate;
    try apply keeps_pg_sendMessage; apply keeps_redis_sendMessage.
Qed.

Lemma enqueue_routes_always_answer_queued_witness :
  let post := OrderRoutes.postOrder (fun _ => true) requestNoItems 5 "k" 6 entropy1 init in
  let put := OrderRoutes.putOrderStatus "lx1abc9k2" "completed" 6 entropy1 init in
  fst post = Ok OrderRoutes.BadRequest /\ snd post = init /\
  fst put = Ok OrderRoutes.BadRequest /\ snd put = init.
Proof.
  destruct (enqueue_routes_always_answer_queued init (fun _ => true) requestNoItems
              "lx1abc9k2" "completed" "k" 5 6 entropy1)
    as (H1 & H2 & _ & H4 & H5 & _).
  split; [exact H1|]. split; [apply H4; vm_compute; reflexivity|].
  split; [exact H2|]. apply H5. vm_compute. reflexivity.
Defined.

Lemma string_app_inv_head (p a b : string) : p +:+ a = p +:+ b -> a = b.
Proof.
  induction p as [|c p IH]; intros H;
    cbv beta iota delta [String.append] in H; fold String.append in H.
  - exact H.
  - injection H as H. apply IH. exact H.
Qed.

Lemma updateToken_inj id status now now' :
  updateToken id status now = updateToken id status now' -> now = now'.
Proof.
  unfold updateToken. intros H.
  do 5 apply string_app_inv_head in H. apply string_of_Z_inj. exact H.
Qed.

(** X28: the deduplication id of PUT /orders/:id/status contains the
    clock reading of the request, so deduplication only ever suppresses a
    request made in the same millisecond. After a status update with a
    status of the schema has been requested at clock reading [now1], the
    same update requested at another reading [now2] whose token is not
    recorded is enqueued as a second message; requested at the same
    reading, while the first is recorded and within the window, it is
    suppressed. *)
Theorem update_requests_are_deduplicated_per_millisecond (w : World) (id status : string)
    (now1 now2 : Z) (e1 e2 : Entropy) :
  OrderRoutes.statusSchema status = true ->
  let w1 := snd (OrderRoutes.putOrderStatus id status now1 e1 w) in
  let w2 := snd (OrderRoutes.putOrderStatus id status now2 e2 w1) in
  (now2 <> now1 ->
   deduplicationCache (sqs w) !! updateToken id status now2 = None ->
   queue (sqs w2) = queue (sqs w1) ++ [mkMessage (updateEvent id status now2) e2]) /\
  (now2 = now1 ->
   deduplicationCache (sqs w) !! updateToken id status now1 = None ->
   date_now e1 <> 0 ->
   date_now e2 - date_now e1 < deduplicationWindowMs ->
   queue (sqs w1) = queue (sqs w) ++ [mkMessage (updateEvent id status now1) e1] /\
   queue (sqs w2) = queue (sqs w1)).
Proof.
  intros Hschema w1 w2.
  assert (H1 : w1 = snd (sendMessage (updateEvent id status now1) e1 w)).
  { unfold w1. rewrite putOrderStatus_run by exact Hschema. reflexivity. }
  assert (H2 : w2 = snd (sendMessage (updateEvent id status now2) e2 w1)).
  { unfold w2. rewrite putOrderStatus_run by exact Hschema. reflexivity. }
  assert (Hfirst : deduplicationCache (sqs w) !! updateToken id status now1 = None ->
            sqs w1 =
            {| queue := queue (sqs w) ++ [mkMessage (updateEvent id status now1) e1];
               processingQueue := processingQueue (sqs w);
               processedMessages := processedMessages (sqs w);
               deduplicationCache :=
                 <[updateToken id status now1 := date_now e1]> (deduplicationCache (sqs w));
               timers := timers (sqs w) |}).
  { intros Hnone. rewrite H1. apply sendMessage_fresh.
    unfold isDuplicate. cbn. rewrite Hnone. reflexivity. }
  split.
  - intros Hne Hnone.
    assert (Hd : isDuplicate (updateToken id status now2) (date_now e2) (sqs w1) = false).
    { unfold isDuplicate.
      assert (Hl : deduplicationCache (sqs w1) !! updateToken id status now2 = None).
      { rewrite H1.
        destruct (isDuplicate (updateToken id status now1) (date_now e1) (sqs w)) eqn:Hd1.
        - rewrite (sendMessage_duplicate (updateEvent id status now1) e1 w Hd1). exact Hnone.
        - destruct (sendMessage_fresh (updateEvent id status now1) e1 w Hd1) as [_ ->].
          cbn. rewrite lookup_insert_ne; [exact Hnone|].
          intros Heq. apply updateToken_inj in Heq. congruence. }
      rewrite Hl. reflexivity. }
    rewrite H2. destruct (sendMessage_fresh (updateEvent id status now2) e2 w1 Hd) as [_ ->].
    reflexivity.
  - intros -> Hnone Hnz Hwin. specialize (Hfirst Hnone). split.
    + rewrite Hfirst. reflexivity.
    + rewrite H2.
      rewrite (sendMessage_duplicate (updateEvent id status now1) e2 w1); [reflexivity|].
      apply (isDuplicate_recorded _ (date_now e1)); [|exact Hnz | exact Hwin].
      rewrite Hfirst. cbn. apply lookup_insert_eq.
Qed.

Lemma update_requests_are_deduplicated_per_millisecond_witness :
  let w1 := snd (OrderRoutes.putOrderStatus "o1" "COMPLETED" 7 entropy1 init) in
  let w2 := snd (OrderRoutes.putOrderStatus "o1" "COMPLETED" 8 entropy2 w1) in
  queue (sqs w2) = queue (sqs w1) ++ [mkMessage (updateEvent "o1" "COMPLETED" 8) entropy2].
Proof.
  apply (update_requests_are_deduplicated_per_millisecond init "o1" "COMPLETED" 7 8
           entropy1 entropy2).
  - vm_compute. reflexivity.
  - vm_compute. discriminate.
  - vm_compute. reflexivity.
Defined.

(** ** Reading an order back *)

Lemma get_run key w :
  redisHealthy w ->
  exists w', CacheService.get key w = (Ok (cached key w), w') /\
             redis w' = redis w /\ pg w' = pg w.
Proof.
  intros Hh. unfold CacheService.get, CacheService.redis_get, try_catch.
  rewrite (command_healthy _ w Hh). eexists. split; [reflexivity|].
  cbn. split; reflexivity.
Qed.

Lemma set_run key v ttl w :
  redisHealthy w ->
  exists w', CacheService.set key v ttl w = (Ok tt, w') /\
             cached key w' = Some v /\ redisHealthy w' /\ pg w' = pg w.
Proof.
  intros Hh. unfold CacheService.set, CacheService.redis_setex, try_catch, bind.
  rewrite (command_healthy _ w Hh). eexists. split; [reflexivity|].
  unfold cached, redisHealthy. cbn. unfold CacheService.hasKey at 1. cbn.
  rewrite String.eqb_refl. repeat split. exact Hh.
Qed.

(** [getOrderById] on healthy services when the order is not cached. *)
Lemma getOrderById_miss id w :
  pgHealthy w -> redisHealthy w ->
  cached ("order:" +:+ id) w = None ->
  exists w',
    OrderService.getOrderById id w =
      (Ok (match List.find (OrderService.hasId id) (orders (pg w)) with
           | Some r =>
               Some (COrder (OrderService.mapDbRowToOrder r
                       (OrderService.json_agg (OrderService.itemsOf id (pg w)))))
           | None => None
           end), w') /\
    pg w' = pg w /\ redisHealthy w' /\
    (List.find (OrderService.hasId id) (orders (pg w)) = None ->
     cached ("order:" +:+ id) w' = None).
Proof.
  intros Hp Hr Hc.
  set (w0 := logged ["Generated order cache key: order:" +:+ id] w).
  destruct (get_run ("order:" +:+ id) w0 Hr) as (w1 & Hget & Hr1 & Hp1).
  change (cached ("order:" +:+ id) w0) with (cached ("order:" +:+ id) w) in Hget.
  rewrite Hc in Hget.
  set (w1' := logged ["Order " +:+ id +:+ " retrieved from database"] w1).
  assert (Hp1' : pgHealthy w1') by (unfold pgHealthy; cbn; rewrite Hp1; exact Hp).
  assert (Hsel : OrderService.SELECT_order id w1' =
            (Ok (match List.find (OrderService.hasId id) (orders (pg w)) with
                 | Some r => Some (OrderService.mapDbRowToOrder r
                               (OrderService.json_agg (OrderService.itemsOf id (pg w))))
                 | None => None
                 end), with_pg (fun _ => pg w1') w1')).
  { unfold OrderService.SELECT_order. apply query_ok; [exact Hp1'|].
    cbv beta. change (pg w1') with (pg w1). rewrite Hp1. reflexivity. }
  destruct (List.find (OrderService.hasId id) (orders (pg w))) as [r|] eqn:Hfind.
  - assert (Hr1' : redisHealthy (with_pg (fun _ => pg w1') w1'))
      by (unfold redisHealthy; cbn; rewrite Hr1; exact Hr).
    destruct (set_run ("order:" +:+ id)
                (COrder (OrderService.mapDbRowToOrder r
                   (OrderService.json_agg (OrderService.itemsOf id (pg w)))))
                OrderService.CACHE_TTL_ORDER_DETAILS _ Hr1')
      as (w2 & Hset & _ & Hr2 & Hp2).
    exists w2. split.
    + unfold OrderService.getOrderById.
      eapply bind_ok; [reflexivity|]. eapply bind_ok; [exact Hget|].
      eapply bind_ok; [reflexivity|]. eapply bind_ok; [exact Hsel|].
      eapply bind_ok; [exact Hset|]. reflexivity.
    + split; [rewrite Hp2; cbn; exact Hp1|]. split; [exact Hr2 | discriminate].
  - exists (with_pg (fun _ => pg w1') w1'). split.
    + unfold OrderService.getOrderById.
      eapply bind_ok; [reflexivity|]. eapply bind_ok; [exact Hget|].
      eapply bind_ok; [reflexivity|]. eapply bind_ok; [exact Hsel|]. reflexivity.
    + cbn. split; [exact Hp1|]. split; [unfold redisHealthy; cbn; rewrite Hr1; exact Hr|].
      intros _. unfold cached in *. cbn. rewrite Hr1. exact Hc.
Qed.

Lemma getOrder_healthy id w :
  pgHealthy w -> redisHealthy w ->
  fst (OrderRoutes.getOrder id w) = Ok (expectedReply id w) /\
  pg (snd (OrderRoutes.getOrder id w)) = pg w.
Proof.
  intros Hp Hr. unfold expectedReply, storedOrder.
  set (w0 := logged ["Generated order cache key: order:" +:+ id] w).
  destruct (get_run ("order:" +:+ id) w0 Hr) as (w1 & Hget & Hr1 & Hp1).
  change (cached ("order:" +:+ id) w0) with (cached ("order:" +:+ id) w) in Hget.
  destruct (cached ("order:" +:+ id) w) as [v|] eqn:Hc.
  - assert (Hrun : OrderRoutes.getOrder id w =
              (Ok (OrderRoutes.Found v), logged ["Cache hit for order: " +:+ id] w1)).
    { unfold OrderRoutes.getOrder. eapply try_catch_ok.
      eapply bind_ok; [reflexivity|]. eapply bind_ok; [exact Hget|].
      eapply bind_ok; reflexivity. }
    rewrite Hrun. cbn. split; [reflexivity | exact Hp1].
  - set (w1' := logged ["Cache miss for order: " +:+ id +:+ " fetching from database"] w1).
    assert (Hp1' : pgHealthy w1') by (unfold pgHealthy; cbn; rewrite Hp1; exact Hp).
    assert (Hr1' : redisHealthy w1') by (unfold redisHealthy; cbn; rewrite Hr1; exact Hr).
    assert (Hc1 : cached ("order:" +:+ id) w1' = None)
      by (unfold cached in *; cbn; rewrite Hr1; exact Hc).
    destruct (getOrderById_miss id w1' Hp1' Hr1' Hc1) as (w2 & Hgo & Hp2 & Hr2 & _).
    change (pg w1') with (pg w1) in Hgo, Hp2. rewrite Hp1 in Hgo, Hp2.
    change (pg w0) with (pg w) in Hgo, Hp2.
    destruct (List.find (OrderService.hasId id) (orders (pg w))) as [r|] eqn:Hfind.
    + destruct (set_run ("order:" +:+ id)
                  (COrder (OrderService.mapDbRowToOrder r
                     (OrderService.json_agg (OrderService.itemsOf id (pg w))))) 600 w2 Hr2)
        as (w3 & Hset & _ & _ & Hp3).
      assert (Hrun : OrderRoutes.getOrder id w =
                (Ok (OrderRoutes.Found (COrder (OrderService.mapDbRowToOrder r
                       (OrderService.json_agg (OrderService.itemsOf id (pg w)))))), w3)).
      { unfold OrderRoutes.getOrder. eapply try_catch_ok.
        eapply bind_ok; [reflexivity|]. eapply bind_ok; [exact Hget|].
        eapply bind_ok; [reflexivity|]. eapply bind_ok; [exact Hgo|].
        eapply bind_ok; [exact Hset|]. reflexivity. }
      rewrite Hrun. cbn. split; [reflexivity|]. rewrite Hp3. exact Hp2.
    + assert (Hrun : OrderRoutes.getOrder id w =
                (Ok (OrderRoutes.Error 404 "Order not found"), w2)).
      { unfold OrderRoutes.getOrder. eapply try_catch_ok.
        eapply bind_ok; [reflexivity|]. eapply bind_ok; [exact Hget|].
        eapply bind_ok; [reflexivity|]. eapply bind_ok; [exact Hgo|]. reflexivity. }
      rewrite Hrun. cbn. split; [reflexivity | exact Hp2].
Qed.

(** X29: on healthy services GET /orders/:id hands to [reply.send] the
    cached value when the key of the order is cached, without looking at
    the database (so a stale copy is served as it is); otherwise the order
    as the database holds it and [getOrderById] reads it, an order without
    item rows with one item whose fields are all null; or it answers 404
    "Order not found" when no row has the id. It never changes the
    database. *)
Theorem get_order_route_answers (w : World) (id : string) :
  pgHealthy w ->
  redisHealthy w ->
  fst (OrderRoutes.getOrder id w) =
    Ok (match cached ("order:" +:+ id) w with
        | Some v => OrderRoutes.Found v
        | None =>
            match storedOrder id (pg w) with
            | Some v => OrderRoutes.Found v
            | None => OrderRoutes.Error 404 "Order not found"
            end
        end) /\
  pg (snd (OrderRoutes.getOrder id w)) = pg w.
Proof. apply getOrder_healthy. Qed.

Lemma get_order_route_answers_witness :
  fst (OrderRoutes.getOrder "bare" bareStored) =
    Ok (OrderRoutes.Found
          (COrder {| o_id := "bare"; o_customer_name := "Bob";
                     o_customer_email := "bob@example.com";
                     o_items := [OrderService.nullItem];
                     o_total_amount := 0; o_status := "pending" |})) /\
  pg (snd (OrderRoutes.getOrder "bare" bareStored)) = pg bareStored.
Proof.
  pose proof (get_order_route_answers bareStored "bare"
                ltac:(vm_compute; reflexivity) ltac:(vm_compute; reflexivity)) as H.
  assert (Hc : cached ("order:" +:+ "bare") bareStored = None) by (vm_compute; reflexivity).
  assert (Hs : storedOrder "bare" (pg bareStored) =
               Some (COrder {| o_id := "bare"; o_customer_name := "Bob";
                               o_customer_email := "bob@example.com";
                               o_items := [OrderService.nullItem];
                               o_total_amount := 0; o_status := "pending" |}))
    by (vm_compute; reflexivity).
  rewrite Hc, Hs in H. exact H.
Defined.

Lemma updateOrderStatus_healthy (w : World) (id status st : string) (r : OrderRow) :
  pgHealthy w -> redisHealthy w ->
  Column.varchar 50 status = Ok st ->
  List.find (OrderService.hasId id) (orders (pg w)) = Some r ->
  exists v w',
    OrderService.updateOrderStatus id (Some status) w = (Ok (Some v), w') /\
    pg w' = OrderService.set_orders
              ((fun r => if OrderService.hasId id r then withStatus st r else r)
                 <$> orders (pg w)) (pg w) /\
    redisHealthy w'.
Proof.
  intros Hh Hrh Hst Hfind.
  assert (Hex : existsb (OrderService.hasId id) (orders (pg w)) = true).
  { apply List.existsb_exists. apply List.find_some in Hfind. exists r. exact Hfind. }
  set (updated := (fun r => if OrderService.hasId id r then withStatus st r else r)
                    <$> orders (pg w)).
  set (w1 := with_pg (fun _ => OrderService.set_orders updated (pg w)) w).
  set (w1' := logged ["Invalidating cache after updating order " +:+ id +:+ "..."] w1).
  destruct (invalidateOrderCache_drops_order_key id w1' Hrh) as (w2 & Hinv & Hc2 & Hrh2 & Hpg2).
  set (w2' := logged ["Cache invalidation completed"] w2).
  assert (Hh2 : pgHealthy w2') by (unfold pgHealthy; cbn; rewrite Hpg2; exact Hh).
  assert (Hc2' : cached ("order:" +:+ id) w2' = None) by exact Hc2.
  destruct (getOrderById_miss id w2' Hh2 Hrh2 Hc2') as (w3 & Hget & Hpg3 & Hrh3 & _).
  assert (Hfind2 : List.find (OrderService.hasId id) (orders (pg w2')) =
                   Some (withStatus st r)).
  { cbn. rewrite Hpg2. cbn. unfold updated. rewrite find_fmap_status, Hfind. reflexivity. }
  rewrite Hfind2 in Hget.
  do 2 eexists. split; [|split].
  - unfold OrderService.updateOrderStatus. eapply bind_ok.
    + unfold OrderService.UPDATE_status.
      apply (query_ok _ w true (OrderService.set_orders updated (pg w)) Hh).
      rewrite Hst, Hex. reflexivity.
    + cbv iota. eapply bind_ok; [reflexivity|].
      eapply bind_ok; [exact Hinv|]. eapply bind_ok; [reflexivity|]. exact Hget.
  - rewrite Hpg3. cbn. rewrite Hpg2. reflexivity.
  - exact Hrh3.
Qed.

(** X30: read your writes. On healthy services, once the consumer has
    processed a leased status update of an order that is in the orders
    table, with a status that fits its column, GET /orders/:id answers
    with that order bearing the new status as the column stores it, read
    from the database: the cached copy was invalidated. *)
Theorem processed_update_is_visible_to_get (m : OrderEventMessage)
    (env : OrderHandlerService.Env) (w : World) (id status st : string) (r : OrderRow) :
  In m (processingQueue (sqs w)) ->
  ev_type (Body m) = "UPDATE" ->
  CacheService.truthy (orderId (Body m)) = Some id ->
  data (Body m) = Some (PStatus status) ->
  Column.varchar 50 status = Ok st ->
  pgHealthy w ->
  redisHealthy w ->
  List.find (OrderService.hasId id) (orders (pg w)) = Some r ->
  let w' := snd (OrderHandlerService.processMessage m env w) in
  fst (OrderHandlerService.processMessage m env w) = Ok tt /\
  fst (OrderRoutes.getOrder id w') =
    Ok (OrderRoutes.Found
          (COrder (OrderService.mapDbRowToOrder (withStatus st r)
                     (OrderService.json_agg (OrderService.itemsOf id (pg w)))))).
Proof.
  intros Hin Ht Hid Hd Hst Hp Hr Hfind w'.
  set (wa := logged [processingLine m] w).
  destruct (updateOrderStatus_healthy (logged ["Updating order: " +:+ id] wa) id status st r
              Hp Hr Hst Hfind) as (v & wb & Hrun & Hpgb & Hrb).
  assert (Hstore : StoreSucceeded (Body m) env wa (Some id)
                     (logged ["Order updated successfully: " +:+ id] wb)).
  { eapply UpdateSucceeded; eassumption. }
  pose proof (StoreSucceeded_sqs _ _ _ _ _ Hstore) as Hsqs. cbn in Hsqs.
  pose proof (StoreSucceeded_dispatch _ _ _ _ _ Hstore) as Hdisp.
  destruct (invalidateOrderCache_drops_order_key id
              (logged ["Order updated successfully: " +:+ id] wb) Hrb)
    as (wc & Hinv & Hcc & Hrc & Hpgc).
  assert (Hk : sqs wc = sqs (logged ["Order updated successfully: " +:+ id] wb)).
  { pose proof (keeps_sqs_invalidateOrderCache (Some id)
                  (logged ["Order updated successfully: " +:+ id] wb)) as H.
    rewrite Hinv in H. exact H. }
  rewrite Hinv in Hdisp.
  destruct (processMessage_dispatched m env w wc Hin Hdisp) as (i & m' & Hm' & Hhd & Hrunp).
  { rewrite Hk. cbn. exact Hsqs. }
  unfold w'. rewrite Hrunp. cbn [fst snd]. split; [reflexivity|].
  match goal with |- fst (OrderRoutes.getOrder id ?x) = _ => set (wf := x) end.
  assert (Hpf : pg wf = OrderService.set_orders
                          ((fun r => if OrderService.hasId id r then withStatus st r else r)
                             <$> orders (pg w)) (pg w)).
  { unfold wf. cbn. rewrite Hpgc. cbn. exact Hpgb. }
  assert (Hhf : pgHealthy wf) by (unfold pgHealthy; rewrite Hpf; exact Hp).
  assert (Hrf : redisHealthy wf) by exact Hrc.
  destruct (getOrder_healthy id wf Hhf Hrf) as [-> _].
  unfold expectedReply, storedOrder.
  assert (Hcf : cached ("order:" +:+ id) wf = None) by exact Hcc.
  rewrite Hcf, Hpf. cbn. rewrite find_fmap_status, Hfind. reflexivity.
Qed.

Lemma processed_update_is_visible_to_get_witness :
  let w' := snd (OrderHandlerService.processMessage messageCompleteAda envRetry
                   completeAdaLeased) in
  fst (OrderHandlerService.processMessage messageCompleteAda envRetry completeAdaLeased)
    = Ok tt /\
  fst (OrderRoutes.getOrder "lx1abc9k2" w') =
    Ok (OrderRoutes.Found
          (COrder (OrderService.mapDbRowToOrder
                     (withStatus "COMPLETED" rowAda)
                     (OrderService.json_agg
                        (OrderService.itemsOf "lx1abc9k2" (pg completeAdaLeased)))))).
Proof.
  apply (processed_update_is_visible_to_get messageCompleteAda envRetry completeAdaLeased
           "lx1abc9k2" "COMPLETED" "COMPLETED" rowAda).
  - vm_compute. left. reflexivity.
  - vm_compute. reflexivity.
  - vm_compute. reflexivity.
  - vm_compute. reflexivity.
  - vm_compute. reflexivity.
  - vm_compute. reflexivity.
  - vm_compute. reflexivity.
  - vm_compute. reflexivity.
Defined.

(** * One tick of the consumer *)

Lemma findIndex_app_le {A} (p : A -> bool) (l1 : list A) (x : A) (l2 : list A) :
  p x = true -> exists i, findIndex p (l1 ++ x :: l2) = Some i /\ (i <= length l1)%nat.
Proof.
  intros Hx. induction l1 as [|y l1 (i & Hi & Hle)]; simpl.
  - rewrite Hx. exists 0%nat. split; [reflexivity | lia].
  - destruct (p y).
    + exists 0%nat. split; [reflexivity | lia].
    + rewrite Hi. exists (S i). split; [reflexivity | lia].
Qed.

Lemma delete_app_le {A} (i : nat) (l1 : list A) (x : A) (l2 : list A) :
  (i <= length l1)%nat ->
  exists l1', delete i (l1 ++ x :: l2) = l1' ++ l2 /\ length l1' = length l1.
Proof.
  revert i. induction l1 as [|y l1 IH]; intros [|i] Hle; simpl in *; try lia.
  - exists []. split; reflexivity.
  - exists (l1 ++ [x]). split; [rewrite <- app_assoc; reflexivity|].
    rewrite length_app. simpl. lia.
  - destruct (IH i) as (l1' & Hd & Hl); [lia|].
    exists (y :: l1'). split; [simpl; f_equal; exact Hd | simpl; lia].
Qed.

(** Processing a message whose handle is found at index [i] of the
    processing queue removes that entry and leaves [queue] as it is. *)
Lemma processMessage_removes m env w i :
  findIndex (hasHandle (ReceiptHandle m)) (processingQueue (sqs w)) = Some i ->
  exists w',
    OrderHandlerService.processMessage m env w = (Ok tt, w') /\
    processingQueue (sqs w') = delete i (processingQueue (sqs w)) /\
    queue (sqs w') = queue (sqs w).
Proof.
  intros Hi. destruct (findIndex_Some _ _ _ Hi) as (m' & Hm' & _).
  pose proof (keeps_sqs_dispatch (Body m) env (logged [processingLine m] w)) as Hk.
  destruct (OrderHandlerService.dispatch (Body m) env (logged [processingLine m] w))
    as [[[]|err] wb] eqn:Hd; cbn in Hk.
  - eexists. split.
    + unfold OrderHandlerService.processMessage. cbv zeta. apply try_catch_ok.
      eapply bind_ok; [reflexivity|]. eapply bind_ok; [exact Hd|].
      eapply bind_ok; [apply (deleteMessage_found _ wb i m'); rewrite Hk; assumption|].
      reflexivity.
    + cbn. rewrite Hk. split; reflexivity.
  - eexists. split.
    + unfold OrderHandlerService.processMessage. cbv zeta. eapply try_catch_throw.
      * eapply bind_ok; [reflexivity|]. apply bind_throw. exact Hd.
      * eapply bind_ok; [reflexivity|].
        apply (returnMessage_found _ _ (logged [errorLine m err] wb) i m');
          cbn; rewrite Hk; assumption.
    + cbn. rewrite Hk. split; reflexivity.
Qed.

Lemma forEachMessage_resolves messages : forall envs w before,
  processingQueue (sqs w) = before ++ messages ->
  exists w' after,
    OrderHandlerService.forEachMessage messages envs w = (Ok tt, w') /\
    processingQueue (sqs w') = after /\
    length after = length before /\
    queue (sqs w') = queue (sqs w).
Proof.
  induction messages as [|m rest IH]; intros envs w before Hpq.
  - exists w, before. rewrite app_nil_r in Hpq. repeat split. exact Hpq.
  - destruct (findIndex_app_le (hasHandle (ReceiptHandle m)) before m rest) as (i & Hi & Hle).
    { unfold hasHandle. apply String.eqb_refl. }
    rewrite <- Hpq in Hi.
    destruct (processMessage_removes m
                (hd {| OrderHandlerService.now := 0; OrderHandlerService.newId := "" |} envs)
                w i Hi) as (w1 & Hrun & Hpq1 & Hq1).
    rewrite Hpq in Hpq1.
    destruct (delete_app_le i before m rest Hle) as (before' & Hdel & Hlen).
    rewrite Hdel in Hpq1.
    destruct (IH (tl envs) w1 before' Hpq1) as (w' & after & Hrest & Hafter & Hlen' & Hq').
    exists w', after. split; [|split; [exact Hafter|split; [lia | congruence]]].
    simpl. eapply bind_ok; [exact Hrun | exact Hrest].
Qed.

(** X15: one tick of the consumer never throws, and it resolves every
    message it leases: after the tick as many messages are in flight as
    before it (none, if none was), each leased message having been
    acknowledged or returned for retry; [queue] is unchanged; and a tick
    that finds no available message changes nothing at all. *)
Theorem tick_resolves_its_batch (envs : list OrderHandlerService.Env) (w : World) :
  exists w',
    OrderHandlerService.processMessages envs w = (Ok tt, w') /\
    length (processingQueue (sqs w')) = length (processingQueue (sqs w)) /\
    (processingQueue (sqs w) = [] -> processingQueue (sqs w') = []) /\
    queue (sqs w') = queue (sqs w) /\
    (availableMessages (sqs w) = [] -> w' = w).
Proof.
  destruct (receiveMessage_spec 5 w) as (w1 & Hr & Hs).
  destruct (leaseBatch 5 (sqs w)) as [|m batch] eqn:Hb.
  - assert (Hw1 : w1 = w).
    { unfold receiveMessage, bind at 1, gets in Hr. cbv beta iota in Hr.
      fold (leaseBatch 5 (sqs w)) in Hr. rewrite Hb in Hr. cbn in Hr.
      injection Hr as <-. reflexivity. }
    subst w1. exists w. split.
    + unfold OrderHandlerService.processMessages. eapply try_catch_ok.
      eapply bind_ok; [exact Hr|]. reflexivity.
    + repeat split. intros H. exact H.
  - set (wl := logged ["Processing " +:+ string_of_Z (Z.of_nat (length (m :: batch)))
                       +:+ " messages..."] w1).
    assert (Hpq : processingQueue (sqs wl) = processingQueue (sqs w) ++ m :: batch).
    { cbn. rewrite Hs. reflexivity. }
    destruct (forEachMessage_resolves (m :: batch) envs wl _ Hpq)
      as (w' & after & Hrun & Hafter & Hlen & Hq).
    exists w'. split; [|split; [|split; [|split]]].
    + unfold OrderHandlerService.processMessages. eapply try_catch_ok.
      eapply bind_ok; [exact Hr|]. cbn [length Nat.eqb].
      eapply bind_ok; [reflexivity|]. exact Hrun.
    + rewrite Hafter. exact Hlen.
    + intros Hnil. rewrite Hafter. rewrite Hnil in Hlen. destruct after; [reflexivity|].
      discriminate.
    + rewrite Hq. cbn. rewrite Hs. reflexivity.
    + intros Hnil. unfold leaseBatch in Hb. fold (availableMessages (sqs w)) in Hb.
      rewrite Hnil in Hb. unfold slice0 in Hb. cbn in Hb. discriminate.
Qed.

Lemma tick_resolves_its_batch_witness :
  exists w',
    OrderHandlerService.processMessages [envRetry] oneRecorded = (Ok tt, w') /\
    length (processingQueue (sqs w')) = length (processingQueue (sqs oneRecorded)) /\
    (processingQueue (sqs oneRecorded) = [] -> processingQueue (sqs w') = []) /\
    queue (sqs w') = queue (sqs oneRecorded) /\
    (availableMessages (sqs oneRecorded) = [] -> w' = oneRecorded).
Proof. apply (tick_resolves_its_batch [envRetry] oneRecorded). Defined.
